(** * NARS-Python: a shallow embedding of the reasoning core

    The development follows the Python sources module by module:
    - [NALSyntax]: the symbol tables (copulas, term connectors);
    - [Py]: the outcomes of running Python code (a value or a raised error);
    - [TruthValueFunctions]: the truth-value calculus of [NALInferenceRules.py];
    - [Terms]: [NALGrammar/Terms.py], terms, their canonical strings, the
      recursive-descent constructor [Term.from_string] and its intern table;
    - [Sentences], [Rules], [HelperFunctions]: sentences and inference rules;
    - [InferenceEngine]: the dispatcher of [NARSInferenceEngine.py];
    - [Bag]: the probabilistic priority container of [NARSDataStructures/Bag.py].

    Numbers are rationals ([Q], compared with [==]).  Truth values are
    computed without rounding.  The weight sum of the bag is a float that
    the code updates in place, and its arithmetic is a parameter
    ([Py.FloatOps]), with the arithmetic of IEEE 754 doubles
    ([Py.binary64]) as the instance the program runs on.  Cycle numbers and
    occurrence times are integers ([Z]). *)

From Stdlib Require Import QArith Qabs Qround Qpower ZArith Ascii String Lia
  Lqa.
From stdpp Require Import base gmap strings list.

Open Scope Q_scope.

(** ** Outcomes of Python code *)

Module Py.

(** The exceptions the modelled code can raise. *)
Inductive Error :=
| AssertionError
| ZeroDivisionError
| UnboundLocalError
| AttributeError
| TypeError
| IndexError
| KeyError
| RecursionError
| ArrayTermsNotCovered.

Inductive Result (A : Type) :=
| Ok (a : A)
| Raise (e : Error).
Arguments Ok {A} a.
Arguments Raise {A} e.

(** Statements run in sequence; a raised error skips what follows. *)
#[global] Instance Result_bind : MBind Result := fun A B f r =>
  match r with
  | Ok a => f a
  | Raise e => Raise e
  end.

#[global] Instance Result_ret : MRet Result := fun A a => Ok a.

Definition is_ok {A} (r : Result A) : bool :=
  match r with Ok _ => true | Raise _ => false end.

(** [assert cond] *)
Definition assert (cond : bool) : Result unit :=
  if cond then Ok tt else Raise AssertionError.

(** Python's true division [a / b] on numbers. *)
Definition div (a b : Q) : Result Q :=
  if Qeq_bool b 0 then Raise ZeroDivisionError else Ok (a / b).

(** [a < b] on numbers. *)
Definition lt (a b : Q) : bool := negb (Qle_bool b a).

(** Python's [not x] on a number, used as a number afterwards:
    [True] (1) when [x] is zero, [False] (0) otherwise. *)
Definition not_ (x : Q) : Q := if Qeq_bool x 0 then 1 else 0.

(** [round(x)] on a number: the nearest integer, a tie goes to the even
    one. *)
Definition round (x : Q) : Z :=
  let n := Qfloor x in
  let d := x - inject_Z n in
  if lt d (1 # 2) then n
  else if lt (1 # 2) d then (n + 1)%Z
  else if Z.even n then n else (n + 1)%Z.

(** *** Floats *)

(** A Python float is an IEEE 754 double; a finite one is read as the
    rational number it denotes.  [float_round x] is the double nearest to
    [x], a tie going to the even significand: [x] is scaled by the power
    of two that leaves its magnitude 53 bits (the exponent no lower than
    -1074, that of the subnormal doubles) and rounded to an integer.
    Magnitudes beyond the largest double are outside the model. *)
Definition float_round (x : Q) : Q :=
  if Qeq_bool x 0 then 0
  else
    let a := Qabs x in
    let e0 := (Z.log2 (Qnum a) - Z.log2 (Zpos (Qden a)) - 52)%Z in
    let e1 := if lt (a / 2 ^ e0) (2 ^ 52) then (e0 - 1)%Z else e0 in
    let e := Z.max e1 (-1074) in
    let m := inject_Z (round (a / 2 ^ e)) * 2 ^ e in
    if lt x 0 then - m else m.

(** The operations on floats: [a + b], [a - b] and [a / b] for a divisor
    that is not zero. *)
Record FloatOps := mkFloatOps {
  fadd : Q -> Q -> Q;
  fsub : Q -> Q -> Q;
  fdiv : Q -> Q -> Q
}.

(** The operations of Python: the exact result, rounded. *)
Definition binary64 : FloatOps :=
  mkFloatOps (fun a b => float_round (a + b))
    (fun a b => float_round (a - b))
    (fun a b => float_round (a / b)).

(** [s[i:j]] for [0 <= i] and [0 <= j]. *)
Definition slice (s : string) (i j : nat) : string :=
  String.substring i (j - i) s.

(** [s[i:]] *)
Definition slice_from (s : string) (i : nat) : string :=
  String.substring i (String.length s - i) s.

(** [s[i]], an [IndexError] out of range. *)
Definition index (s : string) (i : nat) : Result ascii :=
  match String.get i s with
  | Some c => Ok c
  | None => Raise IndexError
  end.

(** [s[-1]] *)
Definition last_char (s : string) : Result ascii :=
  match String.length s with
  | O => Raise IndexError
  | S n => index s n
  end.

(** [s.replace(" ", "")] *)
Fixpoint remove_spaces (s : string) : string :=
  match s with
  | EmptyString => EmptyString
  | String c r =>
      if Ascii.eqb c " "%char then remove_spaces r
      else String c (remove_spaces r)
  end.

End Py.

(** ** NALSyntax: symbol tables *)

Module NALSyntax.

(** Modelled from the spec: the module [NALSyntax] (the enumerations
    [Copula], [TermConnector], [StatementSyntax] and their predicates) is
    imported by every source file but is not part of the sources at hand.
    The constructors and their wire tokens are those listed in the
    data model and the Narsese wire format of the specification. *)
Inductive Copula :=
| Inheritance
| Similarity
| Implication
| Equivalence
| PredictiveImplication
| ConcurrentImplication
| RetrospectiveImplication
| PredictiveEquivalence
| ConcurrentEquivalence.

Module Copula.

Definition value (c : Copula) : string :=
  match c with
  | Inheritance => "-->"
  | Similarity => "<->"
  | Implication => "==>"
  | Equivalence => "<=>"
  | PredictiveImplication => "=/>"
  | ConcurrentImplication => "=|>"
  | RetrospectiveImplication => "=\>"
  | PredictiveEquivalence => "</>"
  | ConcurrentEquivalence => "<|>"
  end.

Definition all : list Copula :=
  [Inheritance; Similarity; Implication; Equivalence;
   PredictiveImplication; ConcurrentImplication; RetrospectiveImplication;
   PredictiveEquivalence; ConcurrentEquivalence].

Definition eqb (a b : Copula) : bool := String.eqb (value a) (value b).

(** Modelled from the spec: the symmetric copulas are similarity and
    the equivalences; inheritance and the implications are not. *)
Definition is_symmetric (c : Copula) : bool :=
  match c with
  | Similarity | Equivalence | PredictiveEquivalence
  | ConcurrentEquivalence => true
  | _ => false
  end.

(** Modelled from the spec: inheritance and similarity are first-order,
    the implication class is higher-order. *)
Definition is_first_order (c : Copula) : bool :=
  match c with
  | Inheritance | Similarity => true
  | _ => false
  end.

Definition get_copula_from_string (s : string) : option Copula :=
  List.find (fun c => String.eqb (value c) s) all.

Definition is_string_a_copula (s : string) : bool :=
  match get_copula_from_string s with Some _ => true | None => false end.

End Copula.

Inductive TermConnector :=
| ExtensionalIntersection
| IntensionalIntersection
| ExtensionalDifference
| IntensionalDifference
| Product
| ExtensionalImage
| IntensionalImage
| ImagePlaceHolder
| Negation
| Conjunction
| Disjunction
| SequentialConjunction
| ParallelConjunction
| ExtensionalSetStart
| ExtensionalSetEnd
| IntensionalSetStart
| IntensionalSetEnd
| Array.

Module TermConnector.

Definition value (c : TermConnector) : string :=
  match c with
  | ExtensionalIntersection => "&"
  | IntensionalIntersection => "|"
  | ExtensionalDifference => "-"
  | IntensionalDifference => "~"
  | Product => "*"
  | ExtensionalImage => "/"
  | IntensionalImage => "\"
  | ImagePlaceHolder => "_"
  | Negation => "--"
  | Conjunction => "&&"
  | Disjunction => "||"
  | SequentialConjunction => "&/"
  | ParallelConjunction => "&|"
  | ExtensionalSetStart => "{"
  | ExtensionalSetEnd => "}"
  | IntensionalSetStart => "["
  | IntensionalSetEnd => "]"
  | Array => "@"
  end.

Definition all : list TermConnector :=
  [ExtensionalIntersection; IntensionalIntersection;
   ExtensionalDifference; IntensionalDifference; Product;
   ExtensionalImage; IntensionalImage; ImagePlaceHolder; Negation;
   Conjunction; Disjunction; SequentialConjunction; ParallelConjunction;
   ExtensionalSetStart; ExtensionalSetEnd; IntensionalSetStart;
   IntensionalSetEnd; Array].

Definition eqb (a b : TermConnector) : bool :=
  String.eqb (value a) (value b).

Definition get_term_connector_from_string (s : string)
  : option TermConnector :=
  List.find (fun c => String.eqb (value c) s) all.

(** Modelled from the spec: the order-invariant connectors are the
    intersections, the union (disjunction), the parallel conjunction and
    the set openers. *)
Definition is_order_invariant (c : TermConnector) : bool :=
  match c with
  | ExtensionalIntersection | IntensionalIntersection | Disjunction
  | ParallelConjunction | ExtensionalSetStart | IntensionalSetStart => true
  | _ => false
  end.

(** Modelled from the spec: the connectors that join statements
    (negation, the conjunctions and the disjunction) are higher-order,
    the connectors that join terms are first-order. *)
Definition is_first_order (c : TermConnector) : bool :=
  match c with
  | Negation | Conjunction | Disjunction | SequentialConjunction
  | ParallelConjunction => false
  | _ => true
  end.

Definition is_set_bracket_start (ch : ascii) : bool :=
  Ascii.eqb ch "{"%char || Ascii.eqb ch "["%char.

Definition is_set_bracket_end (ch : ascii) : bool :=
  Ascii.eqb ch "}"%char || Ascii.eqb ch "]"%char.

Definition get_set_end_connector_from_set_start_connector
  (c : TermConnector) : Py.Result TermConnector :=
  match c with
  | ExtensionalSetStart => Py.Ok ExtensionalSetEnd
  | IntensionalSetStart => Py.Ok IntensionalSetEnd
  | _ => Py.Raise Py.AssertionError
  end.

End TermConnector.

(** [StatementSyntax]: the brackets and the divider. *)
Module StatementSyntax.
Definition Start : ascii := "("%char.
Definition End_ : ascii := ")"%char.
Definition TermDivider : ascii := ","%char.
Definition ArrayElementIndexStart : ascii := "["%char.
End StatementSyntax.

(** Modelled from the spec: atomic terms are bare words over a fixed
    alphanumeric alphabet ([valid_term_chars]). *)
Definition is_valid_term_char (ch : ascii) : bool :=
  let n := nat_of_ascii ch in
  ((48 <=? n) && (n <=? 57) || (65 <=? n) && (n <=? 90)
   || (97 <=? n) && (n <=? 122) || (n =? 95))%nat.

End NALSyntax.

(** ** NALInferenceRules.py: the truth-value calculus *)

Module TruthValueFunctions.
Import Py.

(** [NALGrammar.TruthValue(frequency, confidence)]: the pair the truth
    functions build. *)
Record TruthValue := mkTruthValue { frequency : Q; confidence : Q }.

(** Equality of truth values, component by component. *)
Definition tv_eq (a b : TruthValue) : Prop :=
  frequency a == frequency b /\ confidence a == confidence b.

Definition tv_eqb (a b : TruthValue) : bool :=
  Qeq_bool (frequency a) (frequency b)
  && Qeq_bool (confidence a) (confidence b).

(** *** Binary truth value operations *)

(** [band] of its arguments: the running product, started at 1. *)
Definition band (argv : list Q) : Q :=
  fold_left (fun res arg => res * arg) argv 1.

(** [bor] of its arguments. *)
Definition bor (argv : list Q) : Q :=
  1 - fold_left (fun res arg => res * (1 - arg)) argv 1.

Definition bnot (arg : Q) : Q := 1 - arg.

Section WithConfig.

(** [Config.k], the evidential horizon. *)
Variable k : Q.

(** *** Helper functions *)

Definition get_confidence_from_evidence (w : Q) : Result Q :=
  div w (w + k).

Definition get_truthvalue_from_evidence (wp w : Q) : Result (Q * Q) :=
  f ← (if Qeq_bool wp w then Ok 1 else div wp w);
  c ← get_confidence_from_evidence w;
  mret (f, c).

Definition get_evidence_fromfreqconf (f c : Q) : Result (Q * Q * Q) :=
  wp ← div (k * f * c) (1 - c);
  w ← div (k * c) (1 - c);
  mret (wp, w, w - wp).

(** *** Inference rule truth value operations *)

Definition F_Revision (wp1 wn1 wp2 wn2 : Q) : Result TruthValue :=
  let wp := wp1 + wp2 in
  let wn := wn1 + wn2 in
  let w := wp + wn in
  '(f_rev, c_rev) ← get_truthvalue_from_evidence wp w;
  mret (mkTruthValue f_rev c_rev).

Definition F_Negation (f c : Q) : TruthValue :=
  mkTruthValue (1 - f) c.

Definition F_Conversion (f c : Q) : Result TruthValue :=
  let wp := band [f; c] in
  let w := wp in
  '(f_cnv, c_cnv) ← get_truthvalue_from_evidence wp w;
  mret (mkTruthValue f_cnv c_cnv).

Definition F_Contraposition (f c : Q) : Result TruthValue :=
  let wp := 0 in
  let wn := band [bnot f; c] in
  let w := wn in
  '(f_cnt, c_cnt) ← get_truthvalue_from_evidence wp w;
  mret (mkTruthValue f_cnt c_cnt).

Definition F_Deduction (f1 c1 f2 c2 : Q) : TruthValue :=
  mkTruthValue (band [f1; f2]) (band [f1; f2; c1; c2]).

Definition F_Analogy (f1 c1 f2 c2 : Q) : TruthValue :=
  mkTruthValue (band [f1; f2]) (band [f2; c1; c2]).

Definition F_Resemblance (f1 c1 f2 c2 : Q) : TruthValue :=
  mkTruthValue (band [f1; f2]) (band [bor [f1; f2]; c1; c2]).

Definition F_Abduction (f1 c1 f2 c2 : Q) : Result TruthValue :=
  let wp := band [f1; f2; c1; c2] in
  let w := band [f1; c1; c2] in
  '(f_abd, c_abd) ← get_truthvalue_from_evidence wp w;
  mret (mkTruthValue f_abd c_abd).

Definition F_Induction (f1 c1 f2 c2 : Q) : Result TruthValue :=
  let wp := band [f1; f2; c1; c2] in
  let w := band [f2; c1; c2] in
  '(f_ind, c_ind) ← get_truthvalue_from_evidence wp w;
  mret (mkTruthValue f_ind c_ind).

Definition F_Exemplification (f1 c1 f2 c2 : Q) : Result TruthValue :=
  let wp := band [f1; f2; c1; c2] in
  let w := wp in
  '(f_exe, c_exe) ← get_truthvalue_from_evidence wp w;
  mret (mkTruthValue f_exe c_exe).

Definition F_Comparison (f1 c1 f2 c2 : Q) : Result TruthValue :=
  let wp := band [f1; f2; c1; c2] in
  let w := band [bor [f1; f2]; c1; c2] in
  '(f3, c3) ← get_truthvalue_from_evidence wp w;
  mret (mkTruthValue f3 c3).

Definition F_Intersection (f1 c1 f2 c2 : Q) : TruthValue :=
  mkTruthValue (band [f1; f2]) (band [c1; c2]).

Definition F_Union (f1 c1 f2 c2 : Q) : TruthValue :=
  mkTruthValue (bor [f1; f2]) (band [c1; c2]).

(** [f3 = band(f1, not (f2))]: the second factor is Python's boolean
    [not], not [bnot]. *)
Definition F_Difference (f1 c1 f2 c2 : Q) : TruthValue :=
  mkTruthValue (band [f1; not_ f2]) (band [c1; c2]).

(** [F_Projection(frequency, confidence, t_B, t_T)];
    [T_c = Global.Global.get_current_cycle_number()] is the cycle counter
    read from the global state.  The quotient of the two integers is a
    true division. *)
Definition F_Projection (T_c : Z) (frequency confidence : Q) (t_B t_T : Z)
  : Result TruthValue :=
  k_c ← div (inject_Z (Z.abs (t_B - t_T)))
            (inject_Z (Z.abs (t_B - T_c) + Z.abs (t_T - T_c)));
  let projected_confidence := (1 - k_c) * confidence in
  mret (mkTruthValue frequency projected_confidence).

Definition F_Eternalization (temporal_frequency temporal_confidence : Q)
  : Result TruthValue :=
  eternal_confidence ← div 1 (k + temporal_confidence);
  mret (mkTruthValue temporal_frequency eternal_confidence).

Definition Expectation (f c : Q) : Q := c * (f - (1#2)) + (1#2).

End WithConfig.

(** [Decision(f, c)]: whether to pursue a goal; [T] is [Config.T], the
    decision threshold. *)
Definition Decision (T : Q) (f c : Q) : bool :=
  let desirability := Expectation f c in
  lt T (Qabs (desirability - (1 # 2))).

End TruthValueFunctions.

(** ** NALGrammar/Terms.py: term objects *)

Module Terms.
Import Py NALSyntax.

Inductive VariableType := Independent | Dependent | Query.

#[local] Set Warnings "-register-all".

Definition VARIABLE_SYM : ascii := "#"%char.
Definition QUERY_SYM : ascii := "?"%char.

(** A term object.  Every object carries the address it was allocated at
    (its identity, what Python's [is] compares) and the field [string]
    that [Term.__init__] fills with the canonical string at construction.
    The remaining fields are those of the classes [AtomicTerm],
    [VariableTerm], [CompoundTerm] and [StatementTerm].  Array terms, whose
    base class [Array] lies outside these sources, are not covered. *)
Inductive Term :=
| AtomicTerm (addr : nat) (string : string)
| VariableTerm (addr : nat) (string : string)
    (variable_name : String.string) (variable_type : VariableType)
    (dependency_list : option (list Term))
| CompoundTerm (addr : nat) (string : string)
    (subterms : list Term) (connector : option TermConnector)
| StatementTerm (addr : nat) (string : string)
    (subterms : list Term) (copula : option Copula)
    (connector : option TermConnector).

Definition addr (t : Term) : nat :=
  match t with
  | AtomicTerm a _ | VariableTerm a _ _ _ _ | CompoundTerm a _ _ _
  | StatementTerm a _ _ _ _ => a
  end.

(** [str(t)]: terms are never mutated after construction, so the string
    [get_formatted_string] would recompute is the one cached in
    [self.string]. *)
Definition str (t : Term) : string :=
  match t with
  | AtomicTerm _ s | VariableTerm _ s _ _ _ | CompoundTerm _ s _ _
  | StatementTerm _ s _ _ _ => s
  end.

(** [Term.__eq__]: terms are equal if their strings are the same. *)
Definition eqb (a b : Term) : bool := String.eqb (str a) (str b).

(** [a is b]: the same object. *)
Definition is_ (a b : Term) : bool := Nat.eqb (addr a) (addr b).

Definition subterms (t : Term) : list Term :=
  match t with
  | CompoundTerm _ _ l _ | StatementTerm _ _ l _ _ => l
  | _ => []
  end.

(** [t.connector], for compound and statement terms. *)
Definition connector (t : Term) : option TermConnector :=
  match t with
  | CompoundTerm _ _ _ c | StatementTerm _ _ _ _ c => c
  | _ => None
  end.

Definition copula (t : Term) : option Copula :=
  match t with
  | StatementTerm _ _ _ c _ => c
  | _ => None
  end.

Definition is_StatementTerm (t : Term) : bool :=
  match t with StatementTerm _ _ _ _ _ => true | _ => false end.

(** [isinstance(t, CompoundTerm)]: [StatementTerm] is a subclass. *)
Definition is_CompoundTerm (t : Term) : bool :=
  match t with
  | CompoundTerm _ _ _ _ | StatementTerm _ _ _ _ _ => true
  | _ => false
  end.

(** [get_subject_term] is [self.subterms[0]], [get_predicate_term] is
    [self.subterms[1]]. *)
Definition get_subject_term (t : Term) : Result Term :=
  match subterms t with
  | s :: _ => Ok s
  | _ => Raise IndexError
  end.

Definition get_predicate_term (t : Term) : Result Term :=
  match subterms t with
  | _ :: p :: _ => Ok p
  | _ => Raise IndexError
  end.

(** [_calculate_syntactic_complexity], by class. *)
Fixpoint syntactic_complexity (t : Term) : nat :=
  match t with
  | AtomicTerm _ _ => 1
  | VariableTerm _ _ _ _ None => 1
  | VariableTerm _ _ _ _ (Some deps) => 1 + length deps
  | CompoundTerm _ _ l c =>
      fold_left (fun count s => count + syntactic_complexity s) l
        (match c with Some _ => 1 | None => 0 end)
  | StatementTerm _ _ l _ c =>
      fold_left (fun count s => count + syntactic_complexity s) l
        (match c with Some _ => 2 | None => 1 end)
  end%nat.

(** [subterms.sort(key=lambda t: str(t))]: a stable sort by string. *)
Fixpoint insert_by_str (x : Term) (l : list Term) : list Term :=
  match l with
  | [] => [x]
  | y :: r =>
      if String.ltb (str y) (str x) then y :: insert_by_str x r
      else x :: y :: r
  end.

Definition sort_by_str (l : list Term) : list Term :=
  fold_right insert_by_str [] l.

(** [s[:-1]] *)
Definition drop_last (s : string) : string :=
  slice s 0 (String.length s - 1).

Definition string_of_char (c : ascii) : string := String c EmptyString.

(** [is_set], on the connector. *)
Definition is_intensional_set (c : option TermConnector) : bool :=
  match c with Some IntensionalSetStart => true | _ => false end.

Definition is_extensional_set (c : option TermConnector) : bool :=
  match c with Some ExtensionalSetStart => true | _ => false end.

Definition is_set (c : option TermConnector) : bool :=
  is_intensional_set c || is_extensional_set c.

(** [VariableTerm.get_formatted_string] *)
Definition VariableTerm_get_formatted_string (variable_symbol : ascii)
    (variable_name : string) (dependency_list : option (list Term))
  : string :=
  let dependency_string :=
    match dependency_list with
    | None => ""
    | Some deps =>
        drop_last
          (fold_left
             (fun acc dependency =>
                acc +:+ str dependency
                +:+ string_of_char StatementSyntax.TermDivider)
             deps "(")
        +:+ ")"
    end in
  string_of_char variable_symbol +:+ variable_name +:+ dependency_string.

(** [CompoundTerm.get_formatted_string]; reading [.value] of a missing
    connector is an [AttributeError]. *)
Definition CompoundTerm_get_formatted_string (subterms : list Term)
    (connector : option TermConnector) : Result string :=
  c ← (match connector with
        | Some c => Ok c
        | None => Raise AttributeError
        end);
  let string :=
    if is_set connector then TermConnector.value c
    else TermConnector.value c
         +:+ string_of_char StatementSyntax.TermDivider in
  let string :=
    fold_left
      (fun acc subterm =>
         acc +:+ str subterm +:+ string_of_char StatementSyntax.TermDivider)
      subterms string in
  let string := drop_last string in
  if is_set connector then
    e ← TermConnector.get_set_end_connector_from_set_start_connector c;
    mret (string +:+ TermConnector.value e)
  else
    mret (string_of_char StatementSyntax.Start +:+ string
          +:+ string_of_char StatementSyntax.End_).

(** [StatementTerm.get_formatted_string] *)
Definition StatementTerm_get_formatted_string (subterms : list Term)
    (copula : option Copula) (connector : option TermConnector)
  : Result string :=
  match subterms with
  | subject :: predicate :: _ =>
      c ← (match copula with
            | Some c => Ok c
            | None => Raise AttributeError
            end);
      mret (string_of_char StatementSyntax.Start +:+ str subject
            +:+ " " +:+ Copula.value c +:+ " " +:+ str predicate
            +:+ string_of_char StatementSyntax.End_)
  | _ => CompoundTerm_get_formatted_string subterms connector
  end.

(** [get_top_level_copula(string)]: the scan keeps the last copula found
    at depth 1. *)
Definition get_top_level_copula (string : string)
  : option Copula * option nat :=
  let step (acc : option Copula * option nat * Z) (i : nat) :=
    let '(copula, copula_idx, depth) := acc in
    match String.get i string with
    | None => acc
    | Some v =>
        if Ascii.eqb v StatementSyntax.Start then
          (copula, copula_idx, (depth + 1)%Z)
        else if Ascii.eqb v StatementSyntax.End_ then
          (copula, copula_idx, (depth - 1)%Z)
        else if (depth =? 1)%Z && (i + 3 <=? String.length string)%nat
                && Copula.is_string_a_copula (slice string i (i + 3))
        then (Copula.get_copula_from_string (slice string i (i + 3)),
              Some i, depth)
        else acc
    end in
  fst (fold_left step (seq 0 (String.length string)) (None, None, 0%Z)).

(** [AtomicTerm.is_valid_term] *)
Definition is_valid_term (term_string : string) : bool :=
  forallb is_valid_term_char (list_ascii_of_string term_string).

(** [s.find(c)] *)
Fixpoint find_char (c : ascii) (s : string) : option nat :=
  match s with
  | EmptyString => None
  | String d r =>
      if Ascii.eqb c d then Some O
      else match find_char c r with
           | Some n => Some (S n)
           | None => None
           end
  end.

End Terms.

(** ** The state the program runs in *)

Module Runtime.
Import Py Terms.

(** The process-wide state: the class attribute [Term.term_dict] (the
    intern table, keyed by string), the allocator of object identities,
    the counter that issues stamp ids, the cycle counter of [Global], the
    lines printed so far, and the one part of a stamp that is mutated
    after the sentence is built: the ids of the sentences it has
    interacted with, by stamp id. *)
Record World := mkWorld {
  term_dict : gmap string Term;
  next_addr : nat;
  next_stamp_id : nat;
  current_cycle_number : Z;
  stdout : list string;
  interacted_sentences : gmap nat (list nat)
}.

Definition initial_world : World := mkWorld ∅ 0 0 0 [] ∅.

(** A computation reads and updates the state and returns or raises; the
    updates made before an error is raised persist. *)
Definition Interp (A : Type) : Type := World -> Result A * World.

#[global] Instance Interp_bind : MBind Interp := fun A B f m w =>
  match m w with
  | (Ok a, w') => f a w'
  | (Raise e, w') => (Raise e, w')
  end.

#[global] Instance Interp_ret : MRet Interp := fun A a w => (Ok a, w).

Definition lift {A} (r : Result A) : Interp A := fun w => (r, w).

Definition raise {A} (e : Error) : Interp A := fun w => (Raise e, w).

(** A fresh object identity. *)
Definition alloc : Interp nat := fun w =>
  (Ok (next_addr w),
   mkWorld (term_dict w) (S (next_addr w)) (next_stamp_id w)
     (current_cycle_number w) (stdout w) (interacted_sentences w)).

Definition fresh_stamp_id : Interp nat := fun w =>
  (Ok (next_stamp_id w),
   mkWorld (term_dict w) (next_addr w) (S (next_stamp_id w))
     (current_cycle_number w) (stdout w) (interacted_sentences w)).

Definition print (line : string) : Interp unit := fun w =>
  (Ok tt,
   mkWorld (term_dict w) (next_addr w) (next_stamp_id w)
     (current_cycle_number w) (stdout w ++ [line])
     (interacted_sentences w)).

Definition get_current_cycle_number : Interp Z := fun w =>
  (Ok (current_cycle_number w), w).

Definition term_dict_lookup (key : string) : Interp (option Term) :=
  fun w => (Ok (term_dict w !! key), w).

Definition term_dict_store (key : string) (t : Term) : Interp unit :=
  fun w =>
    (Ok tt,
     mkWorld (<[key := t]> (term_dict w)) (next_addr w) (next_stamp_id w)
       (current_cycle_number w) (stdout w) (interacted_sentences w)).

Definition add_to_interacted_sentences (id other : nat) : Interp unit :=
  fun w =>
    (Ok tt,
     mkWorld (term_dict w) (next_addr w) (next_stamp_id w)
       (current_cycle_number w) (stdout w)
       (<[id := default [] (interacted_sentences w !! id) ++ [other]]>
          (interacted_sentences w))).

(** A [for] loop that builds a list. *)
Fixpoint mapM {A B} (f : A -> Interp B) (l : list A) : Interp (list B) :=
  match l with
  | [] => mret []
  | x :: r => y ← f x; ys ← mapM f r; mret (y :: ys)
  end.

End Runtime.

(** ** NALGrammar/Terms.py: constructors and [from_string] *)

Module TermFactory.
Import Py NALSyntax Terms Runtime.

(** [AtomicTerm(term_string)] *)
Definition new_AtomicTerm (term_string : string) : Interp Term :=
  a ← alloc;
  lift (assert (is_valid_term term_string));;
  mret (AtomicTerm a term_string).

(** [VariableTerm(variable_name, variable_type, dependency_list)] *)
Definition new_VariableTerm (variable_name : string)
    (variable_type : VariableType) (dependency_list : option (list Term))
  : Interp Term :=
  a ← alloc;
  let variable_symbol :=
    match variable_type with Query => QUERY_SYM | _ => VARIABLE_SYM end in
  mret (VariableTerm a
          (VariableTerm_get_formatted_string variable_symbol variable_name
             dependency_list)
          variable_name variable_type dependency_list).

(** [VariableTerm.from_string]: a non-empty dependency string yields the
    empty dependency list, the dependencies themselves are not parsed. *)
Definition VariableTerm_from_string (variable_name : string)
    (variable_type_symbol : ascii) (dependency_list_string : string)
  : Interp Term :=
  let dependency_list : option (list Term) :=
    if (0 <? String.length dependency_list_string)%nat then Some []
    else None in
  let type :=
    if Ascii.eqb variable_type_symbol QUERY_SYM then Some Query
    else if Ascii.eqb variable_type_symbol VARIABLE_SYM then
      match dependency_list with
      | None => Some Independent
      | Some _ => Some Dependent
      end
    else None in
  match type with
  | None => raise AssertionError
  | Some ty => new_VariableTerm variable_name ty dependency_list
  end.

Section Constructors.

(** The class method [CompoundTerm.from_string], which the constructor
    of a multi-component set calls on each component. *)
Variable CompoundTerm_from_string : string -> Interp Term.

(** The body of [CompoundTerm.__init__] up to [self.subterms = subterms]:
    the subterms and the connector the object ends up with. *)
Definition CompoundTerm_init (subterms : list Term)
    (term_connector : option TermConnector)
  : Interp (list Term * option TermConnector) :=
  match term_connector with
  | None => mret (subterms, None)
  | Some c =>
      let subterms :=
        if (1 <? length subterms)%nat && TermConnector.is_order_invariant c
        then sort_by_str subterms else subterms in
      let is_extensional_set :=
        String.eqb (TermConnector.value c)
          (TermConnector.value ExtensionalSetStart) in
      let is_intensional_set :=
        String.eqb (TermConnector.value c)
          (TermConnector.value IntensionalSetStart) in
      let is_set := is_extensional_set || is_intensional_set in
      if is_set && (1 <? length subterms)%nat then
        singleton_set_subterms ←
          mapM (fun subterm =>
                  e ← lift
                    (TermConnector.get_set_end_connector_from_set_start_connector c);
                  CompoundTerm_from_string
                    (TermConnector.value c +:+ str subterm
                     +:+ TermConnector.value e))
               subterms;
        mret (singleton_set_subterms,
              if is_extensional_set then Some IntensionalIntersection
              else Some ExtensionalIntersection)
      else mret (subterms, Some c)
  end.

(** [CompoundTerm(subterms, term_connector)] *)
Definition new_CompoundTerm (subterms : list Term)
    (term_connector : option TermConnector) : Interp Term :=
  a ← alloc;
  '(subterms, connector) ← CompoundTerm_init subterms term_connector;
  string ← lift (CompoundTerm_get_formatted_string subterms connector);
  mret (CompoundTerm a string subterms connector).

(** [StatementTerm(subject_term, predicate_term, copula,
    statement_connector)].  [assert_statement_term] requires the only
    subterm of a one-place statement to be a statement. *)
Definition new_StatementTerm (subject_term : Term)
    (predicate_term : option Term) (copula : option Copula)
    (statement_connector : option TermConnector) : Interp Term :=
  a ← alloc;
  subterms ←
    match predicate_term with
    | None =>
        lift (assert (is_StatementTerm subject_term));;
        mret [subject_term]
    | Some p => mret [subject_term; p]
    end;
  let subterms :=
    match copula with
    | Some c =>
        if Copula.is_symmetric c then sort_by_str subterms else subterms
    | None => subterms
    end in
  '(subterms, connector) ← CompoundTerm_init subterms statement_connector;
  string ← lift
    (StatementTerm_get_formatted_string subterms copula connector);
  mret (StatementTerm a string subterms copula connector).

End Constructors.

Section Parser.

(** The recursive calls of the parser. *)
Variable Term_from_string : string -> Interp Term.
Variable CompoundTerm_from_string : string -> Interp Term.

(** The loop of [parse_toplevel_subterms_and_connector] over the
    characters of the internal string. *)
Fixpoint split_toplevel (chars : list ascii) (depth : Z)
    (subterm_string : string) (subterms : list Term)
  : Interp (string * list Term) :=
  match chars with
  | [] => mret (subterm_string, subterms)
  | c :: rest =>
      let depth :=
        if Ascii.eqb c StatementSyntax.Start
           || TermConnector.is_set_bracket_start c then (depth + 1)%Z
        else if Ascii.eqb c StatementSyntax.End_
                || TermConnector.is_set_bracket_end c then (depth - 1)%Z
        else depth in
      if Ascii.eqb c StatementSyntax.TermDivider && (depth =? 0)%Z then
        subterm ← Term_from_string subterm_string;
        split_toplevel rest depth "" (subterms ++ [subterm])
      else
        split_toplevel rest depth (subterm_string +:+ string_of_char c)
          subterms
  end.

Definition parse_toplevel_subterms_and_connector
    (compound_term_string : string)
  : Interp (list Term * option TermConnector) :=
  let compound_term_string := remove_spaces compound_term_string in
  let internal_string :=
    slice compound_term_string 1 (String.length compound_term_string - 1) in
  c0 ← lift (index compound_term_string 0);
  '(connector, internal_string) ←
    match TermConnector.get_term_connector_from_string
            (string_of_char c0) with
    | Some c => mret (c, internal_string)
    | None =>
        c1 ← lift (index internal_string 1);
        connector_string ←
          (if Ascii.eqb c1 StatementSyntax.TermDivider then
             h ← lift (index internal_string 0);
             mret (string_of_char h)
           else mret (slice internal_string 0 2));
        match TermConnector.get_term_connector_from_string
                connector_string with
        | None => raise AttributeError
        | Some c =>
            let n := String.length (TermConnector.value c) in
            d ← lift (index internal_string n);
            lift (assert (Ascii.eqb d StatementSyntax.TermDivider));;
            mret (c, slice_from internal_string (n + 1))
        end
    end;
  '(subterm_string, subterms) ←
    split_toplevel (list_ascii_of_string internal_string) 0 "" [];
  subterm ← Term_from_string subterm_string;
  mret (subterms ++ [subterm], Some connector).

(** [StatementTerm.from_string] *)
Definition StatementTerm_from_string (statement_string : string)
  : Interp Term :=
  let negated :=
    match TermConnector.get_term_connector_from_string
            (slice statement_string 1 3) with
    | Some Negation => true
    | _ => false
    end in
  let statement_connector := if negated then Some Negation else None in
  let statement_string :=
    if negated then
      slice statement_string 4 (String.length statement_string - 1)
    else statement_string in
  match get_top_level_copula statement_string with
  | (Some copula, Some copula_idx) =>
      let subject_str := slice statement_string 1 copula_idx in
      let predicate_str :=
        slice statement_string
          (copula_idx + String.length (Copula.value copula))
          (String.length statement_string - 1) in
      subject_term ← Term_from_string subject_str;
      predicate_term ← Term_from_string predicate_str;
      new_StatementTerm CompoundTerm_from_string subject_term
        (Some predicate_term) (Some copula) statement_connector
  | _ => raise AssertionError
  end.

(** [Term.from_string], one level: the table is consulted and filled
    under the string that was passed in. *)
Definition Term_from_string_body (term_string : string) : Interp Term :=
  cached ← term_dict_lookup term_string;
  match cached with
  | Some t => mret t
  | None =>
      c0 ← lift (index term_string 0);
      term ←
        (if Ascii.eqb c0 StatementSyntax.Start then
           last ← lift (last_char term_string);
           lift (assert (Ascii.eqb last StatementSyntax.End_));;
           match get_top_level_copula term_string with
           | (None, _) => CompoundTerm_from_string term_string
           | (Some _, _) => StatementTerm_from_string term_string
           end
         else if TermConnector.is_set_bracket_start c0 then
           CompoundTerm_from_string term_string
         else if String.eqb (string_of_char c0)
                   (TermConnector.value Array) then
           raise ArrayTermsNotCovered
         else if Ascii.eqb c0 VARIABLE_SYM || Ascii.eqb c0 QUERY_SYM then
           match find_char "("%char term_string with
           | None =>
               VariableTerm_from_string (slice_from term_string 1) c0 ""
           | Some dependency_list_start_idx =>
               let close :=
                 match find_char ")"%char term_string with
                 | Some j => j
                 | None => (String.length term_string - 1)%nat
                 end in
               VariableTerm_from_string
                 (slice term_string 1 dependency_list_start_idx) c0
                 (slice term_string (dependency_list_start_idx + 1) close)
           end
         else new_AtomicTerm term_string);
      term_dict_store term_string term;;
      mret term
  end.

End Parser.

(** The parser's recursion, cut at a given depth of nested calls
    (Python raises [RecursionError] likewise). *)
Fixpoint Term_from_string (depth : nat) (term_string : string)
  : Interp Term :=
  match depth with
  | O => raise RecursionError
  | S depth =>
      Term_from_string_body (Term_from_string depth)
        (CompoundTerm_from_string depth) term_string
  end
with CompoundTerm_from_string (depth : nat) (compound_term_string : string)
  : Interp Term :=
  match depth with
  | O => raise RecursionError
  | S depth =>
      '(subterms, connector) ←
        parse_toplevel_subterms_and_connector (Term_from_string depth)
          compound_term_string;
      new_CompoundTerm (CompoundTerm_from_string depth) subterms connector
  end.

(** [sys.getrecursionlimit()] *)
Definition recursion_limit : nat := 1000.

Module Term.
(** [Term.from_string(term_string)] *)
Definition from_string (term_string : string) : Interp Terms.Term :=
  Term_from_string recursion_limit term_string.
End Term.

(** The constructors as the inference rules call them. *)
Definition CompoundTerm_ (subterms : list Terms.Term)
    (term_connector : option TermConnector) : Interp Terms.Term :=
  new_CompoundTerm (CompoundTerm_from_string recursion_limit) subterms
    term_connector.

Definition StatementTerm_ (subject_term : Terms.Term)
    (predicate_term : option Terms.Term) (copula : option Copula)
    (statement_connector : option TermConnector) : Interp Terms.Term :=
  new_StatementTerm (CompoundTerm_from_string recursion_limit) subject_term
    predicate_term copula statement_connector.

End TermFactory.

(** ** Sentences *)

Module Sentences.
Import Py NALSyntax Terms Runtime TruthValueFunctions.

(** Modelled from the spec: the sentence classes ([Judgment], [Goal],
    [Question]) and [Stamp] belong to [NALGrammar], of which only
    [Terms.py] is among the sources.  A sentence carries a statement, a
    value (none for a question) and a stamp; a stamp carries a unique id
    issued in increasing order, an optional occurrence time ([None] is
    eternal), the evidential base as a set of ids, the derived-by label
    and the parent premises (by id).  A fresh sentence has an empty
    base, and merging a parent's base into it is set union; the bound on
    the size of a base is a configuration constant and is left out. *)
Inductive SentenceType := Judgment | Goal | Question.

Definition SentenceType_eqb (a b : SentenceType) : bool :=
  match a, b with
  | Judgment, Judgment | Goal, Goal | Question, Question => true
  | _, _ => false
  end.

Record Stamp := mkStamp {
  id : nat;
  occurrence_time : option Z;
  evidential_base : list nat;
  from_conversion : bool;
  from_one_premise_inference : bool;
  derived_by : option string;
  parent_premises : list nat
}.

Record Sentence := mkSentence {
  type_ : SentenceType;
  statement : Term;
  value : option TruthValue;
  stamp : Stamp
}.

Definition new_Stamp (occurrence_time : option Z) : Interp Stamp :=
  i ← fresh_stamp_id;
  mret (mkStamp i occurrence_time [] false false None []).

(** [Judgment(statement, truth, occurrence_time=...)] *)
Definition new_Judgment (statement : Term) (truth : TruthValue)
    (occurrence_time : option Z) : Interp Sentence :=
  s ← new_Stamp occurrence_time;
  mret (mkSentence Judgment statement (Some truth) s).

Definition new_Goal (statement : Term) (desire : TruthValue)
    (occurrence_time : option Z) : Interp Sentence :=
  s ← new_Stamp occurrence_time;
  mret (mkSentence Goal statement (Some desire) s).

(** [Question(statement)] *)
Definition new_Question (statement : Term) : Interp Sentence :=
  s ← new_Stamp None;
  mret (mkSentence Question statement None s).

(** [j.is_event()] *)
Definition is_event (j : Sentence) : bool :=
  match occurrence_time (stamp j) with Some _ => true | None => false end.

Definition with_stamp (j : Sentence) (s : Stamp) : Sentence :=
  mkSentence (type_ j) (statement j) (value j) s.

(** [result.stamp.evidential_base.merge_sentence_evidential_base_into_self(j)] *)
Definition merge_sentence_evidential_base_into_self
    (result j : Sentence) : Sentence :=
  let s := stamp result in
  with_stamp result
    (mkStamp (id s) (occurrence_time s)
       (list_union (evidential_base s) (evidential_base (stamp j)))
       (from_conversion s) (from_one_premise_inference s) (derived_by s)
       (parent_premises s)).

Definition set_from_conversion (result : Sentence) : Sentence :=
  let s := stamp result in
  with_stamp result
    (mkStamp (id s) (occurrence_time s) (evidential_base s) true
       (from_one_premise_inference s) (derived_by s) (parent_premises s)).

Definition set_from_one_premise_inference (result : Sentence) : Sentence :=
  let s := stamp result in
  with_stamp result
    (mkStamp (id s) (occurrence_time s) (evidential_base s)
       (from_conversion s) true (derived_by s) (parent_premises s)).

(** [stamp_and_print_inference_rule]: the label and the parents (the
    debug print is off). *)
Definition stamp_and_print_inference_rule (sentence : Sentence)
    (inference_rule : option string) (parent_sentences : list nat)
  : Sentence :=
  let s := stamp sentence in
  with_stamp sentence
    (mkStamp (id s) (occurrence_time s) (evidential_base s)
       (from_conversion s) (from_one_premise_inference s)
       (Some (default "Structural Transformation" inference_rule))
       parent_sentences).

(** [j.stamp.mutually_add_to_interacted_sentences(other)]: the two
    stamps record each other's ids. *)
Definition mutually_add_to_interacted_sentences (j other : Sentence)
  : Interp unit :=
  add_to_interacted_sentences (id (stamp j)) (id (stamp other));;
  add_to_interacted_sentences (id (stamp other)) (id (stamp j)).

(** [j.value.frequency, j.value.confidence]; a question has no value. *)
Definition getevidentialvalues_fromsentence (j : Sentence)
  : Interp (Q * Q) :=
  match value j with
  | Some v => mret (frequency v, confidence v)
  | None => raise AttributeError
  end.

Definition getevidentialvalues_from2sentences (j1 j2 : Sentence)
  : Interp ((Q * Q) * (Q * Q)) :=
  v1 ← getevidentialvalues_fromsentence j1;
  v2 ← getevidentialvalues_fromsentence j2;
  mret (v1, v2).

(** The accessors of [j.statement]. *)
Definition subject_term (j : Sentence) : Interp Term :=
  lift (get_subject_term (statement j)).

Definition predicate_term (j : Sentence) : Interp Term :=
  lift (get_predicate_term (statement j)).

Definition get_copula (j : Sentence) : option Copula :=
  copula (statement j).

End Sentences.

(** ** NALInferenceRules.py: the inference rules *)

Module Rules.
Import Py NALSyntax Terms Runtime TermFactory TruthValueFunctions Sentences.

(** [NALGrammar.Statement(subject, predicate, copula,
    statement_connector=...)]: the statement term of [Terms.py]. *)
Definition Statement (subject predicate : Term) (copula : option Copula)
    (statement_connector : option TermConnector) : Interp Term :=
  StatementTerm_ subject (Some predicate) copula statement_connector.

(** [t.subterms]; atomic and variable terms have no such attribute. *)
Definition subterms_of (t : Term) : Interp (list Term) :=
  match t with
  | CompoundTerm _ _ l _ | StatementTerm _ _ l _ _ => mret l
  | _ => raise AttributeError
  end.

Section WithConfig.

(** [Config.k] *)
Variable k : Q.

(** [Global.Global.TERM_IMAGE_PLACEHOLDER], the term [_] made at
    start-up. *)
Variable TERM_IMAGE_PLACEHOLDER : Term.

Definition getevidence_from2sentences (j1 j2 : Sentence)
  : Interp ((Q * Q * Q) * (Q * Q * Q)) :=
  '((f1, c1), (f2, c2)) ← getevidentialvalues_from2sentences j1 j2;
  e1 ← lift (get_evidence_fromfreqconf k f1 c1);
  e2 ← lift (get_evidence_fromfreqconf k f2 c2);
  mret (e1, e2).

(** *** Local inference rules *)

Definition Revision (j1 j2 : Sentence) : Interp Sentence :=
  lift (assert (String.eqb (str (statement j1)) (str (statement j2))));;
  '((wp1, w1, wn1), (wp2, w2, wn2)) ← getevidence_from2sentences j1 j2;
  result_truth ← lift (F_Revision k wp1 wn1 wp2 wn2);
  s ← subject_term j1;
  p ← predicate_term j1;
  result_statement ← Statement s p (get_copula j1) None;
  result ← new_Judgment result_statement result_truth
             (occurrence_time (stamp j1));
  let result := merge_sentence_evidential_base_into_self result j1 in
  let result := merge_sentence_evidential_base_into_self result j2 in
  mret result.

(** In the branch for questions [assert "error"] passes and binds
    nothing, as in [Negation]. *)
Definition Eternalization (j : Sentence) : Interp Sentence :=
  result ←
    match type_ j with
    | Judgment =>
        '(f, c) ← getevidentialvalues_fromsentence j;
        result_truth ← lift (F_Eternalization k f c);
        new_Judgment (statement j) result_truth None
    | _ => raise UnboundLocalError
    end;
  mret (merge_sentence_evidential_base_into_self result j).

Definition Projection (j : Sentence) (occurrence_time : Z)
  : Interp Sentence :=
  result ←
    match type_ j with
    | Judgment =>
        '(f, c) ← getevidentialvalues_fromsentence j;
        t_B ← (match Sentences.occurrence_time (stamp j) with
               | Some t => mret t
               | None => raise TypeError
               end);
        T_c ← get_current_cycle_number;
        result_truth ← lift (F_Projection T_c f c t_B occurrence_time);
        new_Judgment (statement j) result_truth (Some occurrence_time)
    | _ => raise UnboundLocalError
    end;
  mret (merge_sentence_evidential_base_into_self result j).

(** *** Immediate inference rules *)

(** In the branch for questions [assert "error"] passes, as any
    non-empty string is true, and binds nothing: [result] is still
    unbound at [result.stamp]. *)
Definition Negation (j : Sentence) : Interp Sentence :=
  s ← subject_term j;
  p ← predicate_term j;
  result_statement ← Statement s p (get_copula j) (Some NALSyntax.Negation);
  let occurrence_time := occurrence_time (stamp j) in
  result ←
    match type_ j with
    | Judgment =>
        '(f, c) ← getevidentialvalues_fromsentence j;
        new_Judgment result_statement (F_Negation f c) occurrence_time
    | Question => raise UnboundLocalError
    | Goal => raise UnboundLocalError
    end;
  mret (merge_sentence_evidential_base_into_self result j).

Definition Conversion (j : Sentence) : Interp Sentence :=
  p ← predicate_term j;
  s ← subject_term j;
  result_statement ← Statement p s (get_copula j) None;
  let occurrence_time := occurrence_time (stamp j) in
  result ←
    match type_ j with
    | Judgment =>
        '(f, c) ← getevidentialvalues_fromsentence j;
        result_truth ← lift (F_Conversion k f c);
        new_Judgment result_statement result_truth occurrence_time
    | Question => new_Question result_statement
    | Goal => raise UnboundLocalError
    end;
  let result := merge_sentence_evidential_base_into_self result j in
  mret (set_from_conversion result).

Definition Contraposition (j : Sentence) : Interp Sentence :=
  p ← predicate_term j;
  negated_predicate_term ← CompoundTerm_ [p] (Some NALSyntax.Negation);
  s ← subject_term j;
  negated_subject_term ← CompoundTerm_ [s] (Some NALSyntax.Negation);
  result_statement ← Statement negated_predicate_term negated_subject_term
                       (get_copula j) None;
  result ←
    match type_ j with
    | Judgment =>
        '(f, c) ← getevidentialvalues_fromsentence j;
        result_truth ← lift (F_Contraposition k f c);
        new_Judgment result_statement result_truth None
    | Question => new_Question result_statement
    | Goal => raise UnboundLocalError
    end;
  mret (merge_sentence_evidential_base_into_self result j).

(** The subterms of an image: [R], then the subterms of the product
    with the placeholder at position [i1]. *)
Definition image_subterms (R : Term) (statement_subterms : list Term)
    (i1 : nat) : list Term :=
  R :: imap (fun i2 t => if Nat.eqb i1 i2 then TERM_IMAGE_PLACEHOLDER
                         else t) statement_subterms.

Definition ExtensionalImage (j : Sentence) : Interp (list Sentence) :=
  sub ← subject_term j;
  statement_subterms ← subterms_of sub;
  R ← predicate_term j;
  mapM (fun '(i1, subterm) =>
          image_term ← CompoundTerm_
                         (image_subterms R statement_subterms i1)
                         (Some NALSyntax.ExtensionalImage);
          result_statement ← Statement subterm image_term
                               (Some Inheritance) None;
          result ←
            match type_ j with
            | Judgment =>
                '(f, c) ← getevidentialvalues_fromsentence j;
                new_Judgment result_statement (mkTruthValue f c)
                  (occurrence_time (stamp j))
            | Question => new_Question result_statement
            | Goal => raise UnboundLocalError
            end;
          mret (merge_sentence_evidential_base_into_self result j))
       (imap (fun i t => (i, t)) statement_subterms).

Definition IntensionalImage (j : Sentence) : Interp (list Sentence) :=
  pre ← predicate_term j;
  statement_subterms ← subterms_of pre;
  R ← subject_term j;
  mapM (fun '(i1, subterm) =>
          image_term ← CompoundTerm_
                         (image_subterms R statement_subterms i1)
                         (Some NALSyntax.ExtensionalImage);
          result_statement ← Statement image_term subterm
                               (Some Inheritance) None;
          result ←
            match type_ j with
            | Judgment =>
                '(f, c) ← getevidentialvalues_fromsentence j;
                new_Judgment result_statement (mkTruthValue f c)
                  (occurrence_time (stamp j))
            | Question => new_Question result_statement
            | Goal => raise UnboundLocalError
            end;
          mret (merge_sentence_evidential_base_into_self result j))
       (imap (fun i t => (i, t)) statement_subterms).

(** *** First-order and higher-order syllogisms *)

(** The tail the two-premise rules share: a judgment with the rule's
    truth value and the first premise's occurrence time, or a question;
    then the parents' evidential bases are merged in. *)
Definition conclude (j1 j2 : Sentence) (result_statement : Term)
    (F : Q -> Q -> Q -> Q -> Result TruthValue) : Interp Sentence :=
  result ←
    match type_ j1 with
    | Judgment =>
        '((f1, c1), (f2, c2)) ← getevidentialvalues_from2sentences j1 j2;
        result_truth ← lift (F f1 c1 f2 c2);
        new_Judgment result_statement result_truth
          (occurrence_time (stamp j1))
    | Question => new_Question result_statement
    | Goal => raise UnboundLocalError
    end;
  let result := merge_sentence_evidential_base_into_self result j1 in
  let result := merge_sentence_evidential_base_into_self result j2 in
  mret result.

Definition total (F : Q -> Q -> Q -> Q -> TruthValue)
  : Q -> Q -> Q -> Q -> Result TruthValue :=
  fun f1 c1 f2 c2 => Ok (F f1 c1 f2 c2).

Definition Deduction (j1 j2 : Sentence) : Interp Sentence :=
  s ← subject_term j2;
  p ← predicate_term j1;
  result_statement ← Statement s p (get_copula j1) None;
  conclude j1 j2 result_statement (total F_Deduction).

Definition Analogy (j1 j2 : Sentence) : Interp Sentence :=
  s1 ← subject_term j1; p1 ← predicate_term j1;
  s2 ← subject_term j2; p2 ← predicate_term j2;
  result_statement ←
    (if Terms.eqb s1 p2 then Statement s2 p1 (get_copula j1) None
     else if Terms.eqb s1 s2 then Statement p2 p1 (get_copula j1) None
     else if Terms.eqb p1 p2 then Statement s1 s2 (get_copula j1) None
     else if Terms.eqb p1 s2 then Statement s1 p2 (get_copula j1) None
     else raise AssertionError);
  conclude j1 j2 result_statement (total F_Analogy).

Definition Resemblance (j1 j2 : Sentence) : Interp Sentence :=
  s1 ← subject_term j1; p1 ← predicate_term j1;
  s2 ← subject_term j2; p2 ← predicate_term j2;
  result_statement ←
    (if Terms.eqb s1 p2 then Statement s2 p1 (get_copula j1) None
     else if Terms.eqb s1 s2 then Statement p2 p1 (get_copula j1) None
     else if Terms.eqb p1 p2 then Statement s2 s1 (get_copula j1) None
     else if Terms.eqb p1 s2 then Statement p2 s2 (get_copula j1) None
     else raise AssertionError);
  conclude j1 j2 result_statement (total F_Resemblance).

Definition Abduction (j1 j2 : Sentence) : Interp Sentence :=
  s2 ← subject_term j2;
  s1 ← subject_term j1;
  result_statement ← Statement s2 s1 (get_copula j1) None;
  conclude j1 j2 result_statement (F_Abduction k).

Definition Induction (j1 j2 : Sentence) : Interp Sentence :=
  p2 ← predicate_term j2;
  p1 ← predicate_term j1;
  result_statement ← Statement p2 p1 (get_copula j1) None;
  conclude j1 j2 result_statement (F_Induction k).

Definition Exemplification (j1 j2 : Sentence) : Interp Sentence :=
  p2 ← predicate_term j2;
  s1 ← subject_term j1;
  result_statement ← Statement p2 s1 (get_copula j1) None;
  conclude j1 j2 result_statement (F_Exemplification k).

Definition Comparison (j1 j2 : Sentence) : Interp Sentence :=
  s1 ← subject_term j1; s2 ← subject_term j2;
  p1 ← predicate_term j1; p2 ← predicate_term j2;
  result_statement ←
    (if Terms.eqb s1 s2 then Statement p2 p1 (Some Similarity) None
     else if Terms.eqb p1 p2 then Statement s2 s1 (Some Similarity) None
     else raise AssertionError);
  conclude j1 j2 result_statement (F_Comparison k).

(** *** The composition rules *)

Definition copula_is_first_order (c : option Copula) : bool :=
  match c with Some c => Copula.is_first_order c | None => false end.

(** The statement and, for a judgment, the truth value the two
    intersection rules build: [F_pred] where the premises share the
    predicate, [F_subj] where they share the subject, nothing where they
    share neither. *)
Definition compose (j1 j2 : Sentence) (connector : TermConnector)
    (copula : Copula) (F_pred F_subj : Q -> Q -> Q -> Q -> TruthValue)
  : Interp (option (Term * option TruthValue)) :=
  s1 ← subject_term j1; p1 ← predicate_term j1;
  s2 ← subject_term j2; p2 ← predicate_term j2;
  let truth F :=
    match type_ j1 with
    | Judgment =>
        '((f1, c1), (f2, c2)) ← getevidentialvalues_from2sentences j1 j2;
        mret (Some (F f1 c1 f2 c2))
    | _ => mret None
    end in
  if Terms.eqb p1 p2 then
    compound_term ← CompoundTerm_ [s1; s2] (Some connector);
    result_statement ← Statement compound_term p1 (Some copula) None;
    result_truth ← truth F_pred;
    mret (Some (result_statement, result_truth))
  else if Terms.eqb s1 s2 then
    compound_term ← CompoundTerm_ [p1; p2] (Some connector);
    result_statement ← Statement s1 compound_term (Some copula) None;
    result_truth ← truth F_subj;
    mret (Some (result_statement, result_truth))
  else mret None.

(** The tail of the two intersection rules; a name that was bound in
    neither branch is an [UnboundLocalError]. *)
Definition conclude_composition (j1 j2 : Sentence)
    (built : option (Term * option TruthValue)) : Interp Sentence :=
  result ←
    match type_ j1, built with
    | Judgment, Some (result_statement, Some result_truth) =>
        new_Judgment result_statement result_truth
          (occurrence_time (stamp j1))
    | Question, Some (result_statement, _) =>
        new_Question result_statement
    | _, _ => raise UnboundLocalError
    end;
  let result := merge_sentence_evidential_base_into_self result j1 in
  let result := merge_sentence_evidential_base_into_self result j2 in
  mret result.

Definition IntensionalIntersectionOrDisjunction (j1 j2 : Sentence)
  : Interp Sentence :=
  let first_order :=
    copula_is_first_order (get_copula j1)
    && copula_is_first_order (get_copula j2) in
  let connector :=
    if first_order then IntensionalIntersection else Disjunction in
  let copula := if first_order then Inheritance else Implication in
  built ← compose j1 j2 connector copula F_Intersection F_Union;
  conclude_composition j1 j2 built.

Definition ExtensionalIntersectionOrConjunction (j1 j2 : Sentence)
  : Interp Sentence :=
  let first_order :=
    copula_is_first_order (get_copula j1)
    && copula_is_first_order (get_copula j2) in
  let connector :=
    if first_order then ExtensionalIntersection else Conjunction in
  let copula := if first_order then Inheritance else Implication in
  built ← compose j1 j2 connector copula F_Union F_Intersection;
  conclude_composition j1 j2 built.

Definition ExtensionalDifference (j1 j2 : Sentence) : Interp Sentence :=
  s1 ← subject_term j1; p1 ← predicate_term j1;
  s2 ← subject_term j2; p2 ← predicate_term j2;
  result_statement ←
    (if Terms.eqb p1 p2 then
       compound_term ← CompoundTerm_ [s1; s2]
                         (Some NALSyntax.IntensionalDifference);
       r ← Statement compound_term p1 (Some Inheritance) None;
       mret (Some r)
     else if Terms.eqb s1 s2 then
       compound_term ← CompoundTerm_ [p1; p2]
                         (Some NALSyntax.ExtensionalDifference);
       r ← Statement s1 compound_term (Some Inheritance) None;
       mret (Some r)
     else mret None);
  result ←
    match type_ j1 with
    | Judgment =>
        '((f1, c1), (f2, c2)) ← getevidentialvalues_from2sentences j1 j2;
        let result_truth := F_Difference f1 c1 f2 c2 in
        match result_statement with
        | Some r =>
            new_Judgment r result_truth (occurrence_time (stamp j1))
        | None => raise UnboundLocalError
        end
    | Question =>
        match result_statement with
        | Some r => new_Question r
        | None => raise UnboundLocalError
        end
    | Goal => raise UnboundLocalError
    end;
  let result := merge_sentence_evidential_base_into_self result j1 in
  let result := merge_sentence_evidential_base_into_self result j2 in
  mret result.

End WithConfig.

End Rules.

(** ** NALInferenceRules/HelperFunctions.py *)

Module HelperFunctions.
Import Py NALSyntax Terms Runtime TermFactory TruthValueFunctions Sentences.

(** [Term.simplify]: a statement is rebuilt from its simplified subject
    and predicate, an atomic or compound term is returned as it is, and
    for any other term the method falls off its end and returns [None]. *)
Fixpoint simplify (term : Term) : Interp (option Term) :=
  match term with
  | AtomicTerm _ _ => mret (Some term)
  | StatementTerm _ _ subterms copula _ =>
      match subterms with
      | subject :: rest =>
          simplified_subject_term ← simplify subject;
          match rest with
          | predicate :: _ =>
              simplified_predicate_term ← simplify predicate;
              match simplified_subject_term with
              | Some s =>
                  r ← StatementTerm_ s simplified_predicate_term copula None;
                  mret (Some r)
              | None => raise AssertionError
              end
          | [] => raise IndexError
          end
      | [] => raise IndexError
      end
  | CompoundTerm _ _ _ _ => mret (Some term)
  | VariableTerm _ _ _ _ _ => mret None
  end.

(** [premise_result_type(j1, j2)] *)
Definition premise_result_type (j1 j2 : Sentence) : SentenceType :=
  match type_ j1 with
  | Judgment =>
      match type_ j2 with
      | Judgment => Judgment
      | t => t
      end
  | t => t
  end.

(** Whether the conclusion may need an occurrence time: it is a
    first-order statement, or a compound that is not a statement and whose
    connector is not first-order. *)
Definition may_need_occurrence_time (result_statement : option Term)
  : bool :=
  match result_statement with
  | Some (StatementTerm _ _ _ copula _) =>
      match copula with
      | Some c => Copula.is_first_order c
      | None => false
      end
  | Some (CompoundTerm _ _ _ connector) =>
      match connector with
      | Some c => negb (TermConnector.is_first_order c)
      | None => false
      end
  | _ => false
  end.

Section TwoPremise.

(** [NALInferenceRules.Local.Value_Projection(j, occurrence_time)]: the
    module [Local] is not among the sources, the function is a
    parameter. *)
Variable Value_Projection : Sentence -> Z -> Interp TruthValue.

(** [create_resultant_sentence_two_premise(j1, j2, result_statement,
    truth_value_function)], for premises that are not array sentences;
    [name] is [truth_value_function.__name__]. *)
Definition create_resultant_sentence_two_premise (j1 j2 : Sentence)
    (result_statement : Term)
    (name : string)
    (truth_value_function : Q -> Q -> Q -> Q -> Result TruthValue)
  : Interp Sentence :=
  result_statement ← simplify result_statement;
  let result_type := premise_result_type j1 j2 in
  result ←
    match result_type with
    | Question =>
        match result_statement with
        | Some r => new_Question r
        | None => raise AssertionError
        end
    | _ =>
        '(f1, c1) ← getevidentialvalues_fromsentence j1;
        '(f2, c2) ←
          match occurrence_time (stamp j1), occurrence_time (stamp j2) with
          | Some _, Some t2 =>
              proj_value ← Value_Projection j1 t2;
              mret (frequency proj_value, confidence proj_value)
          | _, _ => getevidentialvalues_fromsentence j2
          end;
        result_truth ← lift (truth_value_function f1 c1 f2 c2);
        let occurrence_time :=
          if may_need_occurrence_time result_statement then
            match occurrence_time (stamp j1), occurrence_time (stamp j2) with
            | Some t1, Some t2 =>
                if (t1 >? t2)%Z then Some t1 else Some t2
            | Some t1, None => Some t1
            | None, Some t2 => Some t2
            | None, None => None
            end
          else None in
        match result_statement with
        | Some r =>
            match result_type with
            | Judgment => new_Judgment r result_truth occurrence_time
            | _ => new_Goal r result_truth occurrence_time
            end
        | None => raise AssertionError
        end
    end;
  let result := merge_sentence_evidential_base_into_self result j1 in
  let result := merge_sentence_evidential_base_into_self result j2 in
  mret (stamp_and_print_inference_rule result (Some name)
          [id (stamp j1); id (stamp j2)]).

End TwoPremise.

(** [create_resultant_sentence_one_premise(j, result_statement,
    truth_value_function, result_truth=None)], for a premise that is not an
    array sentence; a truth function comes with its [__name__]. *)
Definition create_resultant_sentence_one_premise (j : Sentence)
    (result_statement : Term)
    (truth_value_function : option (string * (Q -> Q -> Result TruthValue)))
    (result_truth : option TruthValue) : Interp Sentence :=
  result ←
    match type_ j with
    | Question => new_Question result_statement
    | result_type =>
        result_truth ←
          match result_truth with
          | Some t => mret t
          | None =>
              '(f, c) ← getevidentialvalues_fromsentence j;
              match truth_value_function with
              | None => mret (mkTruthValue f c)
              | Some (_, F) => lift (F f c)
              end
          end;
        match result_type with
        | Judgment =>
            new_Judgment result_statement result_truth
              (occurrence_time (stamp j))
        | _ =>
            new_Goal result_statement result_truth
              (occurrence_time (stamp j))
        end
    end;
  let result := merge_sentence_evidential_base_into_self result j in
  let result := set_from_one_premise_inference result in
  match truth_value_function with
  | None =>
      mret (stamp_and_print_inference_rule result None
              (parent_premises (stamp j)))
  | Some (name, _) =>
      mret (stamp_and_print_inference_rule result (Some name)
              [id (stamp j)])
  end.

(** [convert_to_interval] and [convert_from_interval] return their
    argument. *)
Definition convert_to_interval (working_cycles : Z) : Z := working_cycles.

Definition convert_from_interval (interval : Z) : Z := interval.

End HelperFunctions.

(** ** NARSInferenceEngine.py: the dispatcher *)

Module InferenceEngine.
Import Py NALSyntax Terms Runtime TermFactory TruthValueFunctions Sentences.

Definition option_Copula_eqb (a b : option Copula) : bool :=
  match a, b with
  | Some x, Some y => Copula.eqb x y
  | None, None => true
  | _, _ => false
  end.

(** [NALSyntax.Copula.is_symmetric(copula)] *)
Definition is_symmetric (c : option Copula) : bool :=
  match c with Some c => Copula.is_symmetric c | None => false end.

Definition print_inference_rule (inference_rule : string) : Interp unit :=
  print inference_rule.

(** [derived_sentence = rule; print_inference_rule(...); append] *)
Definition derive (rule : Interp Sentence) (inference_rule : string)
    (derived_sentences : list Sentence) : Interp (list Sentence) :=
  derived_sentence ← rule;
  print_inference_rule inference_rule;;
  mret (derived_sentences ++ [derived_sentence]).

Section WithConfig.

Variable k : Q.

(** The dispatcher calls three rules under the names
    [IntensionalIntersection], [ExtensionalIntersection] and
    [Difference]; they are parameters here. *)
Variable IntensionalIntersection : Sentence -> Sentence -> Interp Sentence.
Variable ExtensionalIntersection : Sentence -> Sentence -> Interp Sentence.
Variable Difference : Sentence -> Sentence -> Interp Sentence.

(** Immediate inference rules. *)
Definition do_inference_one_premise (j : Sentence)
  : Interp (list Sentence) :=
  let derived_sentences := [] in
  match type_ j with
  | Judgment =>
      derived_sentences ← derive (Rules.Negation j) "Negation"
                            derived_sentences;
      '(frequency, _) ← getevidentialvalues_fromsentence j;
      derived_sentences ←
        (if negb (is_symmetric (get_copula j)) && lt 0 frequency
         then derive (Rules.Conversion k j) "Conversion" derived_sentences
         else mret derived_sentences);
      derived_sentences ←
        (if option_Copula_eqb (get_copula j) (Some Implication)
            && lt frequency 1
         then derive (Rules.Contraposition k j) "Contraposition"
                derived_sentences
         else mret derived_sentences);
      mret derived_sentences
  | _ => mret derived_sentences
  end.

(** The rules for two premises that share the subject ([first] is
    ["Induction"]) or the predicate ([first] is ["Abduction"]). *)
Definition weak_and_composition
    (rule : Sentence -> Sentence -> Interp Sentence) (first : string)
    (j1 j2 : Sentence) (derived_sentences : list Sentence)
  : Interp (list Sentence) :=
  derived_sentences ← derive (rule j1 j2) first derived_sentences;
  derived_sentences ← derive (rule j2 j1) ("Swapped " +:+ first)
                        derived_sentences;
  derived_sentences ← derive (Rules.Comparison k j1 j2) "Comparison"
                        derived_sentences;
  derived_sentences ← derive (IntensionalIntersection j1 j2)
                        "Intersection" derived_sentences;
  derived_sentences ← derive (ExtensionalIntersection j1 j2)
                        "Intersection" derived_sentences;
  derived_sentences ← derive (Difference j1 j2) "Intersection"
                        derived_sentences;
  derive (Difference j2 j1) "Intersection" derived_sentences.

Definition do_inference_two_premise (j1 j2 : Sentence)
  : Interp (list Sentence) :=
  if bool_decide (is_Some (connector (statement j1)))
     || bool_decide (is_Some (connector (statement j2)))
  then mret []
  else
    let derived_sentences := [] in
    let j1_term := statement j1 in
    let j2_term := statement j2 in
    j1_subject_term ← subject_term j1;
    j2_subject_term ← subject_term j2;
    j1_predicate_term ← predicate_term j1;
    j2_predicate_term ← predicate_term j2;
    let j1_copula := get_copula j1 in
    let j2_copula := get_copula j2 in
    (* check if the result will lead to tautology *)
    let tautology :=
      (Terms.eqb j1_subject_term j2_predicate_term
       && Terms.eqb j1_predicate_term j2_subject_term)
      || (Terms.eqb j1_subject_term j2_subject_term
          && Terms.eqb j1_predicate_term j2_predicate_term
          && negb (option_Copula_eqb j1_copula (Some Inheritance)
                   && option_Copula_eqb j2_copula (Some Inheritance))) in
    (* check if copula are the same *)
    let different_copulas := negb (option_Copula_eqb j1_copula j2_copula) in
    if tautology || different_copulas then
      (* can't do inference *)
      mret derived_sentences
    else
      let is_question :=
        SentenceType_eqb (type_ j1) Question
        || SentenceType_eqb (type_ j2) Question in
      if Terms.eqb j1_term j2_term && is_question then
        (* can't do revision with questions *)
        mret derived_sentences
      else
        derived_sentences ←
          (if Terms.eqb j1_term j2_term then
             derive (Rules.Revision k j1 j2) "Revision" derived_sentences
           else if negb (is_symmetric j1_copula)
                   && negb (is_symmetric j2_copula) then
             if Terms.eqb j1_subject_term j2_predicate_term
                || Terms.eqb j1_predicate_term j2_subject_term then
               let '(j1, j2) :=
                 if negb (Terms.eqb j1_subject_term j2_predicate_term)
                 then (j2, j1) else (j1, j2) in
               derived_sentences ← derive (Rules.Deduction j1 j2)
                                     "Deduction" derived_sentences;
               derive (Rules.Exemplification k j2 j1)
                 "Swapped Exemplification" derived_sentences
             else if Terms.eqb j1_subject_term j2_subject_term then
               weak_and_composition (Rules.Induction k) "Induction"
                 j1 j2 derived_sentences
             else if Terms.eqb j1_predicate_term j2_predicate_term then
               weak_and_composition (Rules.Abduction k) "Abduction"
                 j1 j2 derived_sentences
             else raise AssertionError
           else if negb (is_symmetric j1_copula)
                   && is_symmetric j2_copula then
             derive (Rules.Analogy j1 j2) "Analogy" derived_sentences
           else if is_symmetric j1_copula
                   && negb (is_symmetric j2_copula) then
             derive (Rules.Analogy j2 j1) "Swapped Analogy"
               derived_sentences
           else if is_symmetric j1_copula && is_symmetric j2_copula then
             derive (Rules.Resemblance j1 j2) "Resemblance"
               derived_sentences
           else mret derived_sentences);
        immediate_inference_derived_sentences ←
          mapM do_inference_one_premise derived_sentences;
        let derived_sentences :=
          derived_sentences
          ++ concat immediate_inference_derived_sentences in
        (* mark sentences as interacted with each other *)
        mutually_add_to_interacted_sentences j1 j2;;
        mret derived_sentences.

End WithConfig.

End InferenceEngine.

(** ** NARSDataStructures/Bag.py: the probabilistic priority queue *)

Module Bag.
Import Py.

(** Modelled from the spec: [Item], its budget and the base class
    [ItemContainer] are defined in modules that are not among the sources.
    An item is the triple of a key, an object and a budget; the budget holds
    the priority, which [set_priority] clamps to [0,1].  Of the object only
    its class matters here. *)
Record Budget := mkBudget { priority : Q; durability : Q; quality : Q }.

Record Item := mkItem { key : string; object_type : string; budget : Budget }.

Definition clamp (p : Q) : Q :=
  if lt 1 p then 1 else if lt p 0 then 0 else p.

Definition set_priority (b : Budget) (new_priority : Q) : Budget :=
  mkBudget (clamp new_priority) (durability b) (quality b).

(** The bag and the item objects it refers to.  Items are mutable objects
    shared between the lookup dictionary, the ordered queue and the caller:
    [heap] holds them by identity, the containers hold identities.
    [ordered_items] is the double-ended priority queue: the entries are
    pairs of the priority given at insertion and the item. *)
Record State := mkState {
  heap : gmap nat Item;
  item_type : string;
  capacity : nat;
  item_keys : list string;
  weights : list Q;
  weights_sum : Q;
  ordered_items : list (Q * nat);
  item_lookup_dict : gmap string nat
}.

Definition BagM (A : Type) : Type := State -> Result A * State.

#[global] Instance BagM_bind : MBind BagM := fun A B f m st =>
  match m st with
  | (Ok a, st') => f a st'
  | (Raise e, st') => (Raise e, st')
  end.

#[global] Instance BagM_ret : MRet BagM := fun A a st => (Ok a, st).

Definition get : BagM State := fun st => (Ok st, st).

Definition modify (f : State -> State) : BagM unit := fun st => (Ok tt, f st).

Definition fail {A} (e : Error) : BagM A := fun st => (Raise e, st).

Definition set_heap (h : gmap nat Item) (st : State) : State :=
  mkState h (item_type st) (capacity st) (item_keys st) (weights st)
    (weights_sum st) (ordered_items st) (item_lookup_dict st).

Definition set_item_keys (l : list string) (st : State) : State :=
  mkState (heap st) (item_type st) (capacity st) l (weights st)
    (weights_sum st) (ordered_items st) (item_lookup_dict st).

Definition set_weights (l : list Q) (st : State) : State :=
  mkState (heap st) (item_type st) (capacity st) (item_keys st) l
    (weights_sum st) (ordered_items st) (item_lookup_dict st).

Definition set_weights_sum (s : Q) (st : State) : State :=
  mkState (heap st) (item_type st) (capacity st) (item_keys st) (weights st)
    s (ordered_items st) (item_lookup_dict st).

Definition set_ordered_items (l : list (Q * nat)) (st : State) : State :=
  mkState (heap st) (item_type st) (capacity st) (item_keys st) (weights st)
    (weights_sum st) l (item_lookup_dict st).

Definition set_item_lookup_dict (d : gmap string nat) (st : State) : State :=
  mkState (heap st) (item_type st) (capacity st) (item_keys st) (weights st)
    (weights_sum st) (ordered_items st) d.

(** [Bag(item_type, capacity)], over the objects that exist. *)
Definition new_Bag (objects : gmap nat Item) (item_type : string)
    (capacity : nat) : State :=
  mkState objects item_type capacity [] [] 0 [] ∅.

(** The attributes of an item object. *)
Definition deref (item : nat) : BagM Item := fun st =>
  match heap st !! item with
  | Some it => (Ok it, st)
  | None => (Raise AttributeError, st)
  end.

(** *** numpy *)

(** [np.where(a == x)]: the positions of [x] in [a]. *)
Fixpoint where_from (n : nat) (x : string) (a : list string) : list nat :=
  match a with
  | [] => []
  | y :: r =>
      if String.eqb y x then n :: where_from (S n) x r
      else where_from (S n) x r
  end.

Definition np_where (a : list string) (x : string) : list nat :=
  where_from 0 x a.

(** [np.delete(a, idx)]: [a] without the positions in [idx]. *)
Fixpoint delete_from {A} (n : nat) (a : list A) (idx : list nat) : list A :=
  match a with
  | [] => []
  | y :: r =>
      if bool_decide (n ∈ idx) then delete_from (S n) r idx
      else y :: delete_from (S n) r idx
  end.

Definition np_delete {A} (a : list A) (idx : list nat) : list A :=
  delete_from 0 a idx.

(** [a[idx] = v]: [v] at every position in [idx]. *)
Fixpoint assign_from {A} (n : nat) (a : list A) (idx : list nat) (v : A)
  : list A :=
  match a with
  | [] => []
  | y :: r =>
      (if bool_decide (n ∈ idx) then v else y) :: assign_from (S n) r idx v
  end.

Definition np_assign {A} (a : list A) (idx : list nat) (v : A) : list A :=
  assign_from 0 a idx v.

(** The arithmetic sum of the weight vector. *)
Definition sum (l : list Q) : Q := fold_right Qplus 0 l.

(** *** The ordered queue *)

(** Modelled from the spec: [NARSDataStructures.Other.Depq] is not among the
    sources.  It is a double-ended priority queue keyed by the raw priority:
    [extract_min] removes and returns an entry of least priority (the
    earliest inserted one among equals), nothing when the queue is empty. *)
Definition insert_object (item : nat) (priority : Q) (q : list (Q * nat))
  : list (Q * nat) :=
  q ++ [(priority, item)].

Fixpoint min_priority (q : list (Q * nat)) : option Q :=
  match q with
  | [] => None
  | (p, _) :: r =>
      match min_priority r with
      | Some m => Some (if Qle_bool p m then p else m)
      | None => Some p
      end
  end.

Fixpoint remove_first (m : Q) (q : list (Q * nat))
  : option (nat * list (Q * nat)) :=
  match q with
  | [] => None
  | (p, item) :: r =>
      if Qeq_bool p m then Some (item, r)
      else match remove_first m r with
           | Some (found, r') => Some (found, (p, item) :: r')
           | None => None
           end
  end.

Definition extract_min (q : list (Q * nat)) : option (nat * list (Q * nat)) :=
  match min_priority q with
  | Some m => remove_first m q
  | None => None
  end.

Section WithConfig.

(** [Budget.get_priority_weight]: the weight is a fixed function of the
    priority. *)
Variable priority_weight : Q -> Q.

(** The arithmetic of the floats: [weights_sum] is updated with [+=] and
    [-=], the weights are normalised with [/]. *)
Variable float : FloatOps.

(** [Config.GUI_USE_INTERFACE] *)
Variable GUI_USE_INTERFACE : bool.

Definition get_priority_weight (b : Budget) : Q :=
  priority_weight (priority b).

(** *** ItemContainer *)

(** Modelled from the spec: an item whose key duplicates an existing entry
    is rejected; otherwise the lookup dictionary gets the entry. *)
Definition _put_into_lookup_dict (item : nat) : BagM unit :=
  it ← deref item;
  st ← get;
  match item_lookup_dict st !! key it with
  | Some _ => fail AssertionError
  | None =>
      modify (set_item_lookup_dict (<[key it := item]> (item_lookup_dict st)))
  end.

(** [self.item_lookup_dict.pop(key)] *)
Definition _take_from_lookup_dict (key : string) : BagM nat :=
  st ← get;
  match item_lookup_dict st !! key with
  | Some item =>
      modify (set_item_lookup_dict (delete key (item_lookup_dict st)));;
      mret item
  | None => fail KeyError
  end.

(** [peek_using_key(key)]: the item, or [None]. *)
Definition peek_using_key (key : string) : BagM (option nat) :=
  st ← get;
  mret (item_lookup_dict st !! key).

(** *** Bag *)

(** [len(self)] *)
Definition len (st : State) : nat := length (item_keys st).

Definition take_using_key (key : string) : BagM nat :=
  st ← get;
  (if bool_decide (is_Some (item_lookup_dict st !! key)) then mret tt
   else fail AssertionError);;
  let item_idx := np_where (item_keys st) key in
  item ← _take_from_lookup_dict key;
  modify (fun st => set_item_keys (np_delete (item_keys st) item_idx) st);;
  modify (fun st => set_weights (np_delete (weights st) item_idx) st);;
  it ← deref item;
  modify (fun st =>
            set_weights_sum
              (fsub float (weights_sum st) (get_priority_weight (budget it)))
              st);;
  mret item.

Definition _take_min : BagM nat :=
  st ← get;
  match extract_min (ordered_items st) with
  | Some (item, rest) =>
      modify (set_ordered_items rest);;
      it ← deref item;
      take_using_key (key it);;
      mret item
  | None => fail AttributeError
  end.

(** [put(item)] returns [item], the item that was put. *)
Definition put (item : nat) : BagM nat :=
  it ← deref item;
  st ← get;
  (if String.eqb (object_type it) (item_type st) then mret tt
   else fail AssertionError);;
  _put_into_lookup_dict item;;
  modify (fun st => set_item_keys (item_keys st ++ [key it]) st);;
  let weight := get_priority_weight (budget it) in
  modify (fun st => set_weights (weights st ++ [weight]) st);;
  modify (fun st => set_weights_sum (fadd float (weights_sum st) weight) st);;
  let priority := priority (budget it) in
  modify (fun st =>
            set_ordered_items (insert_object item priority (ordered_items st))
              st);;
  (* remove lowest priority item if over capacity *)
  st ← get;
  purged_item ←
    (if (capacity st <? len st)%nat then
       purged ← _take_min; mret (Some purged)
     else mret None);
  mret item.

Definition change_priority (key : string) (new_priority : Q) : BagM unit :=
  concept_item ← peek_using_key key;
  match concept_item with
  | None => fail AttributeError
  | Some item =>
      it ← deref item;
      let current_weight := get_priority_weight (budget it) in
      modify (fun st =>
                set_weights_sum (fsub float (weights_sum st) current_weight)
                  st);;
      (* change item priority attribute *)
      let it' :=
        mkItem (Bag.key it) (object_type it)
          (set_priority (budget it) new_priority) in
      modify (fun st => set_heap (<[item := it']> (heap st)) st);;
      (if GUI_USE_INTERFACE then
         _take_from_lookup_dict key;;
         _put_into_lookup_dict item
       else mret tt);;
      (* insert new weight *)
      let new_weight := get_priority_weight (budget it') in
      st ← get;
      let item_idx := np_where (item_keys st) key in
      modify (fun st => set_weights (np_assign (weights st) item_idx new_weight)
                          st);;
      modify (fun st =>
                set_weights_sum (fadd float (weights_sum st) new_weight) st)
  end.

(** [peek_max]: the item of greatest priority in the ordered queue. *)
Fixpoint peek_max_entry (q : list (Q * nat)) : option (Q * nat) :=
  match q with
  | [] => None
  | (p, item) :: r =>
      match peek_max_entry r with
      | Some (m, found) =>
          if Qle_bool m p then Some (p, item) else Some (m, found)
      | None => Some (p, item)
      end
  end.

Definition peek_max : BagM (option nat) :=
  st ← get;
  mret (snd <$> peek_max_entry (ordered_items st)).

(** *** Sequences of operations *)

Inductive Op :=
| Put (item : nat)
| TakeUsingKey (key : string)
| ChangePriority (key : string) (new_priority : Q).

(** One call; what it returns or raises is dropped, the state it leaves is
    kept. *)
Definition step (st : State) (op : Op) : State :=
  match op with
  | Put item => snd (put item st)
  | TakeUsingKey key => snd (take_using_key key st)
  | ChangePriority key new_priority =>
      snd (change_priority key new_priority st)
  end.

Definition run (ops : list Op) (st : State) : State := fold_left step ops st.

(** *** Peeking *)

(** [np.random.choice(a, p=p)]: the sampler is a parameter; it returns an
    element or raises. *)
Variable random_choice : list string -> list Q -> Result string.

Definition of_result {A} (r : Result A) : BagM A := fun st => (r, st).

(** The probability vector [_peek_probabilistically] hands to the sampler:
    the weights over their stored sum, or uniform rates when the sum is not
    positive. *)
Definition normalized_weights (st : State) : Result (list Q) :=
  if lt 0 (weights_sum st) then
    mret (map (fun w => fdiv float w (weights_sum st)) (weights st))
  else
    let n := inject_Z (Z.of_nat (length (weights st))) in
    avg ← (if Qeq_bool n 0 then Raise ZeroDivisionError
           else Ok (fdiv float 1 n));
    mret (replicate (length (weights st)) avg).

(** What peeking returns: an item, [None], or the pair [(None, None)]. *)
Inductive Peeked :=
| PeekedItem (item : nat)
| PeekedNone
| PeekedNonePair.

Definition _peek_probabilistically : BagM Peeked :=
  st ← get;
  if (len st =? 0)%nat then mret PeekedNonePair
  else
    normalized ← of_result (normalized_weights st);
    key ← of_result (random_choice (item_keys st) normalized);
    match item_lookup_dict st !! key with
    | Some item => mret (PeekedItem item)
    | None => fail KeyError
    end.

(** [peek(key=None)]; the timing prints are off. *)
Definition peek (key : option string) : BagM Peeked :=
  st ← get;
  if (len st =? 0)%nat then mret PeekedNone
  else
    match key with
    | None => _peek_probabilistically
    | Some key =>
        item ← peek_using_key key;
        mret (match item with
              | Some item => PeekedItem item
              | None => PeekedNone
              end)
    end.

End WithConfig.

End Bag.


(** * Vocabulary of the properties *)

Import Py NALSyntax Terms Runtime TermFactory TruthValueFunctions Sentences.

(** ** States the constructors leave *)

(** The state after one object was allocated. *)
Definition bump_addr (w : World) : World :=
  mkWorld (term_dict w) (S (next_addr w)) (next_stamp_id w)
    (current_cycle_number w) (stdout w) (interacted_sentences w).

(** The two subterms of a statement in the order they are stored: sorted
    by string under a symmetric copula. *)
Definition stored_pair (c : Copula) (s p : Term) : Term * Term :=
  if Copula.is_symmetric c && String.ltb (str p) (str s) then (p, s)
  else (s, p).

Definition statement_string (c : Copula) (s p : Term) : string :=
  "(" +:+ str s +:+ " " +:+ Copula.value c +:+ " " +:+ str p +:+ ")".

(** The statement object [Statement(s, p, c, conn)] builds at address [a]. *)
Definition built_statement (a : nat) (c : Copula) (s p : Term)
    (conn : option TermConnector) : Term :=
  let '(s', p') := stored_pair c s p in
  StatementTerm a (statement_string c s' p') [s'; p'] (Some c) conn.

(** The compound [(--,t)] that [CompoundTerm([t], Negation)] builds at
    address [a]. *)
Definition negated_term (a : nat) (t : Term) : Term :=
  CompoundTerm a ("(--," +:+ str t +:+ ")") [t] (Some Negation).

(** ** Outcomes compared *)

(** Two outcomes of a truth function agree: the same error, or truth values
    equal component by component. *)
Definition result_eq (a b : Py.Result TruthValue) : Prop :=
  match a, b with
  | Py.Ok x, Py.Ok y => tv_eq x y
  | Py.Raise e1, Py.Raise e2 => e1 = e2
  | _, _ => False
  end.

(** ** The conditions of the one-premise rules *)

Definition applies_Conversion (c : Copula) (f : Q) : bool :=
  negb (Copula.is_symmetric c) && Py.lt 0 f.

Definition applies_Contraposition (c : Copula) (f : Q) : bool :=
  Copula.eqb c Implication && Py.lt f 1.

(** The state after [line] was printed. *)
Definition printed (line : string) (w : World) : World := snd (print line w).

(** One conditional step of the dispatcher, from state [w] to state [w']:
    when the condition holds the rule runs from [w] and returns, its
    conclusion is the one derivation of the step and its name is printed
    after it ran; otherwise nothing is derived and nothing changes. *)
Definition applied (condition : bool) (rule : Interp Sentence)
    (name : string) (w : World) (derivations : list Sentence) (w' : World)
  : Prop :=
  if condition
  then exists r w1,
         rule w = (Py.Ok r, w1) /\ derivations = [r]
         /\ w' = printed name w1
  else derivations = [] /\ w' = w.

(** The lines the one-premise step prints for a judgment with copula [c]
    and frequency [f]. *)
Definition one_premise_rules (c : Copula) (f : Q) : list string :=
  "Negation"
  :: (if applies_Conversion c f then ["Conversion"] else [])
  ++ (if applies_Contraposition c f then ["Contraposition"] else []).

(** ** The occurrence time of a conclusion, in the words of the
    specification: the time of the only event among the premises, the later
    time of two events, none for two eternal premises. *)
Definition spec_occurrence_time (t1 t2 : option Z) : option Z :=
  match t1, t2 with
  | Some a, Some b => Some (Z.max a b)
  | Some a, None => Some a
  | None, Some b => Some b
  | None, None => None
  end.

(** ** The bag *)

Section BagVocabulary.

Variable priority_weight : Q -> Q.
Variable float : Py.FloatOps.

(** What deleting the positions of key [x] does to a vector [l] that runs
    along the keys, and what assigning [v] at these positions does. *)
Fixpoint without (x : string) (keys : list string) {A} (l : list A)
  : list A :=
  match keys, l with
  | k :: ks, y :: r =>
      if String.eqb k x then without x ks r else y :: without x ks r
  | _, _ => []
  end.

Fixpoint replaced (x : string) (keys : list string) {A} (l : list A) (v : A)
  : list A :=
  match keys, l with
  | k :: ks, y :: r =>
      (if String.eqb k x then v else y) :: replaced x ks r v
  | _, _ => []
  end.

(** The weight stored for a key is the weight of the item the key names. *)
Definition tracks (d : gmap string nat) (h : gmap nat Bag.Item)
    (k : string) (wt : Q) : Prop :=
  forall a it,
    d !! k = Some a -> h !! a = Some it ->
    wt == Bag.get_priority_weight priority_weight (Bag.budget it).

(** The invariant of the bag: the keys are distinct and are those of the
    lookup dictionary, every entry of the dictionary names an existing item
    filed under its own key, and the weight vector runs along the keys. *)
Record Inv (st : Bag.State) : Prop := mkInv {
  inv_nodup : NoDup (Bag.item_keys st);
  inv_dom : forall k,
    k ∈ Bag.item_keys st <-> is_Some (Bag.item_lookup_dict st !! k);
  inv_key : forall k a,
    Bag.item_lookup_dict st !! k = Some a ->
    exists it, Bag.heap st !! a = Some it /\ Bag.key it = k;
  inv_weights :
    Forall2 (tracks (Bag.item_lookup_dict st) (Bag.heap st))
      (Bag.item_keys st) (Bag.weights st)
}.

(** The state [take_using_key] leaves when the key names the item [it]. *)
Definition taken (key : string) (it : Bag.Item) (st : Bag.State)
  : Bag.State :=
  Bag.mkState (Bag.heap st) (Bag.item_type st) (Bag.capacity st)
    (Bag.np_delete (Bag.item_keys st) (Bag.np_where (Bag.item_keys st) key))
    (Bag.np_delete (Bag.weights st) (Bag.np_where (Bag.item_keys st) key))
    (Py.fsub float (Bag.weights_sum st)
       (Bag.get_priority_weight priority_weight (Bag.budget it)))
    (Bag.ordered_items st) (delete key (Bag.item_lookup_dict st)).

(** The state after the insertion in [put], before the capacity check. *)
Definition inserted (item : nat) (it : Bag.Item) (st : Bag.State)
  : Bag.State :=
  Bag.mkState (Bag.heap st) (Bag.item_type st) (Bag.capacity st)
    (Bag.item_keys st ++ [Bag.key it])
    (Bag.weights st
     ++ [Bag.get_priority_weight priority_weight (Bag.budget it)])
    (Py.fadd float (Bag.weights_sum st)
       (Bag.get_priority_weight priority_weight (Bag.budget it)))
    (Bag.insert_object item (Bag.priority (Bag.budget it))
       (Bag.ordered_items st))
    (<[Bag.key it := item]> (Bag.item_lookup_dict st)).

(** The item after [set_priority]. *)
Definition with_priority (it : Bag.Item) (new_priority : Q) : Bag.Item :=
  Bag.mkItem (Bag.key it) (Bag.object_type it)
    (Bag.set_priority (Bag.budget it) new_priority).

(** The state [change_priority] leaves when the key names the item [it] at
    address [a]. *)
Definition reprioritised (key : string) (a : nat) (it : Bag.Item)
    (new_priority : Q) (st : Bag.State) : Bag.State :=
  let it' := with_priority it new_priority in
  Bag.mkState (<[a := it']> (Bag.heap st)) (Bag.item_type st)
    (Bag.capacity st) (Bag.item_keys st)
    (Bag.np_assign (Bag.weights st)
       (Bag.np_where (Bag.item_keys st) key)
       (Bag.get_priority_weight priority_weight (Bag.budget it')))
    (Py.fadd float
       (Py.fsub float (Bag.weights_sum st)
          (Bag.get_priority_weight priority_weight (Bag.budget it)))
       (Bag.get_priority_weight priority_weight (Bag.budget it')))
    (Bag.ordered_items st) (Bag.item_lookup_dict st).

(** The stored sum against the arithmetic sum of the weight vector. *)
Definition drift (st : Bag.State) : Q :=
  Qabs (Bag.weights_sum st - Bag.sum (Bag.weights st)).

End BagVocabulary.

(** ** Rounding *)

(** Half the distance between 1 and the next double, half the least
    positive double, and the largest double. *)
Definition unit_roundoff : Q := 2 ^ (-53).
Definition half_least_double : Q := 2 ^ (-1075).
Definition max_double : Q := (2 ^ 53 - 1) * 2 ^ 971.

(** Additions and subtractions whose exact result is at most [M] in
    magnitude round within a relative error [u] and an absolute error
    [eta] of it. *)
Record rounds_within (float : Py.FloatOps) (u eta M : Q) : Prop :=
  mkRoundsWithin {
  roundoff_nonneg : 0 <= u;
  least_nonneg : 0 <= eta;
  fadd_error : forall a b,
    Qabs (a + b) <= M ->
    Qabs (Py.fadd float a b - (a + b)) <= u * Qabs (a + b) + eta;
  fsub_error : forall a b,
    Qabs (a - b) <= M ->
    Qabs (Py.fsub float a b - (a - b)) <= u * Qabs (a - b) + eta
}.

(** What [k] rounded operations on sums of magnitude at most [B] can make
    a running sum differ from the exact one. *)
Definition drift_bound (u eta B : Q) (k : nat) : Q :=
  inject_Z (Z.of_nat k) * (u * B + eta) * (1 + u) ^ Z.of_nat k.

(** ** Ranges of truth values *)

(** Frequency and confidence both lie in [0, 1]. *)
Definition in_unit_interval (t : TruthValue) : Prop :=
  0 <= frequency t <= 1 /\ 0 <= confidence t <= 1.

(** * Concrete inputs *)

(** A state with no interned term in which the next object gets address
    [n], the next stamp id [n], at cycle [cycle]. *)
Definition world_at (n : nat) (cycle : Z) : World :=
  mkWorld ∅ n n cycle [] ∅.

(** An input sentence with stamp id [i]: it is its own evidence. *)
Definition input_stamp (i : nat) (occurrence_time : option Z) : Stamp :=
  mkStamp i occurrence_time [i] false false None [].

Definition input_judgment (i : nat) (statement : Term) (f c : Q)
    (occurrence_time : option Z) : Sentence :=
  mkSentence Judgment statement (Some (mkTruthValue f c))
    (input_stamp i occurrence_time).

Definition input_question (i : nat) (statement : Term) : Sentence :=
  mkSentence Question statement None (input_stamp i None).

Definition atom (a : nat) (name : string) : Term := AtomicTerm a name.

(** [(s c p)] for an asymmetric copula. *)
Definition statement_at (a : nat) (s : Term) (c : Copula) (p : Term) : Term :=
  StatementTerm a (statement_string c s p) [s; p] (Some c) None.

(** [(M --> P)], [(S --> M)], [(M <-> S)] and [(S --> P)]. *)
Definition M_inh_P : Term :=
  statement_at 2 (atom 0 "M") Inheritance (atom 1 "P").

Definition S_inh_M : Term :=
  statement_at 4 (atom 3 "S") Inheritance (atom 0 "M").

Definition M_sim_S : Term :=
  statement_at 5 (atom 0 "M") Similarity (atom 3 "S").

Definition S_inh_P : Term :=
  statement_at 6 (atom 3 "S") Inheritance (atom 1 "P").

(** [(A ==> B)], [(B ==> C)] and [(A ==> C)]. *)
Definition A_imp_B : Term :=
  statement_at 2 (atom 0 "A") Implication (atom 1 "B").

Definition B_imp_C : Term :=
  statement_at 4 (atom 1 "B") Implication (atom 3 "C").

Definition A_imp_C : Term :=
  statement_at 5 (atom 0 "A") Implication (atom 3 "C").

(** [(A --> B)] *)
Definition A_inh_B : Term :=
  statement_at 2 (atom 0 "A") Inheritance (atom 1 "B").

(** The product of [A] and [B] inherits from [R]: a statement the
    extensional image applies to. *)
Definition product_A_B : Term :=
  CompoundTerm 2 "(*,A,B)" [atom 0 "A"; atom 1 "B"] (Some Product).

Definition product_inh_R : Term :=
  statement_at 4 product_A_B Inheritance (atom 3 "R").

(** The placeholder term [_]. *)
Definition placeholder : Term := atom 5 "_".

(** The composition rules of [NALInferenceRules.py] under the names the
    dispatcher calls. *)
Definition dispatch (k : Q) : Sentence -> Sentence -> Interp (list Sentence) :=
  InferenceEngine.do_inference_two_premise k
    (Rules.IntensionalIntersectionOrDisjunction)
    (Rules.ExtensionalIntersectionOrConjunction)
    (Rules.ExtensionalDifference).

(** A projection that leaves the value as it is. *)
Definition Value_Projection_identity (j : Sentence) (t : Z)
  : Interp TruthValue :=
  match value j with
  | Some v => mret v
  | None => raise Py.AttributeError
  end.

(** Two items, [a] of priority 1/5 at address 0 and [b] of priority 9/10 at
    address 1, and a bag of capacity 1 that holds [a]; the weight is the
    priority. *)
Definition two_items : gmap nat Bag.Item :=
  <[0%nat := Bag.mkItem "a" "Task" (Bag.mkBudget (1 # 5) (1 # 2) (1 # 2))]>
    (<[1%nat := Bag.mkItem "b" "Task" (Bag.mkBudget (9 # 10) (1 # 2) (1 # 2))]>
       ∅).

Definition bag_holding_a : Bag.State :=
  snd (Bag.put (fun p => p) Py.binary64 0 (Bag.new_Bag two_items "Task" 1)).

(** The doubles nearest to 0.2 and 0.9, two items with these priorities
    at the addresses 0 and 1, and the bag of capacity 1 after [a] and then
    [b] were put (which evicts [a]), the weight being the clamped
    priority. *)
Definition double_0_2 : Q := 3602879701896397 # 18014398509481984.

Definition double_0_9 : Q := 8106479329266893 # 9007199254740992.

Definition float_items : gmap nat Bag.Item :=
  <[0%nat := Bag.mkItem "a" "Task" (Bag.mkBudget double_0_2 (1 # 2) (1 # 2))]>
    (<[1%nat := Bag.mkItem "b" "Task"
                  (Bag.mkBudget double_0_9 (1 # 2) (1 # 2))]> ∅).

Definition bag_after_two_puts : Bag.State :=
  Bag.run Bag.clamp Py.binary64 false [Bag.Put 0; Bag.Put 1]
    (Bag.new_Bag float_items "Task" 1).

(** The terms built from ["(A<->B)"] and then from ["(B<->A)"]. *)
Definition similarity_parsed_twice : Py.Result (Term * Term) :=
  fst ((x ← Term.from_string "(A<->B)";
        y ← Term.from_string "(B<->A)";
        mret (x, y)) initial_world).

(** [(B --> A)] and [(C --> D)]. *)
Definition B_inh_A : Term :=
  statement_at 5 (atom 1 "B") Inheritance (atom 0 "A").

Definition C_inh_D : Term :=
  statement_at 6 (atom 3 "C") Inheritance (atom 4 "D").

(** [R] inherits from the product of [A] and [B]: a statement the
    intensional image applies to. *)
Definition R_inh_product : Term :=
  statement_at 4 (atom 3 "R") Inheritance product_A_B.

(** The state after ["A"] was interned in the initial state. *)
Definition world_with_A : World :=
  mkWorld (<["A" := AtomicTerm 0 "A"]> ∅) 1 0 0 [] ∅.

(** Three items, [a] of priority 1/5, [b] of priority 9/10 and [c] of
    priority 1/2 at the addresses 0, 1 and 2; the bag of capacity 1 after
    [a] was put and taken and [b] was put: it holds [b], the ordered queue
    still has the entry of [a]. *)
Definition three_items : gmap nat Bag.Item :=
  <[2%nat := Bag.mkItem "c" "Task" (Bag.mkBudget (1 # 2) (1 # 2) (1 # 2))]>
    two_items.

Definition bag_after_take : Bag.State :=
  snd (Bag.put (fun p => p) Py.binary64 1
         (snd (Bag.take_using_key (fun p => p) Py.binary64 "a"
                 (snd (Bag.put (fun p => p) Py.binary64 0
                         (Bag.new_Bag three_items "Task" 1)))))).

(** A bag of capacity 2 that holds [a] and [b], the weight being the
    square of the priority. *)
Definition bag_holding_a_b : Bag.State :=
  snd (Bag.put (fun p => p * p) Py.binary64 1
         (snd (Bag.put (fun p => p * p) Py.binary64 0
                 (Bag.new_Bag two_items "Task" 2)))).

(** A sampler that returns the first of the keys it is given. *)
Definition first_key (keys : list string) (p : list Q) : Py.Result string :=
  match keys with
  | key :: _ => Py.Ok key
  | [] => Py.Raise Py.IndexError
  end.

(** * Properties *)

(** ** Numbers *)

Lemma Qeq_bool_false_iff (a b : Q) : Qeq_bool a b = false <-> ~ a == b.
Proof.
  split.
  - intros H E. apply Qeq_bool_iff in E. congruence.
  - intros H. destruct (Qeq_bool a b) eqn:E; [|reflexivity].
    apply Qeq_bool_iff in E. contradiction.
Qed.

Lemma div_ok (a b : Q) : ~ b == 0 -> Py.div a b = Py.Ok (a / b).
Proof.
  intros H. unfold Py.div. apply Qeq_bool_false_iff in H. now rewrite H.
Qed.

Lemma div_by_zero (a b : Q) :
  b == 0 -> Py.div a b = Py.Raise Py.ZeroDivisionError.
Proof. intros H. unfold Py.div. apply Qeq_bool_iff in H. now rewrite H. Qed.

Lemma lt_true_iff (a b : Q) : Py.lt a b = true <-> a < b.
Proof.
  unfold Py.lt. rewrite negb_true_iff. split.
  - intros H. apply Qnot_le_lt. intros L. apply Qle_bool_iff in L. congruence.
  - intros H. destruct (Qle_bool b a) eqn:E; [|reflexivity].
    apply Qle_bool_iff in E. apply Qlt_not_le in H. contradiction.
Qed.

(** *** Rounding to a double *)

Lemma lt_false_iff (a b : Q) : Py.lt a b = false <-> b <= a.
Proof.
  unfold Py.lt. rewrite negb_false_iff. apply Qle_bool_iff.
Qed.

Lemma round_error (y : Q) : Qabs (inject_Z (Py.round y) - y) <= 1 # 2.
Proof.
  unfold Py.round.
  pose proof (Qfloor_le y) as Hl. pose proof (Qlt_floor y) as Hu.
  rewrite inject_Z_plus in Hu. change (inject_Z 1) with 1 in Hu.
  set (n := Qfloor y) in *.
  apply Qabs_Qle_condition.
  destruct (Py.lt (y - inject_Z n) (1 # 2)) eqn:E1.
  - apply lt_true_iff in E1. split; lra.
  - apply lt_false_iff in E1.
    destruct (Py.lt (1 # 2) (y - inject_Z n)) eqn:E2.
    + rewrite inject_Z_plus. change (inject_Z 1) with 1. split; lra.
    + apply lt_false_iff in E2. destruct (Z.even n).
      * split; lra.
      * rewrite inject_Z_plus. change (inject_Z 1) with 1. split; lra.
Qed.

Lemma pow2_pos (z : Z) : 0 < 2 ^ z.
Proof. apply Qpower_0_lt. reflexivity. Qed.

(** A positive rational is at least the power of two below the quotient of
    the leading powers of its numerator and denominator. *)
Lemma log2_lower (a : Q) :
  0 < a ->
  2 ^ (Z.log2 (Qnum a) - Z.log2 (Zpos (Qden a)) - 1) <= a.
Proof.
  intros Ha. destruct a as [n d]. simpl Qnum. simpl Qden.
  assert (0 < n)%Z as Hn by (unfold Qlt in Ha; simpl in Ha; lia).
  destruct (Z.log2_spec n Hn) as [Hn1 _].
  destruct (Z.log2_spec (Zpos d) (Pos2Z.is_pos d)) as [_ Hd2].
  set (ln := Z.log2 n) in *. set (ld := Z.log2 (Zpos d)) in *.
  assert (0 <= ln)%Z as Hln by apply Z.log2_nonneg.
  assert (0 <= ld)%Z as Hld by apply Z.log2_nonneg.
  replace (ln - ld - 1)%Z with (ln - (ld + 1))%Z by lia.
  rewrite Qpower_minus by discriminate.
  rewrite (Qmake_Qdiv n d).
  assert (2 ^ ln <= inject_Z n) as B1.
  { change 2 with (inject_Z 2). rewrite <- Zpower_Qpower by assumption.
    rewrite <- Zle_Qle. exact Hn1. }
  assert (inject_Z (Zpos d) <= 2 ^ (ld + 1)) as B2.
  { change 2 with (inject_Z 2). rewrite <- Zpower_Qpower by lia.
    rewrite <- Zle_Qle. unfold Z.succ in Hd2. lia. }
  assert (0 < inject_Z (Zpos d)) as B3.
  { change 0 with (inject_Z 0). rewrite <- Zlt_Qlt. lia. }
  pose proof (pow2_pos ln) as B4. pose proof (pow2_pos (ld + 1)) as B5.
  apply Qle_shift_div_r; [exact B5|].
  set (q := inject_Z n / inject_Z (Zpos d)).
  assert (q * inject_Z (Zpos d) == inject_Z n) as Hq.
  { unfold q. field. lra. }
  assert (0 <= q) as Hq0.
  { unfold q. apply Qle_shift_div_l; lra. }
  nra.
Qed.

Lemma pow2_pred (z : Z) : 2 ^ (z - 1) == (1 # 2) * 2 ^ z.
Proof.
  rewrite Qpower_minus by discriminate. rewrite Qpower_1_r.
  unfold Qdiv. change (/ 2) with (1 # 2). ring.
Qed.

(** The scale [float_round] picks leaves at least 53 bits, unless it is the
    scale of the subnormal doubles. *)
Lemma scale_bound (a : Q) :
  0 < a ->
  let e0 := (Z.log2 (Qnum a) - Z.log2 (Zpos (Qden a)) - 52)%Z in
  let e1 := if Py.lt (a / 2 ^ e0) (2 ^ 52) then (e0 - 1)%Z else e0 in
  2 ^ Z.max e1 (-1074) <= 2 ^ (-52) * a + 2 ^ (-1074).
Proof.
  intros Ha e0 e1.
  pose proof (pow2_pos (-52)) as H52. pose proof (pow2_pos (-1074)) as Hm.
  destruct (Z.max_spec e1 (-1074)) as [[_ ->]|[_ ->]]; [nra|].
  assert (2 ^ 52 * 2 ^ e1 <= a) as Hs.
  { unfold e1. pose proof (pow2_pos e0) as P0.
    destruct (Py.lt (a / 2 ^ e0) (2 ^ 52)) eqn:E.
    - rewrite pow2_pred.
      pose proof (log2_lower a Ha) as L.
      replace (Z.log2 (Qnum a) - Z.log2 (Z.pos (Qden a)) - 1)%Z
        with (e0 + 51)%Z in L by (unfold e0; lia).
      rewrite Qpower_plus in L by discriminate.
      assert (2 ^ 52 == 2 * 2 ^ 51) as -> by reflexivity.
      nra.
    - apply lt_false_iff in E.
      assert (a / 2 ^ e0 * 2 ^ e0 == a) as Hq by (field; lra).
      rewrite <- Hq. apply Qmult_le_compat_r; lra. }
  assert (2 ^ (-52) * 2 ^ 52 == 1) as Hone by reflexivity.
  pose proof (pow2_pos e1) as P1.
  assert (2 ^ e1 == 2 ^ (-52) * (2 ^ 52 * 2 ^ e1)) as ->.
  { rewrite Qmult_assoc, Hone. ring. }
  assert (2 ^ (-52) * (2 ^ 52 * 2 ^ e1) <= 2 ^ (-52) * a).
  { apply Qmult_le_l; assumption. }
  lra.
Qed.

Lemma float_round_error (x : Q) :
  Qabs (Py.float_round x - x)
  <= unit_roundoff * Qabs x + half_least_double.
Proof.
  unfold Py.float_round, unit_roundoff, half_least_double.
  pose proof (pow2_pos (-1075)) as Hh.
  pose proof (pow2_pos (-53)) as Hu.
  pose proof (Qabs_nonneg x) as Ha0.
  destruct (Qeq_bool x 0) eqn:E0.
  - apply Qeq_bool_iff in E0.
    assert (Qabs (0 - x) == 0) as -> by (rewrite E0; reflexivity).
    nra.
  - assert (0 < Qabs x) as Ha.
    { destruct (Qlt_le_dec 0 (Qabs x)) as [H|H]; [exact H|].
      exfalso. apply Qabs_Qle_condition in H.
      assert (x == 0) as C by lra. apply Qeq_bool_iff in C. congruence. }
    set (a := Qabs x) in *.
    pose proof (scale_bound a Ha) as Hs. cbv zeta in Hs.
    set (e := Z.max _ (-1074)) in *.
    pose proof (pow2_pos e) as Pe.
    set (m := Py.round (a / 2 ^ e)).
    pose proof (round_error (a / 2 ^ e)) as Hr. fold m in Hr.
    assert (Qabs (inject_Z m * 2 ^ e - a) <= (1 # 2) * 2 ^ e) as Hm.
    { assert (inject_Z m * 2 ^ e - a
              == (inject_Z m - a / 2 ^ e) * 2 ^ e) as -> by (field; lra).
      rewrite Qabs_Qmult. rewrite (Qabs_pos (2 ^ e)) by lra.
      apply Qmult_le_compat_r; lra. }
    assert ((1 # 2) * 2 ^ e <= 2 ^ (-53) * a + 2 ^ (-1075)) as Hb.
    { replace (-53)%Z with (-52 - 1)%Z by reflexivity.
      replace (-1075)%Z with (-1074 - 1)%Z by reflexivity.
      rewrite !pow2_pred. lra. }
    destruct (Py.lt x 0) eqn:Es.
    + apply lt_true_iff in Es.
      assert (- (inject_Z m * 2 ^ e) - x == - (inject_Z m * 2 ^ e - a)) as ->.
      { unfold a. rewrite Qabs_neg by lra. ring. }
      rewrite Qabs_opp. lra.
    + apply lt_false_iff in Es.
      assert (inject_Z m * 2 ^ e - x == inject_Z m * 2 ^ e - a) as ->.
      { unfold a. rewrite Qabs_pos by lra. ring. }
      lra.
Qed.

(** The additions and subtractions of Python round within the unit
    roundoff of the exact result, up to half the least double, as long as
    the result is in the range of the doubles. *)
Lemma binary64_rounds :
  rounds_within Py.binary64 unit_roundoff half_least_double max_double.
Proof.
  constructor.
  - apply Qlt_le_weak, pow2_pos.
  - apply Qlt_le_weak, pow2_pos.
  - intros a b _. apply float_round_error.
  - intros a b _. apply float_round_error.
Qed.

Lemma Copula_eqb_eq (a b : Copula) : Copula.eqb a b = true <-> a = b.
Proof.
  split; [|intros ->; destruct b; reflexivity].
  destruct a, b; intros H; try reflexivity; discriminate H.
Qed.

(** ** Truth-value functions *)

Lemma band2 (a b : Q) : band [a; b] == a * b.
Proof. unfold band; simpl. ring. Qed.

Lemma F_Difference_confidence (f1 c1 f2 c2 : Q) :
  confidence (F_Difference f1 c1 f2 c2) == c1 * c2.
Proof. unfold F_Difference; simpl. apply band2. Qed.

(** The frequency [F_Difference] returns: [f1] when [f2] is zero, zero
    otherwise. *)
Lemma F_Difference_frequency (f1 c1 f2 c2 : Q) :
  frequency (F_Difference f1 c1 f2 c2) == (if Qeq_bool f2 0 then f1 else 0).
Proof.
  unfold F_Difference; simpl. rewrite band2. unfold Py.not_.
  destruct (Qeq_bool f2 0); ring.
Qed.

(** C1. At the operands (1, 9/10) and (1/2, 9/10) the Difference
    truth-value function returns the frequency 0, not f1·(1−f2) = 1/2; the
    confidence is c1·c2. *)
Theorem F_Difference_frequency_at_half :
  let r := F_Difference 1 (9 # 10) (1 # 2) (9 # 10) in
  frequency r == 0 /\ ~ frequency r == 1 * (1 - (1 # 2))
  /\ confidence r == (9 # 10) * (9 # 10).
Proof.
  cbv zeta. rewrite F_Difference_frequency, F_Difference_confidence.
  simpl. split; [reflexivity|]. split; [|reflexivity].
  intros H. vm_compute in H. discriminate.
Qed.

(** Projection to the belief's own time divides zero by zero when the
    current cycle is that time. *)
Lemma F_Projection_own_time_raises (f c : Q) (t : Z) :
  F_Projection t f c t t = Py.Raise Py.ZeroDivisionError.
Proof.
  unfold F_Projection. rewrite div_by_zero; [reflexivity|].
  rewrite Z.sub_diag. reflexivity.
Qed.

(** At any other cycle it returns the value as it is. *)
Lemma F_Projection_own_time_identity (T_c : Z) (f c : Q) (t : Z) :
  T_c <> t ->
  exists r, F_Projection T_c f c t t = Py.Ok r
            /\ frequency r = f /\ confidence r == c.
Proof.
  intros H. unfold F_Projection.
  rewrite div_ok.
  - eexists; split; [reflexivity|]. simpl. split; [reflexivity|].
    rewrite Z.sub_diag. simpl. unfold Qdiv. rewrite Qmult_0_l. ring.
  - intros E.
    assert (0 < Z.abs (t - T_c) + Z.abs (t - T_c))%Z as P by lia.
    assert (inject_Z 0 < inject_Z (Z.abs (t - T_c) + Z.abs (t - T_c))) as P'
      by (rewrite <- Zlt_Qlt; exact P).
    rewrite E in P'. revert P'. apply Qlt_irrefl.
Qed.

Section RevisionTruth.

Variable k : Q.

Lemma get_evidence_ok (f c : Q) :
  c < 1 ->
  get_evidence_fromfreqconf k f c
  = Py.Ok (k * f * c / (1 - c), k * c / (1 - c),
           k * c / (1 - c) - k * f * c / (1 - c)).
Proof.
  intros H. unfold get_evidence_fromfreqconf.
  rewrite !div_ok by lra. reflexivity.
Qed.

Lemma div_proper (a b a' b' : Q) :
  a == a' -> b == b' ->
  match Py.div a b, Py.div a' b' with
  | Py.Ok x, Py.Ok y => x == y
  | Py.Raise e1, Py.Raise e2 => e1 = e2
  | _, _ => False
  end.
Proof.
  intros Ha Hb. unfold Py.div.
  destruct (Qeq_bool b 0) eqn:E; destruct (Qeq_bool b' 0) eqn:E'.
  - reflexivity.
  - apply Qeq_bool_iff in E. apply Qeq_bool_false_iff in E'.
    rewrite <- Hb in E'. contradiction.
  - apply Qeq_bool_iff in E'. apply Qeq_bool_false_iff in E.
    rewrite Hb in E. contradiction.
  - rewrite Ha, Hb. reflexivity.
Qed.

Lemma get_truthvalue_from_evidence_proper (wp w wp' w' : Q) :
  wp == wp' -> w == w' ->
  match get_truthvalue_from_evidence k wp w,
        get_truthvalue_from_evidence k wp' w' with
  | Py.Ok (f, c), Py.Ok (f', c') => f == f' /\ c == c'
  | Py.Raise e1, Py.Raise e2 => e1 = e2
  | _, _ => False
  end.
Proof.
  intros Hp Hw.
  unfold get_truthvalue_from_evidence, get_confidence_from_evidence.
  assert (Qeq_bool wp w = Qeq_bool wp' w') as Et.
  { destruct (Qeq_bool wp w) eqn:E; symmetry.
    - apply Qeq_bool_iff in E. apply Qeq_bool_iff. now rewrite <- Hp, <- Hw.
    - apply Qeq_bool_false_iff in E. apply Qeq_bool_false_iff.
      now rewrite <- Hp, <- Hw. }
  rewrite <- Et.
  pose proof (div_proper wp w wp' w' Hp Hw) as D1.
  assert (w + k == w' + k) as Hwk by (now rewrite Hw).
  pose proof (div_proper w (w + k) w' (w' + k) Hw Hwk) as D2.
  destruct (Qeq_bool wp w); simpl.
  - destruct (Py.div w (w + k)), (Py.div w' (w' + k)); simpl; try tauto.
    split; [reflexivity | assumption].
  - destruct (Py.div wp w), (Py.div wp' w'); simpl; try tauto.
    destruct (Py.div w (w + k)), (Py.div w' (w' + k)); simpl; tauto.
Qed.

(** Swapping the two bodies of evidence does not change what [F_Revision]
    returns or raises. *)
Lemma F_Revision_commutative (wp1 wn1 wp2 wn2 : Q) :
  result_eq (F_Revision k wp1 wn1 wp2 wn2) (F_Revision k wp2 wn2 wp1 wn1).
Proof.
  unfold F_Revision, result_eq.
  pose proof (get_truthvalue_from_evidence_proper
                (wp1 + wp2) (wp1 + wp2 + (wn1 + wn2))
                (wp2 + wp1) (wp2 + wp1 + (wn2 + wn1))) as H.
  destruct (get_truthvalue_from_evidence k (wp1 + wp2) _) as [[f c]|e];
    destruct (get_truthvalue_from_evidence k (wp2 + wp1) _) as [[f' c']|e'];
    simpl; unfold tv_eq; simpl; apply H; ring.
Qed.

Hypothesis k_pos : 0 < k.

Lemma F_Revision_ok (wp1 w1 wp2 w2 : Q) :
  0 <= wp1 <= w1 -> 0 <= wp2 <= w2 ->
  exists t, F_Revision k wp1 (w1 - wp1) wp2 (w2 - wp2) = Py.Ok t.
Proof.
  intros H1 H2. unfold F_Revision, get_truthvalue_from_evidence,
    get_confidence_from_evidence.
  set (wp := wp1 + wp2). set (w := wp + (w1 - wp1 + (w2 - wp2))).
  assert (w == w1 + w2) as Hw by (unfold w, wp; ring).
  rewrite (div_ok w (w + k)) by lra.
  destruct (Qeq_bool wp w) eqn:E.
  - simpl. eexists; reflexivity.
  - rewrite div_ok.
    + simpl. eexists; reflexivity.
    + apply Qeq_bool_false_iff in E. intros Z. apply E. unfold wp. lra.
Qed.

Lemma evidence_bounds (f c : Q) :
  0 <= f <= 1 -> 0 <= c < 1 ->
  0 <= k * f * c / (1 - c) <= k * c / (1 - c).
Proof.
  intros Hf Hc.
  assert (0 < / (1 - c)) as Pi by (apply Qinv_lt_0_compat; lra).
  unfold Qdiv. set (i := / (1 - c)) in *.
  assert (0 <= k * c) as Hkc by (apply Qmult_le_0_compat; lra).
  assert (0 <= k * c * i) as Hx by (apply Qmult_le_0_compat; lra).
  assert (k * f * c * i == (k * c * i) * f) as -> by ring.
  split.
  - apply Qmult_le_0_compat; lra.
  - nra.
Qed.

Lemma F_Conversion_ok (f c : Q) :
  0 <= f -> 0 <= c -> exists t, F_Conversion k f c = Py.Ok t.
Proof.
  intros Hf Hc. unfold F_Conversion, get_truthvalue_from_evidence,
    get_confidence_from_evidence.
  assert (0 <= band [f; c]) as Hb.
  { unfold band; simpl. apply Qmult_le_0_compat; lra. }
  rewrite (Qeq_bool_refl (band [f; c])).
  rewrite div_ok by lra. eexists; reflexivity.
Qed.

Lemma F_Contraposition_ok (f c : Q) :
  f <= 1 -> 0 <= c -> exists t, F_Contraposition k f c = Py.Ok t.
Proof.
  intros Hf Hc. unfold F_Contraposition, get_truthvalue_from_evidence,
    get_confidence_from_evidence.
  assert (0 <= band [bnot f; c]) as Hb.
  { unfold band, bnot; simpl. apply Qmult_le_0_compat; lra. }
  rewrite (div_ok _ (band [bnot f; c] + k)) by lra.
  destruct (Qeq_bool 0 (band [bnot f; c])) eqn:E.
  - eexists; reflexivity.
  - rewrite div_ok.
    + eexists; reflexivity.
    + apply Qeq_bool_false_iff in E. intros Z. apply E. now rewrite Z.
Qed.

End RevisionTruth.

(** ** Running the constructors and the rules *)

Ltac interp :=
  unfold mbind, mret, Interp_bind, Interp_ret, Py.Result_bind, Py.Result_ret,
    lift, raise, alloc, fresh_stamp_id in *; simpl in *.

Lemma Statement_run (s p : Term) (c : Copula) (conn : option TermConnector)
    (w : World) :
  conn = None \/ conn = Some Negation ->
  Rules.Statement s p (Some c) conn w
  = (Py.Ok (built_statement (next_addr w) c s p conn), bump_addr w).
Proof.
  intros Hc. unfold Rules.Statement, StatementTerm_, new_StatementTerm,
    built_statement, stored_pair.
  destruct Hc as [-> | ->]; unfold CompoundTerm_init; interp;
    destruct (Copula.is_symmetric c); simpl;
    try destruct (String.ltb (str p) (str s)); reflexivity.
Qed.

Lemma substring_prefix (s r : string) :
  String.substring 0 (String.length s) (s +:+ r) = s.
Proof.
  induction s as [|c s IH]; simpl.
  - destruct r; reflexivity.
  - now rewrite IH.
Qed.

Lemma drop_last_append (s : string) (c : ascii) :
  drop_last (s +:+ string_of_char c) = s.
Proof.
  unfold drop_last, Py.slice.
  replace (String.length (s +:+ string_of_char c) - 1 - 0)%nat
    with (String.length s).
  - apply substring_prefix.
  - induction s as [|d s IH]; simpl in *; [reflexivity|].
    destruct (s +:+ string_of_char c) eqn:E; simpl in *.
    + destruct s; discriminate E.
    + rewrite IH. lia.
Qed.

Lemma append_assoc (a b c : string) : (a +:+ b) +:+ c = a +:+ (b +:+ c).
Proof.
  induction a as [|x a IH]; [reflexivity|].
  change (String x ((a +:+ b) +:+ c) = String x (a +:+ (b +:+ c))).
  now rewrite IH.
Qed.

(** [CompoundTerm([t], Negation)] *)
Lemma CompoundTerm_negation_run (t : Term) (w : World) :
  CompoundTerm_ [t] (Some Negation) w
  = (Py.Ok (negated_term (next_addr w) t), bump_addr w).
Proof.
  unfold CompoundTerm_, new_CompoundTerm, CompoundTerm_init,
    CompoundTerm_get_formatted_string, negated_term. interp.
  rewrite <- (append_assoc
                ("--" +:+ string_of_char StatementSyntax.TermDivider)
                (str t) (string_of_char StatementSyntax.TermDivider)).
  rewrite drop_last_append. reflexivity.
Qed.

Section OnePremiseRules.

Variable k : Q.

Lemma Negation_question_raises (q : Sentence) (a : nat) (st : string)
    (s p : Term) (c : Copula) (conn : option TermConnector) (w : World) :
  type_ q = Question ->
  statement q = StatementTerm a st [s; p] (Some c) conn ->
  Rules.Negation q w = (Py.Raise Py.UnboundLocalError, bump_addr w).
Proof.
  intros Ht Hs.
  unfold Rules.Negation, subject_term, predicate_term, get_copula.
  rewrite Hs, Ht. interp.
  rewrite Statement_run by (right; reflexivity). reflexivity.
Qed.

(** Whatever the statement of a question looks like, [Negation] does not
    return. *)
Lemma Negation_question_never_returns (q : Sentence) (w : World) :
  type_ q = Question -> Py.is_ok (fst (Rules.Negation q w)) = false.
Proof.
  intros Ht. unfold Rules.Negation. rewrite Ht.
  unfold subject_term, predicate_term. interp.
  destruct (get_subject_term (statement q)) as [s|e]; [|reflexivity].
  destruct (get_predicate_term (statement q)) as [p|e]; [|reflexivity].
  destruct (Rules.Statement s p (get_copula q) (Some Negation) w)
    as [[r|e] w3]; reflexivity.
Qed.

Lemma Conversion_question_run (q : Sentence) (a : nat) (st : string)
    (s p : Term) (c : Copula) (conn : option TermConnector) (w : World) :
  type_ q = Question ->
  statement q = StatementTerm a st [s; p] (Some c) conn ->
  exists r w',
    Rules.Conversion k q w = (Py.Ok r, w') /\ type_ r = Question
    /\ statement r = built_statement (next_addr w) c p s None
    /\ value r = None
    /\ id (stamp r) = next_stamp_id w
    /\ evidential_base (stamp r)
       = list_union [] (evidential_base (stamp q))
    /\ from_conversion (stamp r) = true.
Proof.
  intros Ht Hs.
  unfold Rules.Conversion, subject_term, predicate_term, get_copula.
  rewrite Hs, Ht. interp.
  rewrite Statement_run by (left; reflexivity).
  unfold new_Question, new_Stamp. interp.
  eexists _, _. repeat split; reflexivity.
Qed.

Lemma Contraposition_question_run (q : Sentence) (a : nat) (st : string)
    (s p : Term) (c : Copula) (conn : option TermConnector) (w : World) :
  type_ q = Question ->
  statement q = StatementTerm a st [s; p] (Some c) conn ->
  exists r w',
    Rules.Contraposition k q w = (Py.Ok r, w') /\ type_ r = Question
    /\ statement r
       = built_statement (next_addr w + 2) c
           (negated_term (next_addr w) p)
           (negated_term (next_addr w + 1) s) None
    /\ value r = None
    /\ id (stamp r) = next_stamp_id w
    /\ evidential_base (stamp r)
       = list_union [] (evidential_base (stamp q)).
Proof.
  intros Ht Hs.
  unfold Rules.Contraposition, subject_term, predicate_term, get_copula.
  rewrite Hs, Ht.
  unfold mbind, mret, Interp_bind, Interp_ret, lift, Py.Result_ret.
  cbn [get_predicate_term get_subject_term subterms copula].
  rewrite !CompoundTerm_negation_run.
  rewrite Statement_run by (left; reflexivity).
  unfold new_Question, new_Stamp. interp.
  replace (S (S (next_addr w))) with (next_addr w + 2)%nat by lia.
  replace (S (next_addr w)) with (next_addr w + 1)%nat by lia.
  eexists _, _. repeat split; reflexivity.
Qed.

(** C10. For every question, [Negation] builds no result: it raises where
    it reads the unbound name.  [Conversion] and [Contraposition] each
    return a new question, with no value and a fresh stamp that carries the
    evidential base of the input: the question of [Conversion] is about the
    converse statement, that of [Contraposition] about the statement from
    the negated predicate to the negated subject. *)
Theorem Negation_fails_on_questions (q : Sentence) (a : nat) (st : string)
    (s p : Term) (c : Copula) (conn : option TermConnector) (w : World) :
  type_ q = Question ->
  statement q = StatementTerm a st [s; p] (Some c) conn ->
  fst (Rules.Negation q w) = Py.Raise Py.UnboundLocalError
  /\ (exists r w',
        Rules.Conversion k q w = (Py.Ok r, w') /\ type_ r = Question
        /\ statement r = built_statement (next_addr w) c p s None
        /\ value r = None
        /\ id (stamp r) = next_stamp_id w
        /\ evidential_base (stamp r)
           = list_union [] (evidential_base (stamp q))
        /\ from_conversion (stamp r) = true)
  /\ (exists r w',
        Rules.Contraposition k q w = (Py.Ok r, w') /\ type_ r = Question
        /\ statement r
           = built_statement (next_addr w + 2) c
               (negated_term (next_addr w) p)
               (negated_term (next_addr w + 1) s) None
        /\ value r = None
        /\ id (stamp r) = next_stamp_id w
        /\ evidential_base (stamp r)
           = list_union [] (evidential_base (stamp q))).
Proof.
  intros Ht Hs. split; [|split].
  - now rewrite (Negation_question_raises q a st s p c conn w Ht Hs).
  - apply (Conversion_question_run q a st s p c conn w Ht Hs).
  - apply (Contraposition_question_run q a st s p c conn w Ht Hs).
Qed.

Hypothesis k_pos : 0 < k.

(** A rule that ran left the printed lines as they were. *)
Lemma Negation_judgment_run (j : Sentence) (a : nat) (st : string)
    (s p : Term) (c : Copula) (conn : option TermConnector)
    (tv : TruthValue) (w : World) :
  type_ j = Judgment ->
  statement j = StatementTerm a st [s; p] (Some c) conn ->
  value j = Some tv ->
  exists r w',
    Rules.Negation j w = (Py.Ok r, w') /\ stdout w' = stdout w
    /\ type_ r = Judgment
    /\ value r = Some (F_Negation (frequency tv) (confidence tv))
    /\ occurrence_time (stamp r) = occurrence_time (stamp j).
Proof.
  intros Ht Hs Hv.
  unfold Rules.Negation, subject_term, predicate_term, get_copula,
    getevidentialvalues_fromsentence.
  rewrite Hs, Ht, Hv. interp.
  rewrite Statement_run by (right; reflexivity).
  unfold new_Judgment, new_Stamp. interp.
  eexists _, _. repeat split; reflexivity.
Qed.

Lemma Conversion_judgment_run (j : Sentence) (a : nat) (st : string)
    (s p : Term) (c : Copula) (conn : option TermConnector)
    (tv : TruthValue) (w : World) :
  type_ j = Judgment ->
  statement j = StatementTerm a st [s; p] (Some c) conn ->
  value j = Some tv ->
  0 <= frequency tv -> 0 <= confidence tv ->
  exists r w',
    Rules.Conversion k j w = (Py.Ok r, w') /\ stdout w' = stdout w
    /\ type_ r = Judgment
    /\ statement r = built_statement (next_addr w) c p s None.
Proof.
  intros Ht Hs Hv Hf Hc.
  unfold Rules.Conversion, subject_term, predicate_term, get_copula,
    getevidentialvalues_fromsentence.
  rewrite Hs, Ht, Hv. interp.
  rewrite Statement_run by (left; reflexivity).
  destruct (F_Conversion_ok k k_pos _ _ Hf Hc) as [t ->].
  unfold new_Judgment, new_Stamp. interp.
  eexists _, _. repeat split; reflexivity.
Qed.

Lemma Contraposition_judgment_run (j : Sentence) (a : nat) (st : string)
    (s p : Term) (c : Copula) (conn : option TermConnector)
    (tv : TruthValue) (w : World) :
  type_ j = Judgment ->
  statement j = StatementTerm a st [s; p] (Some c) conn ->
  value j = Some tv ->
  frequency tv <= 1 -> 0 <= confidence tv ->
  exists r w',
    Rules.Contraposition k j w = (Py.Ok r, w') /\ stdout w' = stdout w
    /\ type_ r = Judgment.
Proof.
  intros Ht Hs Hv Hf Hc.
  unfold Rules.Contraposition, subject_term, predicate_term, get_copula,
    getevidentialvalues_fromsentence.
  rewrite Hs, Ht, Hv. interp.
  rewrite Statement_run by (left; reflexivity).
  destruct (F_Contraposition_ok k k_pos _ _ Hf Hc) as [t ->].
  unfold new_Judgment, new_Stamp. interp.
  eexists _, _. repeat split; reflexivity.
Qed.

(** The one-premise step as the sequence of its rule applications. *)
Lemma do_inference_one_premise_steps (j : Sentence) (a : nat) (st : string)
    (s p : Term) (c : Copula) (conn : option TermConnector)
    (tv : TruthValue) (w : World) :
  type_ j = Judgment ->
  statement j = StatementTerm a st [s; p] (Some c) conn ->
  value j = Some tv ->
  0 <= frequency tv <= 1 -> 0 <= confidence tv ->
  exists negated w0 conversions w1 contrapositions w2,
    Rules.Negation j w = (Py.Ok negated, w0)
    /\ applied (applies_Conversion c (frequency tv)) (Rules.Conversion k j)
         "Conversion" (printed "Negation" w0) conversions w1
    /\ applied (applies_Contraposition c (frequency tv))
         (Rules.Contraposition k j) "Contraposition" w1 contrapositions w2
    /\ InferenceEngine.do_inference_one_premise k j w
       = (Py.Ok (negated :: conversions ++ contrapositions), w2)
    /\ stdout w2 = stdout w ++ one_premise_rules c (frequency tv)
    /\ length (negated :: conversions ++ contrapositions)
       = length (one_premise_rules c (frequency tv)).
Proof.
  intros Ht Hs Hv [Hf0 Hf1] Hc.
  unfold InferenceEngine.do_inference_one_premise. rewrite Ht.
  unfold InferenceEngine.derive, InferenceEngine.print_inference_rule,
    getevidentialvalues_fromsentence, get_copula,
    InferenceEngine.is_symmetric, InferenceEngine.option_Copula_eqb.
  rewrite Hv, Hs. unfold copula.
  unfold one_premise_rules, applied, printed, print. cbn [snd].
  unfold applies_Conversion, applies_Contraposition.
  unfold mbind, mret, Interp_bind, Interp_ret.
  destruct (Negation_judgment_run j a st s p c conn tv w Ht Hs Hv)
    as (r1 & w1 & E1 & S1 & _).
  exists r1, w1. rewrite E1. cbv beta iota.
  destruct (negb (Copula.is_symmetric c) && Py.lt 0 (frequency tv));
    destruct (Copula.eqb c Implication && Py.lt (frequency tv) 1);
    cbv beta iota.
  - match goal with |- context [Rules.Conversion k j ?w0] =>
      destruct (Conversion_judgment_run j a st s p c conn tv w0
                  Ht Hs Hv Hf0 Hc) as (r2 & w2 & E2 & S2 & _)
    end.
    rewrite E2. cbv beta iota.
    match goal with |- context [Rules.Contraposition k j ?w0] =>
      destruct (Contraposition_judgment_run j a st s p c conn tv w0
                  Ht Hs Hv Hf1 Hc) as (r3 & w3 & E3 & S3 & _)
    end.
    rewrite E3. cbv beta iota.
    exists [r2], (snd (print "Conversion" w2)), [r3],
      (snd (print "Contraposition" w3)).
    split; [reflexivity|].
    split; [exists r2, w2; repeat split; reflexivity|].
    split; [exists r3, w3; split; [exact E3 | split; reflexivity]|].
    split; [reflexivity|]. split; [|reflexivity].
    simpl. rewrite S3. simpl. rewrite S2. simpl. rewrite S1.
    rewrite <- !app_assoc. reflexivity.
  - match goal with |- context [Rules.Conversion k j ?w0] =>
      destruct (Conversion_judgment_run j a st s p c conn tv w0
                  Ht Hs Hv Hf0 Hc) as (r2 & w2 & E2 & S2 & _)
    end.
    rewrite E2. cbv beta iota.
    exists [r2], (snd (print "Conversion" w2)), [],
      (snd (print "Conversion" w2)).
    split; [reflexivity|].
    split; [exists r2, w2; repeat split; reflexivity|].
    split; [split; reflexivity|].
    split; [reflexivity|]. split; [|reflexivity].
    simpl. rewrite S2. simpl. rewrite S1.
    rewrite <- !app_assoc. reflexivity.
  - match goal with |- context [Rules.Contraposition k j ?w0] =>
      destruct (Contraposition_judgment_run j a st s p c conn tv w0
                  Ht Hs Hv Hf1 Hc) as (r3 & w3 & E3 & S3 & _)
    end.
    rewrite E3. cbv beta iota.
    exists [], (snd (print "Negation" w1)), [r3],
      (snd (print "Contraposition" w3)).
    split; [reflexivity|].
    split; [split; reflexivity|].
    split; [exists r3, w3; split; [exact E3 | split; reflexivity]|].
    split; [reflexivity|]. split; [|reflexivity].
    simpl. rewrite S3. simpl. rewrite S1.
    rewrite <- !app_assoc. reflexivity.
  - exists [], (snd (print "Negation" w1)), [], (snd (print "Negation" w1)).
    split; [reflexivity|].
    split; [split; reflexivity|].
    split; [split; reflexivity|].
    split; [reflexivity|]. split; [|reflexivity].
    simpl. rewrite S1. reflexivity.
Qed.

Lemma do_inference_one_premise_run (j : Sentence) (a : nat) (st : string)
    (s p : Term) (c : Copula) (conn : option TermConnector)
    (tv : TruthValue) (w : World) :
  type_ j = Judgment ->
  statement j = StatementTerm a st [s; p] (Some c) conn ->
  value j = Some tv ->
  0 <= frequency tv <= 1 -> 0 <= confidence tv ->
  exists negated w1 derived w',
    Rules.Negation j w = (Py.Ok negated, w1)
    /\ InferenceEngine.do_inference_one_premise k j w = (Py.Ok derived, w')
    /\ hd_error derived = Some negated
    /\ stdout w' = stdout w ++ one_premise_rules c (frequency tv)
    /\ length derived = length (one_premise_rules c (frequency tv)).
Proof.
  intros Ht Hs Hv [Hf0 Hf1] Hc.
  unfold InferenceEngine.do_inference_one_premise. rewrite Ht.
  unfold InferenceEngine.derive, InferenceEngine.print_inference_rule, print,
    getevidentialvalues_fromsentence, get_copula,
    InferenceEngine.is_symmetric, InferenceEngine.option_Copula_eqb.
  rewrite Hv, Hs. unfold copula.
  unfold one_premise_rules, applies_Conversion, applies_Contraposition.
  unfold mbind, mret, Interp_bind, Interp_ret.
  destruct (Negation_judgment_run j a st s p c conn tv w Ht Hs Hv)
    as (r1 & w1 & E1 & S1 & _).
  exists r1, w1. rewrite E1. cbv beta iota.
  destruct (negb (Copula.is_symmetric c) && Py.lt 0 (frequency tv));
    destruct (Copula.eqb c Implication && Py.lt (frequency tv) 1);
    cbv beta iota.
  - match goal with |- context [Rules.Conversion k j ?w0] =>
      destruct (Conversion_judgment_run j a st s p c conn tv w0
                  Ht Hs Hv Hf0 Hc) as (r2 & w2 & E2 & S2 & _)
    end.
    rewrite E2. cbv beta iota.
    match goal with |- context [Rules.Contraposition k j ?w0] =>
      destruct (Contraposition_judgment_run j a st s p c conn tv w0
                  Ht Hs Hv Hf1 Hc) as (r3 & w3 & E3 & S3 & _)
    end.
    rewrite E3. cbv beta iota.
    eexists _, _. split; [reflexivity|]. split; [reflexivity|].
    split; [reflexivity|]. simpl. split; [|reflexivity].
    rewrite S3. simpl. rewrite S2. simpl. rewrite S1.
    rewrite <- !app_assoc. reflexivity.
  - match goal with |- context [Rules.Conversion k j ?w0] =>
      destruct (Conversion_judgment_run j a st s p c conn tv w0
                  Ht Hs Hv Hf0 Hc) as (r2 & w2 & E2 & S2 & _)
    end.
    rewrite E2. cbv beta iota.
    eexists _, _. split; [reflexivity|]. split; [reflexivity|].
    split; [reflexivity|]. simpl. split; [|reflexivity].
    rewrite S2. simpl. rewrite S1.
    rewrite <- !app_assoc. reflexivity.
  - match goal with |- context [Rules.Contraposition k j ?w0] =>
      destruct (Contraposition_judgment_run j a st s p c conn tv w0
                  Ht Hs Hv Hf1 Hc) as (r3 & w3 & E3 & S3 & _)
    end.
    rewrite E3. cbv beta iota.
    eexists _, _. split; [reflexivity|]. split; [reflexivity|].
    split; [reflexivity|]. simpl. split; [|reflexivity].
    rewrite S3. simpl. rewrite S1.
    rewrite <- !app_assoc. reflexivity.
  - eexists _, _. split; [reflexivity|]. split; [reflexivity|].
    split; [reflexivity|]. simpl. split; [|reflexivity].
    rewrite S1. reflexivity.
Qed.

End OnePremiseRules.

Lemma Negation_fails_on_questions_witness :
  fst (Rules.Negation (input_question 7 A_inh_B) (world_at 10 0))
  = Py.Raise Py.UnboundLocalError
  /\ (exists r w',
        Rules.Conversion 1 (input_question 7 A_inh_B) (world_at 10 0)
        = (Py.Ok r, w')
        /\ type_ r = Question /\ str (statement r) = "(B --> A)"
        /\ value r = None)
  /\ (exists r w',
        Rules.Contraposition 1 (input_question 7 A_inh_B) (world_at 10 0)
        = (Py.Ok r, w')
        /\ type_ r = Question
        /\ str (statement r) = "((--,B) --> (--,A))"
        /\ value r = None).
Proof.
  destruct (Negation_fails_on_questions 1 (input_question 7 A_inh_B) 2
              (statement_string Inheritance (atom 0 "A") (atom 1 "B"))
              (atom 0 "A") (atom 1 "B") Inheritance None (world_at 10 0)
              eq_refl eq_refl)
    as (N & (r1 & w1 & E1 & T1 & S1 & V1 & _)
          & (r2 & w2 & E2 & T2 & S2 & V2 & _)).
  split; [exact N|]. split.
  - exists r1, w1. rewrite S1. repeat split; assumption || reflexivity.
  - exists r2, w2. rewrite S2. repeat split; assumption || reflexivity.
Defined.

(** Which rules the one-premise step names. *)
Lemma one_premise_rules_spec (c : Copula) (f : Q) :
  In "Negation" (one_premise_rules c f)
  /\ (In "Conversion" (one_premise_rules c f)
      <-> Copula.is_symmetric c = false /\ 0 < f)
  /\ (In "Contraposition" (one_premise_rules c f)
      <-> c = Implication /\ f < 1)
  /\ (forall rule,
        In rule (one_premise_rules c f) ->
        rule = "Negation" \/ rule = "Conversion" \/ rule = "Contraposition").
Proof.
  unfold one_premise_rules, applies_Conversion, applies_Contraposition.
  split; [now left|].
  assert (negb (Copula.is_symmetric c) && Py.lt 0 f = true
          <-> Copula.is_symmetric c = false /\ 0 < f) as Hconv.
  { rewrite andb_true_iff, negb_true_iff, lt_true_iff. tauto. }
  assert (Copula.eqb c Implication && Py.lt f 1 = true
          <-> c = Implication /\ f < 1) as Hcontra.
  { rewrite andb_true_iff, Copula_eqb_eq, lt_true_iff. tauto. }
  destruct (negb (Copula.is_symmetric c) && Py.lt 0 f);
    destruct (Copula.eqb c Implication && Py.lt f 1); simpl;
    (split; [|split]);
    try (split; [intros H; first [apply Hconv | apply Hcontra]; reflexivity
                | intros _; tauto]);
    try (split; [intros H | intros H; first [apply Hconv in H
                                           | apply Hcontra in H];
                              discriminate H]);
    try (intros rule H); intuition (try discriminate; auto).
Qed.

(** C7 (as amended). For every judgment fed to the one-premise step the
    step returns the conclusion of [Negation], followed by the conclusion of
    [Conversion] exactly when the copula is asymmetric and the frequency is
    above 0, followed by the conclusion of [Contraposition] exactly when the
    copula is the implication and the frequency is below 1, each rule run
    from the state the step before it left and its name printed after it;
    no other rule is applied: the list holds nothing else, so no extensional
    or intensional image. *)
Theorem do_inference_one_premise_derives (k : Q) (j : Sentence) (a : nat)
    (st : string) (s p : Term) (c : Copula) (conn : option TermConnector)
    (tv : TruthValue) (w : World) :
  0 < k ->
  type_ j = Judgment ->
  statement j = StatementTerm a st [s; p] (Some c) conn ->
  value j = Some tv ->
  0 <= frequency tv <= 1 -> 0 <= confidence tv ->
  exists negated w0 conversions w1 contrapositions w2 rules,
    Rules.Negation j w = (Py.Ok negated, w0)
    /\ applied (applies_Conversion c (frequency tv)) (Rules.Conversion k j)
         "Conversion" (printed "Negation" w0) conversions w1
    /\ applied (applies_Contraposition c (frequency tv))
         (Rules.Contraposition k j) "Contraposition" w1 contrapositions w2
    /\ InferenceEngine.do_inference_one_premise k j w
       = (Py.Ok (negated :: conversions ++ contrapositions), w2)
    /\ (applies_Conversion c (frequency tv) = true
        <-> Copula.is_symmetric c = false /\ 0 < frequency tv)
    /\ (applies_Contraposition c (frequency tv) = true
        <-> c = Implication /\ frequency tv < 1)
    /\ stdout w2 = stdout w ++ rules
    /\ length (negated :: conversions ++ contrapositions) = length rules
    /\ In "Negation" rules
    /\ (In "Conversion" rules
        <-> Copula.is_symmetric c = false /\ 0 < frequency tv)
    /\ (In "Contraposition" rules <-> c = Implication /\ frequency tv < 1)
    /\ (forall rule,
          In rule rules ->
          rule = "Negation" \/ rule = "Conversion"
          \/ rule = "Contraposition").
Proof.
  intros Hk Ht Hs Hv Hf Hc.
  destruct (do_inference_one_premise_steps k Hk j a st s p c conn tv w
              Ht Hs Hv Hf Hc)
    as (n & w0 & cs & w1 & ps & w2 & E1 & A1 & A2 & E & Hp & Hl).
  exists n, w0, cs, w1, ps, w2, (one_premise_rules c (frequency tv)).
  pose proof (one_premise_rules_spec c (frequency tv)) as (R1 & R2 & R3 & R4).
  split; [exact E1|]. split; [exact A1|]. split; [exact A2|].
  split; [exact E|].
  split.
  { unfold applies_Conversion.
    rewrite andb_true_iff, negb_true_iff, lt_true_iff. tauto. }
  split.
  { unfold applies_Contraposition.
    rewrite andb_true_iff, Copula_eqb_eq, lt_true_iff. tauto. }
  split; [exact Hp|]. split; [exact Hl|]. split; [exact R1|].
  split; [exact R2|]. split; [exact R3 | exact R4].
Qed.

Lemma do_inference_one_premise_derives_witness :
  exists negated w0 converse w1,
    Rules.Negation (input_judgment 7 A_inh_B 1 (9 # 10) None) (world_at 10 0)
    = (Py.Ok negated, w0)
    /\ Rules.Conversion 1 (input_judgment 7 A_inh_B 1 (9 # 10) None)
         (printed "Negation" w0)
       = (Py.Ok converse, w1)
    /\ InferenceEngine.do_inference_one_premise 1
         (input_judgment 7 A_inh_B 1 (9 # 10) None) (world_at 10 0)
       = (Py.Ok [negated; converse], printed "Conversion" w1)
    /\ stdout (printed "Conversion" w1) = ["Negation"; "Conversion"].
Proof.
  destruct (do_inference_one_premise_derives 1
              (input_judgment 7 A_inh_B 1 (9 # 10) None) 2
              (statement_string Inheritance (atom 0 "A") (atom 1 "B"))
              (atom 0 "A") (atom 1 "B") Inheritance None
              (mkTruthValue 1 (9 # 10)) (world_at 10 0))
    as (n & w0 & cs & w1 & ps & w2 & rules & E1 & A1 & A2 & E & _).
  - reflexivity.
  - reflexivity.
  - reflexivity.
  - reflexivity.
  - simpl. split; discriminate.
  - simpl. discriminate.
  - destruct A1 as (r & w1' & E2 & -> & ->). destruct A2 as [-> ->].
    exists n, w0, r, w1'.
    split; [exact E1|]. split; [exact E2|]. split; [exact E|].
    revert E. vm_compute. intros E. now inversion E.
Defined.

(** C7, the claim as stated fails: the product of A and B inherits from R
    is a statement the extensional image applies to, and [ExtensionalImage]
    derives sentences from it, but the one-premise step applies Negation and
    Conversion only and none of its derivations has the statement of an
    image. *)
Lemma image_rules_not_applied :
  match Rules.ExtensionalImage placeholder
          (input_judgment 7 product_inh_R 1 (9 # 10) None) (world_at 10 0),
        InferenceEngine.do_inference_one_premise 1
          (input_judgment 7 product_inh_R 1 (9 # 10) None) (world_at 10 0)
  with
  | (Py.Ok images, _), (Py.Ok derived, w') =>
      map (fun i => str (statement i)) images
      = ["(A --> (/,R,_,B))"; "(B --> (/,R,A,_))"]
      /\ stdout w' = ["Negation"; "Conversion"]
      /\ forallb
           (fun i =>
              forallb
                (fun d =>
                   negb (String.eqb (str (statement i)) (str (statement d))))
                derived)
           images = true
  | _, _ => False
  end.
Proof. vm_compute. repeat split; reflexivity. Qed.

(** ** The dispatcher *)

Section TwoPremiseDispatch.

Variable k : Q.
Variables II EI D : Sentence -> Sentence -> Interp Sentence.

(** Premises whose copulas differ are rejected before any rule is tried. *)
Lemma different_copulas_rejected (j1 j2 : Sentence) (a1 a2 : nat)
    (st1 st2 : string) (s1 p1 s2 p2 : Term) (c1 c2 : Copula)
    (conn1 conn2 : option TermConnector) (w : World) :
  statement j1 = StatementTerm a1 st1 [s1; p1] (Some c1) conn1 ->
  statement j2 = StatementTerm a2 st2 [s2; p2] (Some c2) conn2 ->
  c1 <> c2 ->
  InferenceEngine.do_inference_two_premise k II EI D j1 j2 w = (Py.Ok [], w).
Proof.
  intros H1 H2 Hc.
  unfold InferenceEngine.do_inference_two_premise, subject_term,
    predicate_term, get_copula.
  rewrite H1, H2. unfold connector, copula, get_subject_term,
    get_predicate_term, subterms, InferenceEngine.option_Copula_eqb.
  destruct (bool_decide (is_Some conn1) || bool_decide (is_Some conn2));
    [reflexivity|].
  assert (Copula.eqb c1 c2 = false) as ->.
  { destruct (Copula.eqb c1 c2) eqn:E; [|reflexivity].
    apply Copula_eqb_eq in E. contradiction. }
  unfold mbind, mret, Interp_bind, Interp_ret, lift. cbv beta iota.
  rewrite orb_true_r. reflexivity.
Qed.

(** C2 (as amended). For every pair of premises of which exactly one has a
    symmetric copula, the two copulas differ and the dispatcher rejects the
    pair: it returns the empty derivation list and leaves the state as it
    was; no Analogy derivation is produced. *)
Theorem mixed_symmetry_rejected (j1 j2 : Sentence) (a1 a2 : nat)
    (st1 st2 : string) (s1 p1 s2 p2 : Term) (c1 c2 : Copula)
    (conn1 conn2 : option TermConnector) (w : World) :
  statement j1 = StatementTerm a1 st1 [s1; p1] (Some c1) conn1 ->
  statement j2 = StatementTerm a2 st2 [s2; p2] (Some c2) conn2 ->
  Copula.is_symmetric c1 <> Copula.is_symmetric c2 ->
  InferenceEngine.do_inference_two_premise k II EI D j1 j2 w = (Py.Ok [], w).
Proof.
  intros H1 H2 Hs. eapply different_copulas_rejected; eauto.
  intros ->. apply Hs. reflexivity.
Qed.

End TwoPremiseDispatch.

Lemma mixed_symmetry_rejected_witness :
  dispatch 1 (input_judgment 7 M_inh_P 1 (9 # 10) None)
    (input_judgment 8 M_sim_S 1 (9 # 10) None) (world_at 10 0)
  = (Py.Ok [], world_at 10 0).
Proof.
  apply (mixed_symmetry_rejected 1 _ _ _
           (input_judgment 7 M_inh_P 1 (9 # 10) None)
           (input_judgment 8 M_sim_S 1 (9 # 10) None)
           2 5 (statement_string Inheritance (atom 0 "M") (atom 1 "P"))
           (statement_string Similarity (atom 0 "M") (atom 3 "S"))
           (atom 0 "M") (atom 1 "P") (atom 0 "M") (atom 3 "S")
           Inheritance Similarity None None).
  - reflexivity.
  - reflexivity.
  - simpl. discriminate.
Defined.

(** C2, the claim as stated fails: (M --> P) and (M <-> S) share the middle
    term M, are not identical and make no tautology, and [Analogy] derives
    (S --> P) from them with the truth value of the analogy; the dispatcher
    returns the empty list. *)
Lemma analogy_premises_derive_nothing :
  let j1 := input_judgment 7 M_inh_P 1 (9 # 10) None in
  let j2 := input_judgment 8 M_sim_S 1 (9 # 10) None in
  fst (dispatch 1 j1 j2 (world_at 10 0)) = Py.Ok []
  /\ match Rules.Analogy j1 j2 (world_at 10 0) with
     | (Py.Ok r, _) =>
         str (statement r) = "(S --> P)"
         /\ value r = Some (F_Analogy 1 (9 # 10) 1 (9 # 10))
     | _ => False
     end.
Proof. vm_compute. repeat split; reflexivity. Qed.

(** ** The occurrence time of a conclusion *)

Lemma later_time (t1 t2 : Z) :
  (if (t1 >? t2)%Z then Some t1 else Some t2) = Some (Z.max t1 t2).
Proof. destruct (t1 >? t2)%Z eqn:E; f_equal; lia. Qed.




(** The rules of [NALInferenceRules.py] give the conclusion the occurrence
    time of the first premise, whatever the second is. *)
Lemma Deduction_time_of_first_premise (j1 j2 : Sentence) (a1 a2 : nat)
    (st1 st2 : string) (s1 p1 s2 p2 : Term) (c1 c2 : Copula)
    (conn1 conn2 : option TermConnector) (tv1 tv2 : TruthValue) (w : World) :
  type_ j1 = Judgment ->
  statement j1 = StatementTerm a1 st1 [s1; p1] (Some c1) conn1 ->
  statement j2 = StatementTerm a2 st2 [s2; p2] (Some c2) conn2 ->
  value j1 = Some tv1 -> value j2 = Some tv2 ->
  exists r w',
    Rules.Deduction j1 j2 w = (Py.Ok r, w')
    /\ occurrence_time (stamp r) = occurrence_time (stamp j1)
    /\ statement r = built_statement (next_addr w) c1 s2 p1 None
    /\ value r
       = Some (F_Deduction (frequency tv1) (confidence tv1) (frequency tv2)
                 (confidence tv2)).
Proof.
  intros Ht H1 H2 Hv1 Hv2.
  unfold Rules.Deduction, Rules.conclude, subject_term, predicate_term,
    get_copula, getevidentialvalues_from2sentences,
    getevidentialvalues_fromsentence, Rules.total.
  rewrite H1, H2, Ht, Hv1, Hv2. interp.
  rewrite Statement_run by (left; reflexivity).
  unfold new_Judgment, new_Stamp. interp.
  eexists _, _. repeat split; reflexivity.
Qed.

(** ** Revision *)

Section RevisionRule.

Variable k : Q.
Hypothesis k_pos : 0 < k.

Lemma Revision_run (j1 j2 : Sentence) (a1 : nat) (st1 : string)
    (s1 p1 : Term) (c1 : Copula) (conn1 : option TermConnector)
    (tv1 tv2 : TruthValue) (w : World) :
  statement j1 = StatementTerm a1 st1 [s1; p1] (Some c1) conn1 ->
  str (statement j1) = str (statement j2) ->
  value j1 = Some tv1 -> value j2 = Some tv2 ->
  0 <= frequency tv1 <= 1 -> 0 <= confidence tv1 < 1 ->
  0 <= frequency tv2 <= 1 -> 0 <= confidence tv2 < 1 ->
  exists r w' t,
    Rules.Revision k j1 j2 w = (Py.Ok r, w')
    /\ value r = Some t
    /\ F_Revision k
         (k * frequency tv1 * confidence tv1 / (1 - confidence tv1))
         (k * confidence tv1 / (1 - confidence tv1)
          - k * frequency tv1 * confidence tv1 / (1 - confidence tv1))
         (k * frequency tv2 * confidence tv2 / (1 - confidence tv2))
         (k * confidence tv2 / (1 - confidence tv2)
          - k * frequency tv2 * confidence tv2 / (1 - confidence tv2))
       = Py.Ok t
    /\ occurrence_time (stamp r) = occurrence_time (stamp j1)
    /\ statement r = built_statement (next_addr w) c1 s1 p1 None.
Proof.
  intros Hs Heq Hv1 Hv2 Hf1 Hc1 Hf2 Hc2.
  unfold Rules.Revision, Rules.getevidence_from2sentences,
    getevidentialvalues_from2sentences, getevidentialvalues_fromsentence,
    subject_term, predicate_term, get_copula.
  rewrite Heq, String.eqb_refl, Hv1, Hv2, Hs. interp.
  rewrite !get_evidence_ok by lra. simpl.
  destruct (F_Revision_ok k k_pos _ _ _ _
              (evidence_bounds k k_pos _ _ Hf1 Hc1)
              (evidence_bounds k k_pos _ _ Hf2 Hc2)) as [t Ht].
  rewrite Ht. simpl.
  rewrite Statement_run by (left; reflexivity).
  unfold new_Judgment, new_Stamp. interp.
  eexists _, _, t. repeat split; reflexivity || assumption.
Qed.

(** C8. For every two judgments with the same statement and confidences
    below 1, [Revision] returns in either order of the premises, and the two
    results have the same truth value. *)
Theorem Revision_commutative (j1 j2 : Sentence) (a1 a2 : nat)
    (st1 st2 : string) (s1 p1 s2 p2 : Term) (c1 c2 : Copula)
    (conn1 conn2 : option TermConnector) (tv1 tv2 : TruthValue) (w : World) :
  statement j1 = StatementTerm a1 st1 [s1; p1] (Some c1) conn1 ->
  statement j2 = StatementTerm a2 st2 [s2; p2] (Some c2) conn2 ->
  str (statement j1) = str (statement j2) ->
  value j1 = Some tv1 -> value j2 = Some tv2 ->
  0 <= frequency tv1 <= 1 -> 0 <= confidence tv1 < 1 ->
  0 <= frequency tv2 <= 1 -> 0 <= confidence tv2 < 1 ->
  exists r12 w12 t12 r21 w21 t21,
    Rules.Revision k j1 j2 w = (Py.Ok r12, w12) /\ value r12 = Some t12
    /\ Rules.Revision k j2 j1 w = (Py.Ok r21, w21) /\ value r21 = Some t21
    /\ tv_eq t12 t21.
Proof.
  intros H1 H2 Heq Hv1 Hv2 Hf1 Hc1 Hf2 Hc2.
  destruct (Revision_run j1 j2 _ _ _ _ _ _ _ _ w H1 Heq Hv1 Hv2
              Hf1 Hc1 Hf2 Hc2) as (r12 & w12 & t12 & E12 & V12 & F12 & _).
  destruct (Revision_run j2 j1 _ _ _ _ _ _ _ _ w H2 (eq_sym Heq)
              Hv2 Hv1 Hf2 Hc2 Hf1 Hc1)
    as (r21 & w21 & t21 & E21 & V21 & F21 & _).
  exists r12, w12, t12, r21, w21, t21.
  split; [exact E12|]. split; [exact V12|].
  split; [exact E21|]. split; [exact V21|].
  pose proof (F_Revision_commutative k
    (k * frequency tv1 * confidence tv1 / (1 - confidence tv1))
    (k * confidence tv1 / (1 - confidence tv1)
     - k * frequency tv1 * confidence tv1 / (1 - confidence tv1))
    (k * frequency tv2 * confidence tv2 / (1 - confidence tv2))
    (k * confidence tv2 / (1 - confidence tv2)
     - k * frequency tv2 * confidence tv2 / (1 - confidence tv2))) as C.
  rewrite F12, F21 in C. exact C.
Qed.

End RevisionRule.

Lemma Revision_commutative_witness :
  exists r12 w12 t12 r21 w21 t21,
    Rules.Revision 1 (input_judgment 7 A_inh_B 1 (9 # 10) None)
      (input_judgment 8 A_inh_B 0 (9 # 10) None) (world_at 10 0)
    = (Py.Ok r12, w12) /\ value r12 = Some t12
    /\ Rules.Revision 1 (input_judgment 8 A_inh_B 0 (9 # 10) None)
         (input_judgment 7 A_inh_B 1 (9 # 10) None) (world_at 10 0)
       = (Py.Ok r21, w21) /\ value r21 = Some t21
    /\ tv_eq t12 t21.
Proof.
  apply (Revision_commutative 1 eq_refl
           (input_judgment 7 A_inh_B 1 (9 # 10) None)
           (input_judgment 8 A_inh_B 0 (9 # 10) None)
           2 2 (statement_string Inheritance (atom 0 "A") (atom 1 "B"))
           (statement_string Inheritance (atom 0 "A") (atom 1 "B"))
           (atom 0 "A") (atom 1 "B") (atom 0 "A") (atom 1 "B")
           Inheritance Inheritance None None
           (mkTruthValue 1 (9 # 10)) (mkTruthValue 0 (9 # 10))
           (world_at 10 0)).
  - reflexivity.
  - reflexivity.
  - reflexivity.
  - reflexivity.
  - reflexivity.
  - simpl. split; discriminate.
  - simpl. split; [discriminate | reflexivity].
  - simpl. split; discriminate.
  - simpl. split; [discriminate | reflexivity].
Defined.

(** ** Projection *)

(** Away from the belief's own time the rule projects it to that time with
    the value unchanged. *)
Lemma Projection_own_time_identity (j : Sentence) (tv : TruthValue)
    (t : Z) (w : World) :
  type_ j = Judgment -> value j = Some tv ->
  occurrence_time (stamp j) = Some t -> current_cycle_number w <> t ->
  exists r w' tv',
    Rules.Projection j t w = (Py.Ok r, w') /\ value r = Some tv'
    /\ frequency tv' = frequency tv /\ confidence tv' == confidence tv.
Proof.
  intros Ht Hv Ho Hc.
  unfold Rules.Projection, getevidentialvalues_fromsentence,
    get_current_cycle_number.
  rewrite Ht, Hv, Ho. interp.
  destruct (F_Projection_own_time_identity (current_cycle_number w)
              (frequency tv) (confidence tv) t Hc) as (r & -> & Hf & Hcf).
  unfold new_Judgment, new_Stamp. interp.
  eexists _, _, r. repeat split; assumption || reflexivity.
Qed.

(** C9, the code at the failing input. For every judgment whose occurrence
    time is the current cycle, projecting it to its own occurrence time
    returns no truth value: the division of zero by zero raises. *)
Theorem Projection_own_time_at_current_cycle (j : Sentence) (tv : TruthValue)
    (t : Z) (w : World) :
  type_ j = Judgment -> value j = Some tv ->
  occurrence_time (stamp j) = Some t -> current_cycle_number w = t ->
  Rules.Projection j t w = (Py.Raise Py.ZeroDivisionError, w).
Proof.
  intros Ht Hv Ho Hc.
  unfold Rules.Projection, getevidentialvalues_fromsentence,
    get_current_cycle_number.
  rewrite Ht, Hv, Ho. interp. rewrite Hc, F_Projection_own_time_raises.
  reflexivity.
Qed.

Lemma Projection_own_time_at_current_cycle_witness :
  Rules.Projection (input_judgment 7 A_inh_B (3 # 10) (7 # 10) (Some 5%Z))
    5 (world_at 10 5)
  = (Py.Raise Py.ZeroDivisionError, world_at 10 5).
Proof.
  apply (Projection_own_time_at_current_cycle
           (input_judgment 7 A_inh_B (3 # 10) (7 # 10) (Some 5%Z))
           (mkTruthValue (3 # 10) (7 # 10)) 5 (world_at 10 5)).
  - reflexivity.
  - reflexivity.
  - reflexivity.
  - reflexivity.
Defined.

(** ** The intern table *)

(** A term that [from_string] returned is in the table under the string
    that was passed in. *)
Lemma Term_from_string_stores (n : nat) (s : string) (t : Term)
    (w w' : World) :
  Term_from_string n s w = (Py.Ok t, w') -> term_dict w' !! s = Some t.
Proof.
  destruct n as [|n]; simpl; [discriminate|].
  unfold Term_from_string_body, term_dict_lookup, term_dict_store.
  unfold mbind, mret, Interp_bind, Interp_ret. cbv beta iota.
  destruct (term_dict w !! s) as [c|] eqn:Hc.
  - intros [= <- <-]. assumption.
  - match goal with |- context [lift (Py.index s 0) w] =>
      destruct (lift (Py.index s 0) w) as [[c0|e] w0] end; [|discriminate].
    match goal with |- (let (_, _) := ?m in _) = _ -> _ =>
      destruct m as [[term|e] w1] end; [|discriminate].
    intros [= <- <-]. simpl. apply lookup_insert_eq.
Qed.

Lemma Term_from_string_cached (n : nat) (s : string) (t : Term) (w : World) :
  n <> O -> term_dict w !! s = Some t ->
  Term_from_string n s w = (Py.Ok t, w).
Proof.
  intros Hn H. destruct n as [|n]; [contradiction|]. simpl.
  unfold Term_from_string_body, term_dict_lookup.
  unfold mbind, mret, Interp_bind, Interp_ret. cbv beta iota.
  rewrite H. reflexivity.
Qed.

Lemma recursion_limit_positive : recursion_limit <> O.
Proof. unfold recursion_limit. discriminate. Qed.

(** C6, the code at the failing input. The strings (A<->B) and (B<->A) are
    well formed and their terms have the same canonical string, (A <-> B),
    and are equal under [==]; but the table is keyed by the string passed
    in, so the second call builds a second object. *)
Theorem from_string_equal_terms_distinct_objects :
  match similarity_parsed_twice with
  | Py.Ok (x, y) =>
      str x = "(A <-> B)" /\ str y = "(A <-> B)"
      /\ Terms.eqb x y = true /\ Terms.is_ x y = false
  | Py.Raise _ => False
  end.
Proof. vm_compute. repeat split; reflexivity. Qed.

(** ** The bag *)

Import Bag.

(** *** Positions in the vectors *)
Lemma where_from_ge (n : nat) (x : string) (a : list string) (m : nat) :
  m ∈ where_from n x a -> (n <= m)%nat.
Proof.
  revert n. induction a as [|y r IH]; intros n H; simpl in H.
  - inversion H.
  - destruct (String.eqb y x).
    + apply elem_of_cons in H as [-> | H]; [lia|]. apply IH in H. lia.
    + apply IH in H. lia.
Qed.

Lemma delete_from_cons_lt {A} (n m : nat) (a : list A) (idx : list nat) :
  (m < n)%nat -> delete_from n a (m :: idx) = delete_from n a idx.
Proof.
  revert n. induction a as [|y r IH]; intros n H; simpl; [reflexivity|].
  rewrite IH by lia.
  assert (bool_decide (n ∈ m :: idx) = bool_decide (n ∈ idx)) as ->.
  { apply bool_decide_ext. rewrite elem_of_cons. split; [|tauto].
    intros [->|]; [lia|assumption]. }
  reflexivity.
Qed.

Lemma assign_from_cons_lt {A} (n m : nat) (a : list A) (idx : list nat) (v : A) :
  (m < n)%nat -> assign_from n a (m :: idx) v = assign_from n a idx v.
Proof.
  revert n. induction a as [|y r IH]; intros n H; simpl; [reflexivity|].
  rewrite IH by lia.
  assert (bool_decide (n ∈ m :: idx) = bool_decide (n ∈ idx)) as ->.
  { apply bool_decide_ext. rewrite elem_of_cons. split; [|tauto].
    intros [->|]; [lia|assumption]. }
  reflexivity.
Qed.

Lemma not_elem_of_where_from (n : nat) (x : string) (a : list string) :
  n ∉ where_from (S n) x a.
Proof. intros H. apply where_from_ge in H. lia. Qed.

Lemma delete_where_from {A} (n : nat) (x : string) (keys : list string)
    (l : list A) :
  length keys = length l ->
  delete_from n l (where_from n x keys) = without x keys l.
Proof.
  revert n l. induction keys as [|k ks IH]; intros n [|y r] H;
    simpl in *; try discriminate; [reflexivity|].
  injection H as H.
  destruct (String.eqb k x).
  - rewrite bool_decide_eq_true_2 by (apply elem_of_cons; now left).
    rewrite delete_from_cons_lt by lia. now apply IH.
  - rewrite bool_decide_eq_false_2 by apply not_elem_of_where_from.
    f_equal. now apply IH.
Qed.

Lemma assign_where_from {A} (n : nat) (x : string) (keys : list string)
    (l : list A) (v : A) :
  length keys = length l ->
  assign_from n l (where_from n x keys) v = replaced x keys l v.
Proof.
  revert n l. induction keys as [|k ks IH]; intros n [|y r] H;
    simpl in *; try discriminate; [reflexivity|].
  injection H as H.
  destruct (String.eqb k x).
  - rewrite bool_decide_eq_true_2 by (apply elem_of_cons; now left).
    rewrite assign_from_cons_lt by lia. f_equal. now apply IH.
  - rewrite bool_decide_eq_false_2 by apply not_elem_of_where_from.
    f_equal. now apply IH.
Qed.

Lemma without_keys (x : string) (keys : list string) :
  without x keys keys = filter (fun k => k ≠ x) keys.
Proof.
  induction keys as [|k ks IH]; simpl; [reflexivity|].
  destruct (String.eqb_spec k x) as [->|N].
  - rewrite filter_cons_False by (intros H; now apply H). exact IH.
  - rewrite filter_cons_True by assumption. now rewrite IH.
Qed.

Lemma sum_app (l1 l2 : list Q) : sum (l1 ++ l2) == sum l1 + sum l2.
Proof.
  induction l1 as [|x r IH]; simpl; [ring|]. unfold sum in *. simpl.
  rewrite IH. ring.
Qed.

Section BagInvariant.
Variable priority_weight : Q -> Q.
Variable float : Py.FloatOps.
Variable GUI_USE_INTERFACE : bool.

Abbreviation weight_of it := (get_priority_weight priority_weight (budget it)).

Lemma without_absent {A} (x : string) (keys : list string) (l : list A) :
  x ∉ keys -> length keys = length l -> without x keys l = l.
Proof.
  revert l. induction keys as [|k ks IH]; intros [|y r] Hx Hl;
    simpl in *; try discriminate; [reflexivity|].
  injection Hl as Hl. apply not_elem_of_cons in Hx as [Hk Hx].
  destruct (String.eqb_spec k x) as [->|_]; [contradiction|].
  f_equal. now apply IH.
Qed.

Lemma replaced_absent {A} (x : string) (keys : list string) (l : list A)
    (v : A) :
  x ∉ keys -> length keys = length l -> replaced x keys l v = l.
Proof.
  revert l. induction keys as [|k ks IH]; intros [|y r] Hx Hl;
    simpl in *; try discriminate; [reflexivity|].
  injection Hl as Hl. apply not_elem_of_cons in Hx as [Hk Hx].
  destruct (String.eqb_spec k x) as [->|_]; [contradiction|].
  f_equal. now apply IH.
Qed.

Lemma sum_without (d : gmap string nat) (h : gmap nat Item) (x : string)
    (a : nat) (it : Item) (keys : list string) (ws : list Q) :
  NoDup keys -> Forall2 (tracks priority_weight d h) keys ws -> x ∈ keys ->
  d !! x = Some a -> h !! a = Some it ->
  sum (without x keys ws) == sum ws - weight_of it.
Proof.
  intros Hnd Hf Hx Hd Hh. induction Hf as [|k wt ks r Hk Hf IH]; simpl.
  - inversion Hx.
  - apply NoDup_cons in Hnd as [Hnk Hnd].
    destruct (String.eqb_spec k x) as [->|N].
    + rewrite without_absent by (eauto using Forall2_length).
      unfold sum; simpl. rewrite (Hk a it Hd Hh). ring.
    + apply elem_of_cons in Hx as [->|Hx]; [contradiction|].
      unfold sum in *; simpl. rewrite IH by assumption. ring.
Qed.

Lemma sum_replaced (d : gmap string nat) (h : gmap nat Item) (x : string)
    (a : nat) (it : Item) (keys : list string) (ws : list Q) (v : Q) :
  NoDup keys -> Forall2 (tracks priority_weight d h) keys ws -> x ∈ keys ->
  d !! x = Some a -> h !! a = Some it ->
  sum (replaced x keys ws v) == sum ws - weight_of it + v.
Proof.
  intros Hnd Hf Hx Hd Hh. induction Hf as [|k wt ks r Hk Hf IH]; simpl.
  - inversion Hx.
  - apply NoDup_cons in Hnd as [Hnk Hnd].
    destruct (String.eqb_spec k x) as [->|N].
    + rewrite replaced_absent by (eauto using Forall2_length).
      unfold sum; simpl. rewrite (Hk a it Hd Hh). ring.
    + apply elem_of_cons in Hx as [->|Hx]; [contradiction|].
      unfold sum in *; simpl. rewrite IH by assumption. ring.
Qed.

Lemma tracks_without (d : gmap string nat) (h : gmap nat Item) (x : string)
    (keys : list string) (ws : list Q) :
  Forall2 (tracks priority_weight d h) keys ws ->
  Forall2 (tracks priority_weight (delete x d) h) (without x keys keys) (without x keys ws).
Proof.
  induction 1 as [|k wt ks r Hk Hf IH]; simpl; [constructor|].
  destruct (String.eqb_spec k x) as [->|N]; [assumption|].
  constructor; [|assumption].
  intros a it Hd Hh. apply (Hk a it); [|assumption].
  now rewrite lookup_delete_ne in Hd.
Qed.

Lemma tracks_replaced (d : gmap string nat) (h : gmap nat Item) (x : string)
    (a : nat) (it it' : Item) (keys : list string) (ws : list Q) :
  (forall k b, d !! k = Some b -> exists i, h !! b = Some i /\ key i = k) ->
  d !! x = Some a -> h !! a = Some it -> key it' = key it ->
  Forall2 (tracks priority_weight d h) keys ws ->
  Forall2 (tracks priority_weight d (<[a := it']> h)) keys
    (replaced x keys ws (weight_of it')).
Proof.
  intros Hkey Hd Hh Hk'. induction 1 as [|k wt ks r Hk Hf IH]; simpl;
    constructor; try assumption.
  intros b i Hb Hi. destruct (String.eqb_spec k x) as [->|N].
  - assert (b = a) as -> by congruence.
    rewrite lookup_insert_eq in Hi. injection Hi as <-. reflexivity.
  - assert (b <> a) as Hba.
    { intros ->. destruct (Hkey _ _ Hb) as (i0 & Hi0 & Hk0).
      destruct (Hkey _ _ Hd) as (i1 & Hi1 & Hk1). congruence. }
    rewrite lookup_insert_ne in Hi by congruence. now apply (Hk b i).
Qed.


Ltac bagm :=
  unfold mbind, mret, BagM_bind, BagM_ret, get, modify, fail, deref in *;
  cbv beta iota.

Lemma take_using_key_run (key : string) (a : nat) (it : Item) (st : State) :
  item_lookup_dict st !! key = Some a -> heap st !! a = Some it ->
  take_using_key priority_weight float key st = (Ok a, taken priority_weight float key it st).
Proof.
  intros Hd Hh. unfold take_using_key, _take_from_lookup_dict. bagm.
  rewrite Hd. simpl. rewrite Hd. simpl. rewrite Hh. reflexivity.
Qed.

Lemma take_using_key_absent (key : string) (st : State) :
  item_lookup_dict st !! key = None ->
  take_using_key priority_weight float key st = (Raise AssertionError, st).
Proof.
  intros Hd. unfold take_using_key. bagm. rewrite Hd. simpl. reflexivity.
Qed.

Lemma Inv_taken (key : string) (a : nat) (it : Item) (st : State) :
  Inv priority_weight st -> item_lookup_dict st !! key = Some a -> heap st !! a = Some it ->
  Inv priority_weight (taken priority_weight float key it st).
Proof.
  intros [Hn Hd Hk Hw] Ha Hh.
  pose proof (Forall2_length _ _ _ Hw) as Hl.
  assert (key ∈ item_keys st) as Hin by (apply Hd; eauto).
  unfold taken, np_delete, np_where.
  rewrite !delete_where_from by (auto; reflexivity).
  constructor; simpl.
  - rewrite without_keys. now apply NoDup_filter.
  - intros k. rewrite without_keys, list_elem_of_filter, Hd.
    destruct (decide (k = key)) as [->|N].
    + rewrite lookup_delete_eq. split; [tauto|]. intros [? ?]; discriminate.
    + rewrite lookup_delete_ne by congruence. tauto.
  - intros k b Hb. apply Hk.
    destruct (decide (key = k)) as [->|N].
    + rewrite lookup_delete_eq in Hb; discriminate.
    + now rewrite lookup_delete_ne in Hb.
  - now apply tracks_without.
Qed.

Lemma take_using_key_Inv (key : string) (st : State) :
  Inv priority_weight st -> Inv priority_weight (snd (take_using_key priority_weight float key st)).
Proof.
  intros HI. destruct (item_lookup_dict st !! key) as [a|] eqn:Hd.
  - destruct (inv_key _ _ HI _ _ Hd) as (it & Hh & _).
    rewrite (take_using_key_run _ _ _ _ Hd Hh). simpl.
    eapply Inv_taken; eassumption.
  - now rewrite take_using_key_absent.
Qed.

(** The invariant does not read the ordered queue. *)
Lemma Inv_set_ordered_items (q : list (Q * nat)) (st : State) :
  Inv priority_weight st -> Inv priority_weight (set_ordered_items q st).
Proof. intros [? ? ? ?]. constructor; assumption. Qed.

Lemma _take_min_Inv (st : State) :
  Inv priority_weight st -> Inv priority_weight (snd (_take_min priority_weight float st)).
Proof.
  intros HI. unfold _take_min. bagm.
  destruct (extract_min (ordered_items st)) as [[item rest]|]; simpl;
    [|assumption].
  destruct (heap st !! item) as [it|]; simpl.
  - pose proof (take_using_key_Inv (key it) _
                  (Inv_set_ordered_items rest _ HI)) as H.
    destruct (take_using_key priority_weight float (key it)
                (set_ordered_items rest st)) as [[r|e] st'];
      simpl in *; assumption.
  - now apply Inv_set_ordered_items.
Qed.

Lemma tracks_insert_fresh (d : gmap string nat) (h : gmap nat Item)
    (x : string) (a : nat) (keys : list string) (ws : list Q) :
  x ∉ keys -> Forall2 (tracks priority_weight d h) keys ws ->
  Forall2 (tracks priority_weight (<[x := a]> d) h) keys ws.
Proof.
  intros Hx. induction 1 as [|k wt ks r Hk Hf IH]; constructor.
  - apply not_elem_of_cons in Hx as [Hk' _].
    intros b i Hb Hi. rewrite lookup_insert_ne in Hb by congruence.
    now apply (Hk b i).
  - apply IH. now apply not_elem_of_cons in Hx as [_ ?].
Qed.

Lemma Inv_inserted (item : nat) (it : Item) (st : State) :
  Inv priority_weight st -> heap st !! item = Some it ->
  item_lookup_dict st !! key it = None ->
  Inv priority_weight (inserted priority_weight float item it st).
Proof.
  intros [Hn Hd Hk Hw] Hh Hnone.
  assert (key it ∉ item_keys st) as Hnin.
  { intros Hin. apply Hd in Hin as [? ?]. congruence. }
  constructor; simpl.
  - apply NoDup_app. split; [assumption|]. split.
    + intros x Hx Hx'. apply list_elem_of_singleton in Hx' as ->. contradiction.
    + apply NoDup_singleton.
  - intros k. rewrite elem_of_app, list_elem_of_singleton, Hd.
    destruct (decide (key it = k)) as [<-|N].
    + rewrite lookup_insert_eq. split; eauto.
    + rewrite lookup_insert_ne by assumption. split; [|tauto].
      intros [?| ->]; [assumption|contradiction].
  - intros k b Hb. destruct (decide (key it = k)) as [<-|N].
    + rewrite lookup_insert_eq in Hb. injection Hb as <-. eauto.
    + rewrite lookup_insert_ne in Hb by assumption. now apply Hk.
  - apply Forall2_app.
    + now apply tracks_insert_fresh.
    + constructor; [|constructor]. intros b i Hb Hi.
      rewrite lookup_insert_eq in Hb. injection Hb as <-.
      assert (i = it) as -> by congruence. reflexivity.
Qed.

(** What [put] does, case by case. *)
Lemma put_run (item : nat) (st : State) :
  put priority_weight float item st
  = match heap st !! item with
    | None => (Raise AttributeError, st)
    | Some it =>
        if negb (String.eqb (object_type it) (item_type st)) then
          (Raise AssertionError, st)
        else
          match item_lookup_dict st !! key it with
          | Some _ => (Raise AssertionError, st)
          | None =>
              if (capacity st <? length (item_keys st ++ [key it]))%nat then
                match _take_min priority_weight float (inserted priority_weight float item it st) with
                | (Ok _, st') => (Ok item, st')
                | (Raise e, st') => (Raise e, st')
                end
              else (Ok item, inserted priority_weight float item it st)
          end
    end.
Proof.
  unfold put, _put_into_lookup_dict, len. bagm.
  destruct (heap st !! item) as [it|] eqn:Hh; [|reflexivity].
  destruct (String.eqb (object_type it) (item_type st)); simpl;
    [|reflexivity].
  rewrite Hh. simpl.
  destruct (item_lookup_dict st !! key it) eqn:Hd; simpl; [reflexivity|].
  destruct (capacity st <? length (item_keys st ++ [key it]))%nat;
    [|reflexivity].
  match goal with |- context [_take_min priority_weight float ?s] =>
    change s with (inserted priority_weight float item it st) end.
  destruct (_take_min priority_weight float (inserted priority_weight float item it st)) as [[r|e] st'];
    reflexivity.
Qed.

Lemma put_Inv (item : nat) (st : State) :
  Inv priority_weight st -> Inv priority_weight (snd (put priority_weight float item st)).
Proof.
  intros HI. rewrite put_run.
  destruct (heap st !! item) as [it|] eqn:Hh; [|assumption].
  destruct (negb _); [assumption|].
  destruct (item_lookup_dict st !! key it) eqn:Hd; [assumption|].
  pose proof (Inv_inserted _ _ _ HI Hh Hd) as HI'.
  destruct (capacity st <? _)%nat; [|assumption].
  pose proof (_take_min_Inv _ HI') as HI''.
  destruct (_take_min priority_weight float (inserted priority_weight float item it st)) as [[r|e] st'];
    assumption.
Qed.

Lemma change_priority_run (key : string) (a : nat) (it : Item)
    (new_priority : Q) (st : State) :
  item_lookup_dict st !! key = Some a -> heap st !! a = Some it ->
  Bag.key it = key ->
  change_priority priority_weight float GUI_USE_INTERFACE key new_priority st
  = (Ok tt, reprioritised priority_weight float key a it new_priority st).
Proof.
  intros Hd Hh Hk.
  unfold change_priority, peek_using_key, _take_from_lookup_dict,
    _put_into_lookup_dict. bagm.
  rewrite Hd. simpl. rewrite Hh. simpl.
  destruct GUI_USE_INTERFACE; simpl; [|reflexivity].
  rewrite Hd. simpl. rewrite lookup_insert_eq. simpl.
  rewrite Hk, lookup_delete_eq. simpl.
  unfold reprioritised, with_priority, set_weights_sum, set_weights,
    set_item_lookup_dict, set_heap. simpl.
  rewrite insert_delete_eq. rewrite (insert_id _ _ _ Hd). rewrite Hk.
  reflexivity.
Qed.

Lemma change_priority_absent (key : string) (new_priority : Q) (st : State) :
  item_lookup_dict st !! key = None ->
  change_priority priority_weight float GUI_USE_INTERFACE key new_priority st
  = (Raise AttributeError, st).
Proof.
  intros Hd. unfold change_priority, peek_using_key. bagm.
  rewrite Hd. reflexivity.
Qed.

Lemma Inv_reprioritised (key : string) (a : nat) (it : Item)
    (new_priority : Q) (st : State) :
  Inv priority_weight st -> item_lookup_dict st !! key = Some a -> heap st !! a = Some it ->
  Inv priority_weight (reprioritised priority_weight float key a it new_priority st).
Proof.
  intros [Hn Hd Hk Hw] Ha Hh.
  pose proof (Forall2_length _ _ _ Hw) as Hl.
  assert (key ∈ item_keys st) as Hin by (apply Hd; eauto).
  unfold reprioritised, with_priority, np_assign, np_where.
  rewrite assign_where_from by exact Hl.
  constructor; simpl.
  - assumption.
  - assumption.
  - intros k b Hb. destruct (decide (b = a)) as [->|N].
    + rewrite lookup_insert_eq. eexists; split; [reflexivity|]. simpl.
      destruct (Hk _ _ Hb) as (i & Hi & Hki). congruence.
    + rewrite lookup_insert_ne by congruence. now apply Hk.
  - eapply tracks_replaced; eauto.
Qed.

Lemma change_priority_Inv (key : string) (new_priority : Q) (st : State) :
  Inv priority_weight st ->
  Inv priority_weight (snd (change_priority priority_weight float GUI_USE_INTERFACE key
              new_priority st)).
Proof.
  intros HI. destruct (item_lookup_dict st !! key) as [a|] eqn:Hd.
  - destruct (inv_key _ _ HI _ _ Hd) as (it & Hh & Hk).
    rewrite (change_priority_run _ _ _ _ _ Hd Hh Hk). simpl.
    eapply Inv_reprioritised; eassumption.
  - now rewrite change_priority_absent.
Qed.

Lemma Inv_new_Bag (objects : gmap nat Item) (ty : string) (cap : nat) :
  Inv priority_weight (new_Bag objects ty cap).
Proof.
  constructor; simpl.
  - constructor.
  - intros k. rewrite lookup_empty. split.
    + intros H. inversion H.
    + intros [? ?]. discriminate.
  - intros k a H. rewrite lookup_empty in H. discriminate.
  - constructor.
Qed.

Lemma step_Inv (op : Op) (st : State) :
  Inv priority_weight st -> Inv priority_weight (step priority_weight float GUI_USE_INTERFACE st op).
Proof.
  intros HI. destruct op; simpl.
  - now apply put_Inv.
  - now apply take_using_key_Inv.
  - now apply change_priority_Inv.
Qed.

Lemma run_Inv (ops : list Op) (st : State) :
  Inv priority_weight st -> Inv priority_weight (run priority_weight float GUI_USE_INTERFACE ops st).
Proof.
  revert st. induction ops as [|op ops IH]; intros st HI; simpl.
  - assumption.
  - apply IH. now apply step_Inv.
Qed.

Lemma Inv_size (st : State) :
  Inv priority_weight st -> size (item_lookup_dict st) = length (weights st).
Proof.
  intros [Hn Hd Hk Hw].
  rewrite <- (Forall2_length _ _ _ Hw).
  rewrite <- size_dom.
  assert (dom (item_lookup_dict st) = list_to_set (item_keys st)) as ->.
  { apply set_eq. intros k. rewrite elem_of_dom, elem_of_list_to_set.
    symmetry. apply Hd. }
  now apply size_list_to_set.
Qed.

(** *** The stored sum *)

Lemma length_without {A} (x : string) (keys : list string) (l : list A) :
  (length (without x keys l) <= length l)%nat.
Proof.
  revert l. induction keys as [|k ks IH]; intros [|y r]; simpl; try lia.
  specialize (IH r). destruct (String.eqb k x); simpl; lia.
Qed.

Lemma length_replaced {A} (x : string) (keys : list string) (l : list A)
    (v : A) :
  length keys = length l -> length (replaced x keys l v) = length l.
Proof.
  revert l. induction keys as [|k ks IH]; intros [|y r] H; simpl in *;
    try discriminate; [reflexivity|].
  injection H as H. now rewrite IH.
Qed.

Lemma Forall_without {A} (P : A -> Prop) (x : string) (keys : list string)
    (l : list A) :
  Forall P l -> Forall P (without x keys l).
Proof.
  revert l. induction keys as [|k ks IH]; intros [|y r] H; simpl;
    try constructor.
  apply Forall_cons in H as [Hy Hr].
  destruct (String.eqb k x); [now apply IH|].
  constructor; [assumption | now apply IH].
Qed.

Lemma sum_bound (W : Q) (l : list Q) :
  Forall (fun w => Qabs w <= W) l ->
  Qabs (sum l) <= inject_Z (Z.of_nat (length l)) * W.
Proof.
  induction 1 as [|x l Hx Hl IH]; unfold sum in *.
  - cbn [fold_right length]. change (inject_Z (Z.of_nat 0)) with 0.
    change (Qabs 0) with 0. lra.
  - cbn [fold_right length]. rewrite Nat2Z.inj_succ. unfold Z.succ.
    rewrite inject_Z_plus. change (inject_Z 1) with 1.
    pose proof (Qabs_triangle x (fold_right Qplus 0 l)) as T. lra.
Qed.

(** Every weight in the vector is the weight of an item. *)
Lemma weights_bounded (W : Q) (st : State) :
  Inv priority_weight st -> (forall p, Qabs (priority_weight p) <= W) ->
  Forall (fun w => Qabs w <= W) (weights st).
Proof.
  intros [Hn Hd Hk Hw] Hp.
  assert (forall k, k ∈ item_keys st ->
            exists a it, item_lookup_dict st !! k = Some a
                         /\ heap st !! a = Some it) as Hall.
  { intros k Hin. apply Hd in Hin as [a Ha].
    destruct (Hk _ _ Ha) as (it & Hit & _). eauto. }
  clear Hn Hd Hk. induction Hw as [|k wt ks r Hkw Hf IH]; constructor.
  - destruct (Hall k) as (a & it & Ha & Hit);
      [apply elem_of_cons; now left|].
    rewrite (Hkw a it Ha Hit). apply Hp.
  - apply IH. intros k' Hin. apply Hall. apply elem_of_cons. now right.
Qed.

Section Drift.

Variables u eta M W : Q.
Variables N K : nat.
Hypothesis rounding : rounds_within float u eta M.
Hypothesis weight_bound : forall p, Qabs (priority_weight p) <= W.

Local Abbreviation B := (inject_Z (Z.of_nat N) * W).
Local Abbreviation bound := (drift_bound u eta B).

(** The sums stay in the range in which the operations round. *)
Hypothesis in_range : B + bound K <= M.

Lemma weight_bound_nonneg : 0 <= W.
Proof.
  pose proof (weight_bound 0) as H.
  pose proof (Qabs_nonneg (priority_weight 0)). lra.
Qed.

Lemma sum_magnitude_nonneg : 0 <= B.
Proof.
  pose proof weight_bound_nonneg.
  assert (0 <= inject_Z (Z.of_nat N))
    by (change 0 with (inject_Z 0); rewrite <- Zle_Qle; lia).
  nra.
Qed.

Lemma drift_bound_nonneg (k : nat) : 0 <= bound k.
Proof.
  unfold drift_bound. pose proof sum_magnitude_nonneg.
  pose proof (roundoff_nonneg _ _ _ _ rounding).
  pose proof (least_nonneg _ _ _ _ rounding).
  assert (0 <= inject_Z (Z.of_nat k))
    by (change 0 with (inject_Z 0); rewrite <- Zle_Qle; lia).
  assert (0 <= (1 + u) ^ Z.of_nat k) by (apply Qpower_0_le; lra).
  assert (0 <= u * B + eta) by nra.
  assert (0 <= inject_Z (Z.of_nat k) * (u * B + eta)) by nra.
  nra.
Qed.

(** One more rounded operation. *)
Lemma drift_bound_step (k : nat) :
  (1 + u) * bound k + (u * B + eta) <= bound (S k).
Proof.
  unfold drift_bound. pose proof sum_magnitude_nonneg.
  pose proof (roundoff_nonneg _ _ _ _ rounding).
  pose proof (least_nonneg _ _ _ _ rounding).
  rewrite Nat2Z.inj_succ. unfold Z.succ.
  rewrite Qpower_plus by lra. rewrite Qpower_1_r.
  rewrite inject_Z_plus. change (inject_Z 1) with 1.
  assert (0 <= inject_Z (Z.of_nat k))
    by (change 0 with (inject_Z 0); rewrite <- Zle_Qle; lia).
  assert (1 <= (1 + u) ^ Z.of_nat k)
    by (apply Qpower_1_le; [lra | lia]).
  assert (0 <= u * B + eta)
    by (assert (0 <= u * B) by (apply Qmult_le_0_compat; assumption); lra).
  generalize dependent ((1 + u) ^ Z.of_nat k). intros q Hq.
  generalize dependent (u * B + eta). intros c Hc.
  generalize dependent (inject_Z (Z.of_nat k)). intros n Hn.
  assert (1 <= q * (1 + u)) as Hq1 by nra.
  assert (0 <= c * (q * (1 + u) - 1)) as Hc1
    by (apply Qmult_le_0_compat; lra).
  assert ((n + 1) * c * (q * (1 + u))
          == (1 + u) * (n * c * q) + c + c * (q * (1 + u) - 1)) as ->
    by ring.
  lra.
Qed.

Lemma drift_bound_mono (k : nat) : bound k <= bound (S k).
Proof.
  pose proof (drift_bound_step k) as Hs.
  pose proof (drift_bound_nonneg k) as H0.
  pose proof sum_magnitude_nonneg as HB.
  pose proof (roundoff_nonneg _ _ _ _ rounding) as Hu.
  pose proof (least_nonneg _ _ _ _ rounding) as He.
  assert (0 <= u * B) as H1 by (apply Qmult_le_0_compat; assumption).
  assert (0 <= u * bound k) as H2 by (apply Qmult_le_0_compat; assumption).
  lra.
Qed.

Lemma drift_bound_le (k k' : nat) : (k <= k')%nat -> bound k <= bound k'.
Proof.
  induction 1 as [|k' _ IH]; [apply Qle_refl|].
  eapply Qle_trans; [exact IH | apply drift_bound_mono].
Qed.

(** A rounded addition to a sum that is off by at most [bound k]. *)
Lemma fadd_drift (s S S' x : Q) (k : nat) :
  (k <= K)%nat ->
  Qabs (s - S) <= bound k -> S' == S + x -> Qabs S' <= B ->
  Qabs (Py.fadd float s x - S') <= bound (Datatypes.S k).
Proof.
  intros Hk HE HS HB.
  eapply Qle_trans; [|apply drift_bound_step].
  pose proof (drift_bound_le k K Hk) as HK.
  generalize dependent (bound k). intros E HE HK.
  pose proof (roundoff_nonneg _ _ _ _ rounding).
  assert (Qabs (s + x) <= B + E) as Hm.
  { assert (s + x == S' + (s - S)) as -> by (rewrite HS; ring).
    pose proof (Qabs_triangle S' (s - S)). lra. }
  pose proof (fadd_error _ _ _ _ rounding s x ltac:(lra)) as Hr.
  assert (Py.fadd float s x - S'
          == (Py.fadd float s x - (s + x)) + (s - S)) as ->
    by (rewrite HS; ring).
  pose proof (Qabs_triangle (Py.fadd float s x - (s + x)) (s - S)).
  nra.
Qed.

Lemma fsub_drift (s S S' x : Q) (k : nat) :
  (k <= K)%nat ->
  Qabs (s - S) <= bound k -> S' == S - x -> Qabs S' <= B ->
  Qabs (Py.fsub float s x - S') <= bound (Datatypes.S k).
Proof.
  intros Hk HE HS HB.
  eapply Qle_trans; [|apply drift_bound_step].
  pose proof (drift_bound_le k K Hk) as HK.
  generalize dependent (bound k). intros E HE HK.
  pose proof (roundoff_nonneg _ _ _ _ rounding).
  assert (Qabs (s - x) <= B + E) as Hm.
  { assert (s - x == S' + (s - S)) as -> by (rewrite HS; ring).
    pose proof (Qabs_triangle S' (s - S)). lra. }
  pose proof (fsub_error _ _ _ _ rounding s x ltac:(lra)) as Hr.
  assert (Py.fsub float s x - S'
          == (Py.fsub float s x - (s - x)) + (s - S)) as ->
    by (rewrite HS; ring).
  pose proof (Qabs_triangle (Py.fsub float s x - (s - x)) (s - S)).
  nra.
Qed.

(** The sum of at most [N] weights. *)
Lemma sum_within (l : list Q) :
  Forall (fun w => Qabs w <= W) l -> (length l <= N)%nat ->
  Qabs (sum l) <= B.
Proof.
  intros Hl Hn. pose proof (sum_bound W l Hl) as Hs.
  pose proof weight_bound_nonneg.
  assert (inject_Z (Z.of_nat (length l)) <= inject_Z (Z.of_nat N))
    by (rewrite <- Zle_Qle; lia).
  nra.
Qed.

Lemma drift_taken (key : string) (a : nat) (it : Item) (st : State)
    (k : nat) :
  Inv priority_weight st -> (length (weights st) <= N)%nat ->
  (k <= K)%nat ->
  item_lookup_dict st !! key = Some a -> heap st !! a = Some it ->
  drift st <= bound k ->
  drift (taken priority_weight float key it st) <= bound (S k)
  /\ (length (weights (taken priority_weight float key it st))
      <= length (weights st))%nat.
Proof.
  intros HI HN HK Ha Hh HD.
  pose proof (weights_bounded W st HI weight_bound) as Hb.
  destruct HI as [Hn Hd Hk Hw].
  pose proof (Forall2_length _ _ _ Hw) as Hl.
  assert (key ∈ item_keys st) as Hin by (apply Hd; eauto).
  unfold drift, taken in *. cbn [weights weights_sum].
  unfold np_delete, np_where. rewrite delete_where_from by exact Hl.
  pose proof (length_without key (item_keys st) (weights st)) as Hlen.
  split; [|exact Hlen].
  apply (fsub_drift _ (sum (weights st))); [exact HK | exact HD | |].
  - apply (sum_without _ _ _ _ _ _ _ Hn Hw Hin Ha Hh).
  - apply sum_within; [now apply Forall_without | lia].
Qed.

Lemma drift_inserted (item : nat) (it : Item) (st : State) (k : nat) :
  Inv priority_weight st -> (length (weights st) < N)%nat ->
  (k <= K)%nat ->
  drift st <= bound k ->
  drift (inserted priority_weight float item it st) <= bound (S k).
Proof.
  intros HI HN HK HD.
  pose proof (weights_bounded W st HI weight_bound) as Hb.
  unfold drift, inserted in *. cbn [weights weights_sum].
  apply (fadd_drift _ (sum (weights st))); [exact HK | exact HD | |].
  - rewrite sum_app. unfold sum; simpl. ring.
  - apply sum_within.
    + apply Forall_app. split; [exact Hb|].
      constructor; [apply weight_bound | constructor].
    + rewrite length_app. simpl. lia.
Qed.

Lemma drift_reprioritised (key : string) (a : nat) (it : Item)
    (new_priority : Q) (st : State) (k : nat) :
  Inv priority_weight st -> (length (weights st) <= N)%nat ->
  (S k <= K)%nat ->
  item_lookup_dict st !! key = Some a -> heap st !! a = Some it ->
  drift st <= bound k ->
  drift (reprioritised priority_weight float key a it new_priority st)
  <= bound (S (S k))
  /\ length (weights
               (reprioritised priority_weight float key a it new_priority
                  st))
     = length (weights st).
Proof.
  intros HI HN HK Ha Hh HD.
  pose proof (weights_bounded W st HI weight_bound) as Hb.
  pose proof (Inv_reprioritised key a it new_priority st HI Ha Hh) as HI'.
  pose proof (weights_bounded W _ HI' weight_bound) as Hb'.
  destruct HI as [Hn Hd Hk Hw].
  pose proof (Forall2_length _ _ _ Hw) as Hl.
  assert (key ∈ item_keys st) as Hin by (apply Hd; eauto).
  unfold drift, reprioritised in *. cbn [weights weights_sum] in *.
  unfold np_assign, np_where in *.
  rewrite assign_where_from in * by exact Hl.
  rewrite length_replaced by exact Hl. split; [|reflexivity].
  apply (fadd_drift _ (sum (without key (item_keys st) (weights st))));
    [exact HK | | |].
  - apply (fsub_drift _ (sum (weights st))); [lia | exact HD | |].
    + apply (sum_without _ _ _ _ _ _ _ Hn Hw Hin Ha Hh).
    + apply sum_within; [now apply Forall_without|].
      pose proof (length_without key (item_keys st) (weights st)). lia.
  - rewrite (sum_replaced _ _ _ _ _ _ _ _ Hn Hw Hin Ha Hh).
    rewrite (sum_without _ _ _ _ _ _ _ Hn Hw Hin Ha Hh). reflexivity.
  - apply sum_within; [exact Hb'|].
    rewrite length_replaced by exact Hl. exact HN.
Qed.

Lemma drift_take_using_key (key : string) (st : State) (k : nat) :
  Inv priority_weight st -> (length (weights st) <= N)%nat ->
  (k <= K)%nat ->
  drift st <= bound k ->
  drift (snd (take_using_key priority_weight float key st)) <= bound (S k)
  /\ (length (weights (snd (take_using_key priority_weight float key st)))
      <= length (weights st))%nat.
Proof.
  intros HI HN HK HD.
  destruct (item_lookup_dict st !! key) as [a|] eqn:Hd.
  - destruct (inv_key _ _ HI _ _ Hd) as (it & Hh & _).
    rewrite (take_using_key_run _ _ _ _ Hd Hh). cbn [snd].
    apply (drift_taken key a it st k); assumption.
  - rewrite take_using_key_absent by exact Hd. cbn [snd].
    split; [|lia]. eapply Qle_trans; [exact HD | apply drift_bound_mono].
Qed.

Lemma drift__take_min (st : State) (k : nat) :
  Inv priority_weight st -> (length (weights st) <= N)%nat ->
  (k <= K)%nat ->
  drift st <= bound k ->
  drift (snd (_take_min priority_weight float st)) <= bound (S k)
  /\ (length (weights (snd (_take_min priority_weight float st)))
      <= length (weights st))%nat.
Proof.
  intros HI HN HK HD. unfold _take_min. bagm.
  assert (drift st <= bound (S k)) as HD'
    by (eapply Qle_trans; [exact HD | apply drift_bound_mono]).
  destruct (extract_min (ordered_items st)) as [[item rest]|]; simpl;
    [|split; [exact HD' | lia]].
  destruct (heap st !! item) as [it|]; simpl; [|split; [exact HD' | lia]].
  pose proof (drift_take_using_key (key it) (set_ordered_items rest st) k
                (Inv_set_ordered_items rest _ HI) HN HK HD) as H.
  destruct (take_using_key priority_weight float (key it)
              (set_ordered_items rest st)) as [[r|e] st'];
    simpl in *; exact H.
Qed.

Lemma drift_put (item : nat) (st : State) (k : nat) :
  Inv priority_weight st -> (length (weights st) < N)%nat ->
  (S k <= K)%nat ->
  drift st <= bound k ->
  drift (snd (put priority_weight float item st)) <= bound (S (S k))
  /\ (length (weights (snd (put priority_weight float item st)))
      <= S (length (weights st)))%nat.
Proof.
  intros HI HN HK HD. rewrite put_run.
  assert (drift st <= bound (S (S k))) as HD'.
  { eapply Qle_trans; [exact HD|].
    eapply Qle_trans; apply drift_bound_mono. }
  destruct (heap st !! item) as [it|] eqn:Hh; [|split; [exact HD' | simpl; lia]].
  destruct (negb _); [split; [exact HD' | simpl; lia]|].
  destruct (item_lookup_dict st !! key it) eqn:Hd;
    [split; [exact HD' | simpl; lia]|].
  pose proof (Inv_inserted _ _ _ HI Hh Hd) as HI'.
  pose proof (drift_inserted item it st k HI HN ltac:(lia) HD) as HDi.
  assert (length (weights (inserted priority_weight float item it st))
          = S (length (weights st))) as Hli.
  { simpl. rewrite length_app. simpl. lia. }
  destruct (capacity st <? _)%nat.
  - assert (length (weights (inserted priority_weight float item it st))
            <= N)%nat as HN' by lia.
    pose proof (drift__take_min _ (S k) HI' HN' HK HDi) as [H1 H2].
    destruct (_take_min priority_weight float
                (inserted priority_weight float item it st))
      as [[r|e] st']; simpl in *; (split; [exact H1 | lia]).
  - simpl snd. split; [|lia].
    eapply Qle_trans; [exact HDi | apply drift_bound_mono].
Qed.

Lemma drift_change_priority (key : string) (new_priority : Q) (st : State)
    (k : nat) :
  Inv priority_weight st -> (length (weights st) <= N)%nat ->
  (S k <= K)%nat ->
  drift st <= bound k ->
  drift (snd (change_priority priority_weight float GUI_USE_INTERFACE key
                new_priority st))
  <= bound (S (S k))
  /\ (length (weights
                (snd (change_priority priority_weight float
                        GUI_USE_INTERFACE key new_priority st)))
      <= length (weights st))%nat.
Proof.
  intros HI HN HK HD.
  destruct (item_lookup_dict st !! key) as [a|] eqn:Hd.
  - destruct (inv_key _ _ HI _ _ Hd) as (it & Hh & Hk).
    rewrite (change_priority_run _ _ _ _ _ Hd Hh Hk). simpl snd.
    destruct (drift_reprioritised key a it new_priority st k HI HN HK Hd Hh
                HD) as [H1 H2].
    split; [exact H1 | lia].
  - rewrite change_priority_absent by exact Hd. simpl. split; [|lia].
    eapply Qle_trans; [exact HD|].
    eapply Qle_trans; apply drift_bound_mono.
Qed.

Lemma drift_step (op : Op) (st : State) (k : nat) :
  Inv priority_weight st -> (length (weights st) < N)%nat ->
  (S k <= K)%nat ->
  drift st <= bound k ->
  drift (step priority_weight float GUI_USE_INTERFACE st op)
  <= bound (S (S k))
  /\ (length (weights (step priority_weight float GUI_USE_INTERFACE st op))
      <= S (length (weights st)))%nat.
Proof.
  intros HI HN HK HD. destruct op as [item|x|x new_priority]; cbn [step].
  - now apply drift_put.
  - destruct (drift_take_using_key x st k HI ltac:(lia) ltac:(lia) HD)
      as [H1 H2].
    split; [|lia].
    eapply Qle_trans; [exact H1 | apply drift_bound_mono].
  - destruct (drift_change_priority x new_priority st k HI ltac:(lia) HK
                HD) as [H1 H2].
    split; [exact H1 | lia].
Qed.

Lemma drift_run (ops : list Op) (st : State) (k : nat) :
  Inv priority_weight st ->
  (length (weights st) + length ops <= N)%nat ->
  (k + 2 * length ops <= K)%nat ->
  drift st <= bound k ->
  drift (run priority_weight float GUI_USE_INTERFACE ops st)
  <= bound (k + 2 * length ops).
Proof.
  revert st k.
  induction ops as [|op ops IH]; intros st k HI HN HK HD; simpl.
  - now rewrite Nat.add_0_r.
  - simpl in HN, HK.
    destruct (drift_step op st k HI ltac:(lia) ltac:(lia) HD) as [H1 H2].
    replace (k + S (length ops + S (length ops + 0)))%nat
      with (S (S k) + 2 * length ops)%nat by lia.
    apply IH; [now apply step_Inv | lia | simpl; lia | exact H1].
Qed.

End Drift.


Lemma clamp_bound (p : Q) : Qabs (clamp p) <= 1.
Proof.
  unfold clamp. destruct (Py.lt 1 p) eqn:E1; [discriminate|].
  destruct (Py.lt p 0) eqn:E2; [discriminate|].
  apply lt_false_iff in E1. apply lt_false_iff in E2.
  apply Qabs_Qle_condition. split; lra.
Qed.

(** *** Eviction *)

Lemma min_priority_le (q : list (Q * nat)) (m : Q) :
  min_priority q = Some m -> forall p x, In (p, x) q -> m <= p.
Proof.
  revert m. induction q as [|[p0 x0] q IH]; intros m Hm p x Hin;
    [inversion Hin|]. simpl in Hm.
  destruct (min_priority q) as [m'|] eqn:E.
  - injection Hm as <-. destruct (Qle_bool p0 m') eqn:L.
    + apply Qle_bool_iff in L. destruct Hin as [[= <- <-]|Hin].
      * apply Qle_refl.
      * eapply Qle_trans; [exact L|]. eapply IH; eauto.
    + assert (m' <= p0) as L'.
      { apply Qlt_le_weak, Qnot_le_lt. intros C.
        apply Qle_bool_iff in C. congruence. }
      destruct Hin as [[= <- <-]|Hin]; [exact L'|]. eapply IH; eauto.
  - injection Hm as <-. destruct Hin as [[= <- <-]|Hin].
    + apply Qle_refl.
    + destruct q as [|[p1 x1] q1]; [inversion Hin|].
      simpl in E. destruct (min_priority q1); discriminate.
Qed.

Lemma remove_first_spec (m : Q) (q rest : list (Q * nat)) (x : nat) :
  remove_first m q = Some (x, rest) ->
  exists p, In (p, x) q /\ p == m /\ length q = S (length rest).
Proof.
  revert rest. induction q as [|[p0 x0] q IH]; intros rest H; simpl in H;
    [discriminate|].
  destruct (Qeq_bool p0 m) eqn:E.
  - injection H as <- <-. exists p0. split; [now left|].
    split; [now apply Qeq_bool_iff | reflexivity].
  - destruct (remove_first m q) as [[f r']|] eqn:R; [|discriminate].
    injection H as <- <-. destruct (IH r' eq_refl) as (p & Hin & Hp & Hl).
    exists p. split; [now right|]. split; [assumption|]. simpl. now rewrite Hl.
Qed.

(** [extract_min] takes an entry of least priority off the queue. *)
Lemma extract_min_least (q rest : list (Q * nat)) (x : nat) :
  extract_min q = Some (x, rest) ->
  exists pm,
    In (pm, x) q /\ (forall p y, In (p, y) q -> pm <= p)
    /\ length q = S (length rest).
Proof.
  unfold extract_min. destruct (min_priority q) as [m|] eqn:Hm;
    [|discriminate].
  intros H. destruct (remove_first_spec _ _ _ _ H) as (p & Hin & Hp & Hl).
  exists p. split; [assumption|]. split; [|assumption].
  intros p' y Hy. rewrite Hp. eapply min_priority_le; eauto.
Qed.

Lemma take_using_key_dangling (key : string) (a : nat) (st : State) :
  item_lookup_dict st !! key = Some a -> heap st !! a = None ->
  fst (take_using_key priority_weight float key st) = Raise AttributeError.
Proof.
  intros Hd Hh. unfold take_using_key, _take_from_lookup_dict. bagm.
  rewrite Hd. simpl. rewrite Hd. simpl. rewrite Hh. reflexivity.
Qed.

(** What a [_take_min] that returned has done. *)
Lemma _take_min_run (st : State) (r : nat) (st' : State) :
  _take_min priority_weight float st = (Ok r, st') ->
  exists rest it a ia,
    extract_min (ordered_items st) = Some (r, rest)
    /\ heap st !! r = Some it
    /\ item_lookup_dict st !! key it = Some a
    /\ heap st !! a = Some ia
    /\ st' = taken priority_weight float (key it) ia (set_ordered_items rest st).
Proof.
  unfold _take_min. bagm.
  destruct (extract_min (ordered_items st)) as [[item rest]|];
    [|discriminate]. simpl.
  destruct (heap st !! item) as [it|] eqn:Hh; [|discriminate]. simpl.
  destruct (item_lookup_dict st !! key it) as [a|] eqn:Hd.
  - destruct (heap st !! a) as [ia|] eqn:Ha.
    + rewrite (take_using_key_run (key it) a ia (set_ordered_items rest st)
                 Hd Ha).
      intros [= <- <-]. exists rest, it, a, ia. repeat split; assumption.
    + pose proof (take_using_key_dangling (key it) a
                    (set_ordered_items rest st) Hd Ha) as F.
      destruct (take_using_key priority_weight float (key it)
                  (set_ordered_items rest st)) as [[x|e] s0];
        simpl in *; discriminate.
  - rewrite (take_using_key_absent (key it) (set_ordered_items rest st) Hd).
    discriminate.
Qed.

Lemma length_filter_ne (x : string) (l : list string) :
  NoDup l -> x ∈ l -> S (length (filter (fun k => k ≠ x) l)) = length l.
Proof.
  induction l as [|y l IH]; intros Hn Hx; [inversion Hx|].
  apply NoDup_cons in Hn as [Hy Hn].
  destruct (decide (y = x)) as [->|N].
  - rewrite filter_cons_False by (intros H; now apply H). simpl. f_equal.
    clear IH Hx. induction l as [|z l IH]; [reflexivity|].
    apply not_elem_of_cons in Hy as [Hz Hy].
    apply NoDup_cons in Hn as [_ Hn].
    rewrite filter_cons_True by congruence. simpl. f_equal. now apply IH.
  - apply elem_of_cons in Hx as [->|Hx]; [contradiction|].
    rewrite filter_cons_True by assumption. simpl. f_equal. now apply IH.
Qed.

(** C4 (as amended). Every [put] that returns returns the item that was
    put.  When the size exceeds the capacity after the insertion, it has
    taken an entry of least recorded priority off the ordered queue and has
    removed from the bag the element filed under the key of that entry's
    item.  When that key is not the key of the item put, the item put stays
    in the bag and the element removed is not the one returned; when it is
    the key of the item put, the item put is itself the element removed,
    and it is returned all the same. *)
Theorem put_over_capacity (item : nat) (st : State) (r : nat) (st' : State) :
  Inv priority_weight st ->
  put priority_weight float item st = (Ok r, st') ->
  r = item
  /\ ((capacity st < length (item_keys st) + 1)%nat ->
      exists it evicted it_e pm removed,
        heap st !! item = Some it
        /\ heap st !! evicted = Some it_e
        /\ In (pm, evicted)
             (ordered_items st ++ [(priority (budget it), item)])
        /\ (forall p x,
              In (p, x) (ordered_items st ++ [(priority (budget it), item)]) ->
              pm <= p)
        /\ <[key it := item]> (item_lookup_dict st) !! key it_e
           = Some removed
        /\ item_lookup_dict st'
           = delete (key it_e) (<[key it := item]> (item_lookup_dict st))
        /\ item_lookup_dict st' !! key it_e = None
        /\ (key it_e ∉ item_keys st')
        /\ length (ordered_items st') = length (ordered_items st)
        /\ length (item_keys st') = length (item_keys st)
        /\ (key it_e <> key it ->
            removed <> r
            /\ item_lookup_dict st' !! key it = Some item
            /\ key it ∈ item_keys st')
        /\ (key it_e = key it ->
            removed = r /\ item_lookup_dict st' !! key it = None)).
Proof.
  intros HI. rewrite put_run.
  destruct (heap st !! item) as [it|] eqn:Hh; [|discriminate].
  destruct (negb _); [discriminate|].
  destruct (item_lookup_dict st !! key it) eqn:Hd; [discriminate|].
  pose proof (Inv_inserted _ _ _ HI Hh Hd) as HI'.
  destruct (capacity st <? length (item_keys st ++ [key it]))%nat eqn:Hcap.
  - destruct (_take_min priority_weight float
                (inserted priority_weight float item it st))
      as [[x|e] s0] eqn:Hmin; [|discriminate].
    intros [= <- <-]. split; [reflexivity|]. intros _.
    destruct (_take_min_run _ _ _ Hmin)
      as (rest & it_e & a & ia & Hex & Hhe & Hda & Hha & ->).
    destruct (extract_min_least _ _ _ Hex) as (pm & Hin & Hleast & Hlen).
    exists it, x, it_e, pm, a. simpl in *.
    split; [reflexivity|]. split; [exact Hhe|]. split; [exact Hin|].
    split; [exact Hleast|]. split; [exact Hda|]. split; [reflexivity|].
    split; [apply lookup_delete_eq|].
    unfold np_delete, np_where. rewrite delete_where_from by reflexivity.
    rewrite without_keys. split.
    { intros Hk. apply list_elem_of_filter in Hk as [Hk _]. now apply Hk. }
    unfold insert_object in Hlen. rewrite length_app in Hlen. simpl in Hlen.
    split; [lia|]. split.
    { assert (key it_e ∈ item_keys st ++ [key it]) as Hmem.
      { apply (inv_dom _ _ HI'). simpl. eauto. }
      pose proof (length_filter_ne _ _ (inv_nodup _ _ HI') Hmem) as Hf.
      simpl in Hf. rewrite length_app in Hf. simpl in Hf. lia. }
    split.
    + intros Hne. split; [|split].
      * intros ->. rewrite lookup_insert_ne in Hda by congruence.
        destruct (inv_key _ _ HI _ _ Hda) as (i & Hi & Hki). congruence.
      * rewrite lookup_delete_ne by exact Hne. apply lookup_insert_eq.
      * apply list_elem_of_filter. split; [congruence|].
        apply elem_of_app. right. apply list_elem_of_singleton. reflexivity.
    + intros Heq. rewrite Heq in *. rewrite lookup_insert_eq in Hda.
      split; [congruence | apply lookup_delete_eq].
  - intros [= <- <-]. split; [reflexivity|]. intros Hover.
    apply Nat.ltb_ge in Hcap. rewrite length_app in Hcap. simpl in Hcap. lia.
Qed.

End BagInvariant.



Lemma put_over_capacity_witness :
  (capacity bag_holding_a < length (item_keys bag_holding_a) + 1)%nat
  /\ exists removed,
       item_lookup_dict bag_holding_a !! "a" = Some removed
       /\ removed <> 1%nat
       /\ item_lookup_dict (snd (put (fun p => p) Py.binary64 1 bag_holding_a))
            !! "a" = None
       /\ item_lookup_dict (snd (put (fun p => p) Py.binary64 1 bag_holding_a))
            !! "b" = Some 1%nat.
Proof.
  assert (capacity bag_holding_a < length (item_keys bag_holding_a) + 1)%nat
    as Hover by (vm_compute; lia).
  split; [exact Hover|].
  destruct (put_over_capacity (fun p => p) Py.binary64 1 bag_holding_a 1
              (snd (put (fun p => p) Py.binary64 1 bag_holding_a)))
    as [_ H].
  - unfold bag_holding_a. apply put_Inv, Inv_new_Bag.
  - vm_compute. reflexivity.
  - exists 0%nat. vm_compute. repeat split; try reflexivity. discriminate.
Defined.

(** C4, the claim as stated fails: the bag of capacity 1 holds the item [a]
    (address 0, priority 1/5); putting the item [b] (address 1, priority
    9/10) evicts [a], and the call returns [b], the item that was put. *)
Lemma put_returns_the_item_put_not_the_evicted :
  match put (fun p => p) Py.binary64 1 bag_holding_a with
  | (Ok returned, st') =>
      item_lookup_dict bag_holding_a !! "a" = Some 0%nat
      /\ item_keys bag_holding_a = ["a"]
      /\ item_keys st' = ["b"]
      /\ item_lookup_dict st' !! "a" = None
      /\ returned = 1%nat /\ returned <> 0%nat
  | _ => False
  end.
Proof. vm_compute. repeat split; try reflexivity. discriminate. Qed.

(** * Further properties of the code *)

(** ** The truth-value calculus *)

Lemma band3 (a b c : Q) : band [a; b; c] == a * b * c.
Proof. unfold band; simpl. ring. Qed.

Lemma band4 (a b c d : Q) : band [a; b; c; d] == a * b * c * d.
Proof. unfold band; simpl. ring. Qed.

Lemma bor2 (a b : Q) : bor [a; b] == 1 - (1 - a) * (1 - b).
Proof. unfold bor; simpl. ring. Qed.

Lemma mult_unit (a b : Q) : 0 <= a <= 1 -> 0 <= b <= 1 -> 0 <= a * b <= 1.
Proof. intros Ha Hb. split; nra. Qed.

Section TruthCalculus.

Variable k : Q.

(** X2. Intersection and union do not depend on the order of the two
    premises, and neither does the frequency of deduction and of
    resemblance. *)
Theorem truth_functions_symmetries (f1 c1 f2 c2 : Q) :
  tv_eq (F_Intersection f1 c1 f2 c2) (F_Intersection f2 c2 f1 c1)
  /\ tv_eq (F_Union f1 c1 f2 c2) (F_Union f2 c2 f1 c1)
  /\ frequency (F_Deduction f1 c1 f2 c2)
     == frequency (F_Deduction f2 c2 f1 c1)
  /\ frequency (F_Resemblance f1 c1 f2 c2)
     == frequency (F_Resemblance f2 c2 f1 c1).
Proof.
  repeat split;
    unfold F_Deduction, F_Resemblance, F_Intersection, F_Union, band, bor;
    simpl; ring.
Qed.

(** X4. The rules whose negative evidence is zero carry no frequency of
    their own: whenever [F_Conversion] or [F_Exemplification] returns, the
    frequency is 1; whenever [F_Contraposition] returns, the frequency is 0,
    unless the evidence (1 - f) * c is zero, when it is 1.  The only error
    any of them raises is the division by zero. *)
Theorem evidence_only_rules_frequency (f1 c1 f2 c2 : Q) :
  match F_Conversion k f1 c1 with
  | Py.Ok t => frequency t = 1
  | Py.Raise e => e = Py.ZeroDivisionError
  end
  /\ match F_Exemplification k f1 c1 f2 c2 with
     | Py.Ok t => frequency t = 1
     | Py.Raise e => e = Py.ZeroDivisionError
     end
  /\ match F_Contraposition k f1 c1 with
     | Py.Ok t =>
         frequency t == (if Qeq_bool ((1 - f1) * c1) 0 then 1 else 0)
     | Py.Raise e => e = Py.ZeroDivisionError
     end.
Proof.
  unfold F_Conversion, F_Exemplification, F_Contraposition,
    get_truthvalue_from_evidence, get_confidence_from_evidence, Py.div.
  rewrite !Qeq_bool_refl. split; [|split].
  - destruct (Qeq_bool (band [f1; c1] + k) 0); reflexivity.
  - destruct (Qeq_bool (band [f1; f2; c1; c2] + k) 0); reflexivity.
  - assert (Qeq_bool 0 (band [bnot f1; c1]) = Qeq_bool ((1 - f1) * c1) 0)
      as E.
    { unfold band, bnot. simpl.
      destruct (Qeq_bool ((1 - f1) * c1) 0) eqn:E.
      - apply Qeq_bool_iff in E. apply Qeq_bool_iff. rewrite <- E. ring.
      - apply Qeq_bool_false_iff in E. apply Qeq_bool_false_iff.
        intros Z. apply E. rewrite Z. ring. }
    rewrite E. destruct (Qeq_bool ((1 - f1) * c1) 0); simpl.
    + destruct (Qeq_bool (band [bnot f1; c1] + k) 0); reflexivity.
    + destruct (Qeq_bool (band [bnot f1; c1]) 0); simpl; [reflexivity|].
      destruct (Qeq_bool (band [bnot f1; c1] + k) 0); simpl;
        [reflexivity|]. unfold Qdiv. ring.
Qed.

(** X3. Truth values stay in range: for operands in [0, 1] the functions
    that only multiply and complement (negation, deduction, analogy,
    resemblance, intersection, union, difference) return a frequency and a
    confidence in [0, 1]. *)
Theorem truth_values_stay_in_range (f1 c1 f2 c2 : Q) :
  0 <= f1 <= 1 -> 0 <= c1 <= 1 -> 0 <= f2 <= 1 -> 0 <= c2 <= 1 ->
  Forall in_unit_interval
    [F_Negation f1 c1; F_Deduction f1 c1 f2 c2; F_Analogy f1 c1 f2 c2;
     F_Resemblance f1 c1 f2 c2; F_Intersection f1 c1 f2 c2;
     F_Union f1 c1 f2 c2; F_Difference f1 c1 f2 c2].
Proof.
  intros Hf1 Hc1 Hf2 Hc2.
  pose proof (mult_unit _ _ Hf1 Hf2) as Hff.
  pose proof (mult_unit _ _ Hc1 Hc2) as Hcc.
  assert (0 <= 1 - (1 - f1) * (1 - f2) <= 1) as Hor by (split; nra).
  pose proof (mult_unit _ _ Hff Hcc) as H1.
  pose proof (mult_unit _ _ Hf2 Hcc) as H3.
  pose proof (mult_unit _ _ Hor Hcc) as H4.
  assert (0 <= f1 * Py.not_ f2 <= 1) as H7
    by (unfold Py.not_; destruct (Qeq_bool f2 0); lra).
  repeat constructor; simpl;
    rewrite ?band2, ?band3, ?band4, ?bor2; lra.
Qed.

End TruthCalculus.

Lemma truth_values_stay_in_range_witness :
  Forall in_unit_interval
    [F_Negation 1 (9 # 10); F_Deduction 1 (9 # 10) (4 # 5) (9 # 10);
     F_Analogy 1 (9 # 10) (4 # 5) (9 # 10);
     F_Resemblance 1 (9 # 10) (4 # 5) (9 # 10);
     F_Intersection 1 (9 # 10) (4 # 5) (9 # 10);
     F_Union 1 (9 # 10) (4 # 5) (9 # 10);
     F_Difference 1 (9 # 10) (4 # 5) (9 # 10)].
Proof.
  apply (truth_values_stay_in_range 1 (9 # 10) (4 # 5) (9 # 10));
    split; discriminate.
Defined.

(** X5. The expectation of a truth value in range lies in [0, 1]; it is
    1/2 when the confidence is 0 and when the frequency is 1/2.  [Decision]
    pursues no goal at a threshold of 1/2 or more, and none at any
    threshold that is not negative when the confidence is 0 or the
    frequency is 1/2. *)
Theorem Expectation_and_Decision (T f c : Q) :
  0 <= f <= 1 -> 0 <= c <= 1 ->
  0 <= Expectation f c <= 1
  /\ Expectation f 0 == 1 # 2
  /\ Expectation (1 # 2) c == 1 # 2
  /\ ((1 # 2) <= T -> Decision T f c = false)
  /\ (0 <= T ->
      Decision T f 0 = false /\ Decision T (1 # 2) c = false).
Proof.
  intros Hf Hc.
  assert (forall g d, Decision T g d = false
                      <-> Qabs (Expectation g d - (1 # 2)) <= T) as HD.
  { intros g d. unfold Decision, Py.lt. rewrite negb_false_iff.
    apply Qle_bool_iff. }
  assert (forall g d, Expectation g d - (1 # 2) == d * (g - (1 # 2))) as HE
    by (intros g d; unfold Expectation; ring).
  split; [unfold Expectation; split; nra|].
  split; [unfold Expectation; ring|].
  split; [unfold Expectation; ring|].
  split.
  - intros HT. apply HD. rewrite HE. apply Qabs_Qle_condition. split; nra.
  - intros HT. split; apply HD; rewrite HE; apply Qabs_Qle_condition;
      split; lra.
Qed.

Lemma Expectation_and_Decision_witness :
  0 <= Expectation (4 # 5) (9 # 10) <= 1
  /\ Expectation (4 # 5) 0 == 1 # 2
  /\ Expectation (1 # 2) (9 # 10) == 1 # 2
  /\ ((1 # 2) <= 1 # 5 -> Decision (1 # 5) (4 # 5) (9 # 10) = false)
  /\ (0 <= 1 # 5 ->
      Decision (1 # 5) (4 # 5) 0 = false
      /\ Decision (1 # 5) (1 # 2) (9 # 10) = false).
Proof.
  apply (Expectation_and_Decision (1 # 5) (4 # 5) (9 # 10));
    split; discriminate.
Defined.

(** X6. Projection only loses confidence.  Unless the belief's time, the
    target time and the current cycle all coincide, [F_Projection] returns;
    it keeps the frequency, the confidence it returns lies between 0 and
    the given one, and it is 0 as soon as the belief's time or the target
    time is the current cycle. *)
Theorem F_Projection_decays (T_c : Z) (f c : Q) (t_B t_T : Z) :
  0 <= c -> t_B <> T_c \/ t_T <> T_c ->
  exists r,
    F_Projection T_c f c t_B t_T = Py.Ok r
    /\ frequency r = f /\ 0 <= confidence r <= c
    /\ (t_B = T_c \/ t_T = T_c -> confidence r == 0).
Proof.
  intros Hc Hne. unfold F_Projection.
  set (a := Z.abs (t_B - t_T)).
  set (b := (Z.abs (t_B - T_c) + Z.abs (t_T - T_c))%Z).
  assert (0 <= a <= b)%Z as Hab by (unfold a, b; lia).
  assert (0 < b)%Z as Hb by (unfold b; lia).
  assert (0 < inject_Z b) as Qb
    by (change 0 with (inject_Z 0); now rewrite <- Zlt_Qlt).
  assert (0 <= inject_Z a) as Qa
    by (change 0 with (inject_Z 0); rewrite <- Zle_Qle; lia).
  assert (inject_Z a <= inject_Z b) as Qab by (rewrite <- Zle_Qle; lia).
  rewrite div_ok by lra. eexists. split; [reflexivity|]. simpl.
  split; [reflexivity|].
  assert (0 <= inject_Z a / inject_Z b <= 1) as Hk.
  { split; [apply Qle_shift_div_l | apply Qle_shift_div_r]; lra. }
  split; [split; nra|].
  intros Heq.
  assert (a = b) as -> by (unfold a, b; lia).
  assert (inject_Z b / inject_Z b == 1) as -> by (field; lra). ring.
Qed.

Lemma F_Projection_decays_witness :
  exists r,
    F_Projection 5 (3 # 10) (7 # 10) 3 5 = Py.Ok r
    /\ frequency r = 3 # 10 /\ 0 <= confidence r <= 7 # 10
    /\ (3%Z = 5%Z \/ 5%Z = 5%Z -> confidence r == 0).
Proof.
  apply (F_Projection_decays 5 (3 # 10) (7 # 10) 3 5).
  - discriminate.
  - left. discriminate.
Defined.

(** ** The inference rules *)

(** X7. Revision cannot absorb full confidence: if either premise has
    confidence 1, the conversion of its truth value to evidence divides by
    zero and [Revision] raises, leaving the state as it was. *)
Theorem Revision_raises_at_full_confidence (k : Q) (j1 j2 : Sentence)
    (tv1 tv2 : TruthValue) (w : World) :
  str (statement j1) = str (statement j2) ->
  value j1 = Some tv1 -> value j2 = Some tv2 ->
  confidence tv1 == 1 \/ confidence tv2 == 1 ->
  Rules.Revision k j1 j2 w = (Py.Raise Py.ZeroDivisionError, w).
Proof.
  intros Heq Hv1 Hv2 Hc.
  unfold Rules.Revision, Rules.getevidence_from2sentences,
    getevidentialvalues_from2sentences, getevidentialvalues_fromsentence.
  rewrite Heq, String.eqb_refl, Hv1, Hv2. interp.
  unfold get_evidence_fromfreqconf.
  destruct (Qeq_bool (1 - confidence tv1) 0) eqn:E1.
  - apply Qeq_bool_iff in E1.
    rewrite (div_by_zero (k * frequency tv1 * confidence tv1) _ E1).
    reflexivity.
  - apply Qeq_bool_false_iff in E1.
    destruct Hc as [Hc|Hc]; [exfalso; apply E1; rewrite Hc; reflexivity|].
    rewrite (div_ok (k * frequency tv1 * confidence tv1) _ E1).
    rewrite (div_ok (k * confidence tv1) _ E1). interp.
    assert (1 - confidence tv2 == 0) as E2 by (rewrite Hc; reflexivity).
    rewrite (div_by_zero (k * frequency tv2 * confidence tv2) _ E2).
    reflexivity.
Qed.

Lemma Revision_raises_at_full_confidence_witness :
  Rules.Revision 1 (input_judgment 7 A_inh_B 1 1 None)
    (input_judgment 8 A_inh_B 1 (9 # 10) None) (world_at 10 0)
  = (Py.Raise Py.ZeroDivisionError, world_at 10 0).
Proof.
  apply (Revision_raises_at_full_confidence 1
           (input_judgment 7 A_inh_B 1 1 None)
           (input_judgment 8 A_inh_B 1 (9 # 10) None)
           (mkTruthValue 1 1) (mkTruthValue 1 (9 # 10)) (world_at 10 0)).
  - reflexivity.
  - reflexivity.
  - reflexivity.
  - left. reflexivity.
Defined.

(** X8. Eternalization of a judgment with a non-negative confidence
    returns an eternal judgment of the same statement and frequency, with
    the confidence 1 / (k + c), which is positive and at most 1 / k; of a
    question it builds no result and raises at the unbound name. *)
Theorem Eternalization_spec (k : Q) (j : Sentence) (tv : TruthValue)
    (w : World) :
  0 < k -> type_ j = Judgment -> value j = Some tv -> 0 <= confidence tv ->
  (exists r w' tv',
     Rules.Eternalization k j w = (Py.Ok r, w')
     /\ type_ r = Judgment /\ statement r = statement j
     /\ occurrence_time (stamp r) = None
     /\ value r = Some tv'
     /\ frequency tv' = frequency tv
     /\ confidence tv' == 1 / (k + confidence tv)
     /\ 0 < confidence tv' <= 1 / k)
  /\ (forall q w0,
        type_ q = Question ->
        Rules.Eternalization k q w0 = (Py.Raise Py.UnboundLocalError, w0)).
Proof.
  intros Hk Ht Hv Hc. split.
  - unfold Rules.Eternalization, getevidentialvalues_fromsentence,
      F_Eternalization.
    rewrite Ht, Hv. interp. rewrite div_ok by lra.
    unfold new_Judgment, new_Stamp. interp.
    eexists _, _, _. split; [reflexivity|]. simpl.
    repeat split; try reflexivity.
    + apply Qlt_shift_div_l; lra.
    + apply Qle_shift_div_r; [lra|].
      assert (1 / k * (k + confidence tv) == 1 + confidence tv / k) as ->
        by (field; lra).
      assert (0 <= confidence tv / k) by (apply Qle_shift_div_l; lra). lra.
  - intros q w0 Hq. unfold Rules.Eternalization. rewrite Hq. reflexivity.
Qed.

Lemma Eternalization_spec_witness :
  exists r w' tv',
    Rules.Eternalization 1
      (input_judgment 7 A_inh_B (3 # 10) (7 # 10) (Some 3%Z)) (world_at 10 5)
    = (Py.Ok r, w')
    /\ occurrence_time (stamp r) = None
    /\ value r = Some tv'
    /\ confidence tv' == 1 / (1 + (7 # 10)).
Proof.
  destruct (Eternalization_spec 1
              (input_judgment 7 A_inh_B (3 # 10) (7 # 10) (Some 3%Z))
              (mkTruthValue (3 # 10) (7 # 10)) (world_at 10 5))
    as [(r & w' & tv' & E & _ & _ & T & V & _ & C & _) _].
  - reflexivity.
  - reflexivity.
  - reflexivity.
  - discriminate.
  - exists r, w', tv'. split; [exact E|]. split; [exact T|].
    split; [exact V | exact C].
Defined.

(** X9. What the immediate rules do with the occurrence time of a
    judgment: the negation and the conversion carry it over, the
    contraposition is eternal whatever the premise was; only the conversion
    is marked as coming from a conversion. *)
Theorem immediate_rules_occurrence_time (k : Q) (j : Sentence) (a : nat)
    (st : string) (s p : Term) (c : Copula) (conn : option TermConnector)
    (tv : TruthValue) (w : World) :
  0 < k ->
  type_ j = Judgment ->
  statement j = StatementTerm a st [s; p] (Some c) conn ->
  value j = Some tv ->
  0 <= frequency tv <= 1 -> 0 <= confidence tv ->
  exists neg cnv cnt w1 w2 w3,
    Rules.Negation j w = (Py.Ok neg, w1)
    /\ Rules.Conversion k j w = (Py.Ok cnv, w2)
    /\ Rules.Contraposition k j w = (Py.Ok cnt, w3)
    /\ occurrence_time (stamp neg) = occurrence_time (stamp j)
    /\ occurrence_time (stamp cnv) = occurrence_time (stamp j)
    /\ occurrence_time (stamp cnt) = None
    /\ from_conversion (stamp cnv) = true
    /\ from_conversion (stamp neg) = false
    /\ from_conversion (stamp cnt) = false.
Proof.
  intros Hk Ht Hs Hv [Hf0 Hf1] Hc.
  unfold Rules.Negation, Rules.Conversion, Rules.Contraposition,
    subject_term, predicate_term, get_copula,
    getevidentialvalues_fromsentence.
  rewrite Hs, Ht, Hv. interp.
  rewrite !Statement_run by (left + right; reflexivity).
  destruct (F_Conversion_ok k Hk _ _ Hf0 Hc) as [t1 ->].
  destruct (F_Contraposition_ok k Hk _ _ Hf1 Hc) as [t2 ->].
  unfold new_Judgment, new_Stamp. interp.
  eexists _, _, _, _, _, _. repeat split; reflexivity.
Qed.

Lemma immediate_rules_occurrence_time_witness :
  exists neg cnv cnt w1 w2 w3,
    Rules.Negation (input_judgment 7 A_imp_B (1 # 2) (9 # 10) (Some 3%Z))
      (world_at 10 5) = (Py.Ok neg, w1)
    /\ Rules.Conversion 1
         (input_judgment 7 A_imp_B (1 # 2) (9 # 10) (Some 3%Z))
         (world_at 10 5) = (Py.Ok cnv, w2)
    /\ Rules.Contraposition 1
         (input_judgment 7 A_imp_B (1 # 2) (9 # 10) (Some 3%Z))
         (world_at 10 5) = (Py.Ok cnt, w3)
    /\ occurrence_time (stamp neg) = Some 3%Z
    /\ occurrence_time (stamp cnv) = Some 3%Z
    /\ occurrence_time (stamp cnt) = None
    /\ from_conversion (stamp cnv) = true
    /\ from_conversion (stamp neg) = false
    /\ from_conversion (stamp cnt) = false.
Proof.
  apply (immediate_rules_occurrence_time 1
           (input_judgment 7 A_imp_B (1 # 2) (9 # 10) (Some 3%Z)) 2
           (statement_string Implication (atom 0 "A") (atom 1 "B"))
           (atom 0 "A") (atom 1 "B") Implication None
           (mkTruthValue (1 # 2) (9 # 10)) (world_at 10 5)).
  - reflexivity.
  - reflexivity.
  - reflexivity.
  - reflexivity.
  - split; discriminate.
  - discriminate.
Defined.

(** *** The image rules *)

Lemma CompoundTerm_image_run (l : list Term) (w : World) :
  exists s,
    CompoundTerm_ l (Some ExtensionalImage) w
    = (Py.Ok (CompoundTerm (next_addr w) s l (Some ExtensionalImage)),
       bump_addr w).
Proof.
  unfold CompoundTerm_, new_CompoundTerm, CompoundTerm_init.
  change (TermConnector.is_order_invariant ExtensionalImage) with false.
  rewrite andb_false_r.
  unfold mbind, mret, Interp_bind, Interp_ret, lift, alloc. cbn.
  eexists. reflexivity.
Qed.

(** The subterms of the image at a position of the product: the relation,
    then the product's subterms with the placeholder at that position. *)
Lemma image_subterms_insert (ph R : Term) (l : list Term) (i : nat) :
  (i < length l)%nat -> Rules.image_subterms ph R l i = R :: <[i := ph]> l.
Proof.
  intros Hi. unfold Rules.image_subterms. f_equal.
  apply list_eq. intros n. rewrite list_lookup_imap.
  destruct (decide (i = n)) as [->|N].
  - rewrite list_lookup_insert_eq by assumption.
    destruct (l !! n) eqn:E; simpl.
    + now rewrite Nat.eqb_refl.
    + apply lookup_ge_None in E. lia.
  - rewrite list_lookup_insert_ne by assumption.
    destruct (l !! n); simpl; [|reflexivity].
    apply Nat.eqb_neq in N. now rewrite N.
Qed.

(** A loop over the positions of a list whose body always returns, returns
    one result per element. *)
Lemma mapM_imap_spec {A B} (f : nat * A -> Interp B)
    (P : nat -> A -> B -> Prop) :
  (forall i x w, exists y w', f (i, x) w = (Py.Ok y, w') /\ P i x y) ->
  forall l n w, exists ys w',
    mapM f (imap (fun i t => (n + i, t)%nat) l) w = (Py.Ok ys, w')
    /\ length ys = length l
    /\ forall i x, l !! i = Some x ->
         exists y, ys !! i = Some y /\ P (n + i)%nat x y.
Proof.
  intros Hf. induction l as [|x l IH]; intros n w.
  - exists [], w. split; [reflexivity|]. split; [reflexivity|].
    intros i y H. discriminate.
  - simpl. destruct (Hf (n + 0)%nat x w) as (y & w1 & E & Hy).
    unfold mbind, mret, Interp_bind, Interp_ret. rewrite E.
    destruct (IH (S n) w1) as (ys & w2 & E2 & Hl & Hys).
    assert (imap ((fun i t => ((n + i)%nat, t)) ∘ S) l
            = imap (fun i t => ((S n + i)%nat, t)) l) as ->.
    { apply imap_ext. intros i z _. simpl. f_equal. lia. }
    unfold mbind, mret, Interp_bind, Interp_ret in E2. rewrite E2.
    exists (y :: ys), w2. split; [reflexivity|].
    split; [simpl; now rewrite Hl|].
    intros [|i] z Hz; simpl in *.
    + injection Hz as <-. eauto.
    + destruct (Hys i z Hz) as (y' & Hy' & HP). exists y'.
      split; [assumption|].
      now replace (n + S i)%nat with (S n + i)%nat by lia.
Qed.

(** X10. The extensional image of a judgment whose subject is a compound
    of n subterms and whose predicate is R: the rule returns n judgments,
    one per subterm in order; the i-th has the i-th subterm as subject,
    the copula of inheritance, and as predicate an extensional image whose
    subterms are R followed by the compound's subterms with the placeholder
    at position i; each carries the premise's truth value and occurrence
    time. *)
Theorem ExtensionalImage_one_per_component (ph : Term) (j : Sentence)
    (a a0 : nat) (st st0 : string) (l : list Term)
    (conn0 conn : option TermConnector) (R : Term) (c : option Copula)
    (tv : TruthValue) (w : World) :
  type_ j = Judgment -> value j = Some tv ->
  statement j = StatementTerm a st [CompoundTerm a0 st0 l conn0; R] c conn ->
  exists results w',
    Rules.ExtensionalImage ph j w = (Py.Ok results, w')
    /\ length results = length l
    /\ forall i t, l !! i = Some t ->
         exists r image,
           results !! i = Some r
           /\ subterms (statement r) = [t; image]
           /\ copula (statement r) = Some Inheritance
           /\ connector image = Some ExtensionalImage
           /\ subterms image = R :: <[i := ph]> l
           /\ value r = Some (mkTruthValue (frequency tv) (confidence tv))
           /\ occurrence_time (stamp r) = occurrence_time (stamp j).
Proof.
  intros Ht Hv Hs.
  unfold Rules.ExtensionalImage, subject_term, predicate_term,
    Rules.subterms_of. rewrite Hs.
  unfold mbind, mret, Interp_bind, Interp_ret, lift.
  cbn [get_subject_term get_predicate_term subterms]. cbv beta iota.
  match goal with |- context [mapM ?f _ w] =>
    destruct (mapM_imap_spec f
      (fun i t r => exists image,
         subterms (statement r) = [t; image]
         /\ copula (statement r) = Some Inheritance
         /\ connector image = Some ExtensionalImage
         /\ subterms image = Rules.image_subterms ph R l i
         /\ value r = Some (mkTruthValue (frequency tv) (confidence tv))
         /\ occurrence_time (stamp r) = occurrence_time (stamp j)))
      with (l := l) (n := O) (w := w) as (ys & w' & E & Hl & Hys)
  end.
  - intros i x w0.
    destruct (CompoundTerm_image_run (Rules.image_subterms ph R l i) w0)
      as (s & Ec).
    unfold mbind, mret, Interp_bind, Interp_ret. rewrite Ec.
    rewrite Statement_run by (left; reflexivity).
    rewrite Ht. unfold getevidentialvalues_fromsentence. rewrite Hv.
    unfold new_Judgment, new_Stamp, fresh_stamp_id, mbind, mret,
      Interp_bind, Interp_ret.
    eexists _, _. split; [reflexivity|].
    eexists. repeat split; reflexivity.
  - exists ys, w'. split; [exact E|]. split; [exact Hl|].
    intros i t Hi.
    destruct (Hys i t Hi) as (r & Hr & image & H1 & H2 & H3 & H4 & H5 & H6).
    exists r, image.
    rewrite <- image_subterms_insert
      by (apply lookup_lt_Some in Hi; exact Hi).
    repeat split; assumption.
Qed.

Lemma ExtensionalImage_one_per_component_witness :
  exists results w',
    Rules.ExtensionalImage placeholder
      (input_judgment 7 product_inh_R 1 (9 # 10) None) (world_at 10 0)
    = (Py.Ok results, w')
    /\ length results = 2%nat.
Proof.
  destruct (ExtensionalImage_one_per_component placeholder
              (input_judgment 7 product_inh_R 1 (9 # 10) None) 4 2
              (statement_string Inheritance product_A_B (atom 3 "R"))
              "(*,A,B)" [atom 0 "A"; atom 1 "B"] (Some Product) None
              (atom 3 "R") (Some Inheritance) (mkTruthValue 1 (9 # 10))
              (world_at 10 0))
    as (results & w' & E & L & _).
  - reflexivity.
  - reflexivity.
  - reflexivity.
  - exists results, w'. split; [exact E | exact L].
Defined.

(** X11. The intensional image of a judgment whose predicate is a compound
    of n subterms and whose subject is R: the rule returns n judgments, one
    per subterm in order; the i-th has the i-th subterm as predicate and as
    subject an image whose subterms are R followed by the compound's
    subterms with the placeholder at position i.  The image term is built
    with the connector of the extensional image. *)
Theorem IntensionalImage_one_per_component (ph : Term) (j : Sentence)
    (a a0 : nat) (st st0 : string) (l : list Term)
    (conn0 conn : option TermConnector) (R : Term) (c : option Copula)
    (tv : TruthValue) (w : World) :
  type_ j = Judgment -> value j = Some tv ->
  statement j = StatementTerm a st [R; CompoundTerm a0 st0 l conn0] c conn ->
  exists results w',
    Rules.IntensionalImage ph j w = (Py.Ok results, w')
    /\ length results = length l
    /\ forall i t, l !! i = Some t ->
         exists r image,
           results !! i = Some r
           /\ subterms (statement r) = [image; t]
           /\ copula (statement r) = Some Inheritance
           /\ connector image = Some ExtensionalImage
           /\ subterms image = R :: <[i := ph]> l
           /\ value r = Some (mkTruthValue (frequency tv) (confidence tv))
           /\ occurrence_time (stamp r) = occurrence_time (stamp j).
Proof.
  intros Ht Hv Hs.
  unfold Rules.IntensionalImage, subject_term, predicate_term,
    Rules.subterms_of. rewrite Hs.
  unfold mbind, mret, Interp_bind, Interp_ret, lift.
  cbn [get_subject_term get_predicate_term subterms]. cbv beta iota.
  match goal with |- context [mapM ?f _ w] =>
    destruct (mapM_imap_spec f
      (fun i t r => exists image,
         subterms (statement r) = [image; t]
         /\ copula (statement r) = Some Inheritance
         /\ connector image = Some ExtensionalImage
         /\ subterms image = Rules.image_subterms ph R l i
         /\ value r = Some (mkTruthValue (frequency tv) (confidence tv))
         /\ occurrence_time (stamp r) = occurrence_time (stamp j)))
      with (l := l) (n := O) (w := w) as (ys & w' & E & Hl & Hys)
  end.
  - intros i x w0.
    destruct (CompoundTerm_image_run (Rules.image_subterms ph R l i) w0)
      as (s & Ec).
    unfold mbind, mret, Interp_bind, Interp_ret. rewrite Ec.
    rewrite Statement_run by (left; reflexivity).
    rewrite Ht. unfold getevidentialvalues_fromsentence. rewrite Hv.
    unfold new_Judgment, new_Stamp, fresh_stamp_id, mbind, mret,
      Interp_bind, Interp_ret.
    eexists _, _. split; [reflexivity|].
    eexists. repeat split; reflexivity.
  - exists ys, w'. split; [exact E|]. split; [exact Hl|].
    intros i t Hi.
    destruct (Hys i t Hi) as (r & Hr & image & H1 & H2 & H3 & H4 & H5 & H6).
    exists r, image.
    rewrite <- image_subterms_insert
      by (apply lookup_lt_Some in Hi; exact Hi).
    repeat split; assumption.
Qed.

Lemma IntensionalImage_one_per_component_witness :
  exists results w',
    Rules.IntensionalImage placeholder
      (input_judgment 7 R_inh_product 1 (9 # 10) None) (world_at 10 0)
    = (Py.Ok results, w')
    /\ length results = 2%nat.
Proof.
  destruct (IntensionalImage_one_per_component placeholder
              (input_judgment 7 R_inh_product 1 (9 # 10) None) 4 2
              (statement_string Inheritance (atom 3 "R") product_A_B)
              "(*,A,B)" [atom 0 "A"; atom 1 "B"] (Some Product) None
              (atom 3 "R") (Some Inheritance) (mkTruthValue 1 (9 # 10))
              (world_at 10 0))
    as (results & w' & E & L & _).
  - reflexivity.
  - reflexivity.
  - reflexivity.
  - exists results, w'. split; [exact E | exact L].
Defined.

(** *** The syllogisms *)

(** X12. The exemplification with the premises swapped concludes the
    converse of the deduction: from the judgments (s1 c p1) and (s2 c p2)
    with values in range, [Deduction j1 j2] concludes the statement of s2
    and p1, [Exemplification j2 j1] the statement of p1 and s2; each
    conclusion carries the occurrence time of the premise passed first. *)
Theorem Exemplification_is_converse_of_Deduction (k : Q) (j1 j2 : Sentence)
    (a1 a2 : nat) (st1 st2 : string) (s1 p1 s2 p2 : Term) (c : Copula)
    (conn1 conn2 : option TermConnector) (tv1 tv2 : TruthValue)
    (w w' : World) :
  0 < k ->
  type_ j1 = Judgment -> type_ j2 = Judgment ->
  statement j1 = StatementTerm a1 st1 [s1; p1] (Some c) conn1 ->
  statement j2 = StatementTerm a2 st2 [s2; p2] (Some c) conn2 ->
  value j1 = Some tv1 -> value j2 = Some tv2 ->
  0 <= frequency tv1 <= 1 -> 0 <= confidence tv1 <= 1 ->
  0 <= frequency tv2 <= 1 -> 0 <= confidence tv2 <= 1 ->
  exists ded exe w1 w2,
    Rules.Deduction j1 j2 w = (Py.Ok ded, w1)
    /\ Rules.Exemplification k j2 j1 w' = (Py.Ok exe, w2)
    /\ statement ded = built_statement (next_addr w) c s2 p1 None
    /\ statement exe = built_statement (next_addr w') c p1 s2 None
    /\ occurrence_time (stamp ded) = occurrence_time (stamp j1)
    /\ occurrence_time (stamp exe) = occurrence_time (stamp j2).
Proof.
  intros Hk Ht1 Ht2 H1 H2 Hv1 Hv2 Hf1 Hc1 Hf2 Hc2.
  assert (exists t, F_Exemplification k (frequency tv2) (confidence tv2)
                      (frequency tv1) (confidence tv1) = Py.Ok t) as [t Et].
  { unfold F_Exemplification, get_truthvalue_from_evidence,
      get_confidence_from_evidence.
    rewrite Qeq_bool_refl. rewrite div_ok; [eexists; reflexivity|].
    rewrite band4.
    pose proof (mult_unit _ _ Hf2 Hf1). pose proof (mult_unit _ _ Hc2 Hc1).
    assert (0 <= frequency tv2 * frequency tv1
                 * (confidence tv2 * confidence tv1)) by nra.
    lra. }
  unfold Rules.Deduction, Rules.Exemplification, Rules.conclude,
    subject_term, predicate_term, get_copula,
    getevidentialvalues_from2sentences, getevidentialvalues_fromsentence,
    Rules.total.
  rewrite H1, H2, Ht1, Ht2, Hv1, Hv2. interp.
  rewrite !Statement_run by (left; reflexivity). rewrite Et.
  unfold new_Judgment, new_Stamp. interp.
  eexists _, _, _, _. repeat split; reflexivity.
Qed.

Lemma Exemplification_is_converse_of_Deduction_witness :
  exists ded exe w1 w2,
    Rules.Deduction (input_judgment 7 M_inh_P 1 (9 # 10) None)
      (input_judgment 8 S_inh_M 1 (9 # 10) None) (world_at 10 0)
    = (Py.Ok ded, w1)
    /\ Rules.Exemplification 1 (input_judgment 8 S_inh_M 1 (9 # 10) None)
         (input_judgment 7 M_inh_P 1 (9 # 10) None) (world_at 10 0)
       = (Py.Ok exe, w2)
    /\ statement ded
       = built_statement 10 Inheritance (atom 3 "S") (atom 1 "P") None
    /\ statement exe
       = built_statement 10 Inheritance (atom 1 "P") (atom 3 "S") None.
Proof.
  destruct (Exemplification_is_converse_of_Deduction 1
              (input_judgment 7 M_inh_P 1 (9 # 10) None)
              (input_judgment 8 S_inh_M 1 (9 # 10) None) 2 4
              (statement_string Inheritance (atom 0 "M") (atom 1 "P"))
              (statement_string Inheritance (atom 3 "S") (atom 0 "M"))
              (atom 0 "M") (atom 1 "P") (atom 3 "S") (atom 0 "M")
              Inheritance None None
              (mkTruthValue 1 (9 # 10)) (mkTruthValue 1 (9 # 10))
              (world_at 10 0) (world_at 10 0))
    as (ded & exe & w1 & w2 & E1 & E2 & S1 & S2 & _).
  - reflexivity.
  - reflexivity.
  - reflexivity.
  - reflexivity.
  - reflexivity.
  - reflexivity.
  - reflexivity.
  - split; discriminate.
  - split; discriminate.
  - split; discriminate.
  - split; discriminate.
  - exists ded, exe, w1, w2. split; [exact E1|]. split; [exact E2|].
    split; [exact S1 | exact S2].
Defined.

(** X13. The rules that look for the shared term give up when there is
    none: for two statements whose subjects and predicates are four
    different terms, [Analogy], [Resemblance] and [Comparison] raise an
    assertion error and leave the state as it was. *)
Theorem no_shared_term_raises (k : Q) (j1 j2 : Sentence) (a1 a2 : nat)
    (st1 st2 : string) (s1 p1 s2 p2 : Term) (c1 c2 : option Copula)
    (conn1 conn2 : option TermConnector) (w : World) :
  statement j1 = StatementTerm a1 st1 [s1; p1] c1 conn1 ->
  statement j2 = StatementTerm a2 st2 [s2; p2] c2 conn2 ->
  str s1 <> str s2 -> str s1 <> str p2 ->
  str p1 <> str s2 -> str p1 <> str p2 ->
  Rules.Analogy j1 j2 w = (Py.Raise Py.AssertionError, w)
  /\ Rules.Resemblance j1 j2 w = (Py.Raise Py.AssertionError, w)
  /\ Rules.Comparison k j1 j2 w = (Py.Raise Py.AssertionError, w).
Proof.
  intros H1 H2 Hss Hsp Hps Hpp.
  unfold Rules.Analogy, Rules.Resemblance, Rules.Comparison, subject_term,
    predicate_term, Terms.eqb.
  rewrite H1, H2. interp.
  apply String.eqb_neq in Hss, Hsp, Hps, Hpp.
  rewrite Hss, Hsp, Hps, Hpp. repeat split; reflexivity.
Qed.

Lemma no_shared_term_raises_witness :
  Rules.Analogy (input_judgment 7 A_inh_B 1 (9 # 10) None)
    (input_judgment 8 C_inh_D 1 (9 # 10) None) (world_at 10 0)
  = (Py.Raise Py.AssertionError, world_at 10 0)
  /\ Rules.Resemblance (input_judgment 7 A_inh_B 1 (9 # 10) None)
       (input_judgment 8 C_inh_D 1 (9 # 10) None) (world_at 10 0)
     = (Py.Raise Py.AssertionError, world_at 10 0)
  /\ Rules.Comparison 1 (input_judgment 7 A_inh_B 1 (9 # 10) None)
       (input_judgment 8 C_inh_D 1 (9 # 10) None) (world_at 10 0)
     = (Py.Raise Py.AssertionError, world_at 10 0).
Proof.
  apply (no_shared_term_raises 1 (input_judgment 7 A_inh_B 1 (9 # 10) None)
           (input_judgment 8 C_inh_D 1 (9 # 10) None) 2 6
           (statement_string Inheritance (atom 0 "A") (atom 1 "B"))
           (statement_string Inheritance (atom 3 "C") (atom 4 "D"))
           (atom 0 "A") (atom 1 "B") (atom 3 "C") (atom 4 "D")
           (Some Inheritance) (Some Inheritance) None None (world_at 10 0)).
  - reflexivity.
  - reflexivity.
  - discriminate.
  - discriminate.
  - discriminate.
  - discriminate.
Defined.

(** ** The dispatcher *)

Section DispatcherGuards.

Variable k : Q.
Variables II EI D : Sentence -> Sentence -> Interp Sentence.

(** X14. The guards of the two-premise dispatcher.  It returns the empty
    list, prints nothing and changes nothing as soon as one of the two
    statements has a statement connector; or the premises are (S c P) and
    (P c' S); or they have the same subject and the same predicate and are
    not both inheritance statements; or the copulas differ; or the two
    statements are the same and one premise is a question. *)
Theorem dispatcher_guards (j1 j2 : Sentence) (a1 a2 : nat)
    (st1 st2 : string) (s1 p1 s2 p2 : Term) (c1 c2 : Copula)
    (conn1 conn2 : option TermConnector) (w : World) :
  statement j1 = StatementTerm a1 st1 [s1; p1] (Some c1) conn1 ->
  statement j2 = StatementTerm a2 st2 [s2; p2] (Some c2) conn2 ->
  (conn1 <> None \/ conn2 <> None)
  \/ (str s1 = str p2 /\ str p1 = str s2)
  \/ (str s1 = str s2 /\ str p1 = str p2
      /\ (c1 <> Inheritance \/ c2 <> Inheritance))
  \/ c1 <> c2
  \/ (st1 = st2 /\ (type_ j1 = Question \/ type_ j2 = Question)) ->
  InferenceEngine.do_inference_two_premise k II EI D j1 j2 w = (Py.Ok [], w).
Proof.
  intros H1 H2 H.
  destruct H as [H|[H|[H|[H|H]]]];
    [| | |now apply (different_copulas_rejected k II EI D j1 j2 a1 a2 st1 st2
                       s1 p1 s2 p2 c1 c2 conn1 conn2 w)|];
    unfold InferenceEngine.do_inference_two_premise, subject_term,
      predicate_term, get_copula;
    rewrite H1, H2; unfold connector, copula, get_subject_term,
      get_predicate_term, subterms, InferenceEngine.option_Copula_eqb,
      Terms.eqb; cbn [str].
  - destruct conn1, conn2; try reflexivity. destruct H; contradiction.
  - destruct (bool_decide (is_Some conn1) || bool_decide (is_Some conn2));
      [reflexivity|].
    unfold mbind, mret, Interp_bind, Interp_ret, lift. cbv beta iota.
    destruct H as [Ha Hb]. rewrite Ha, Hb, !String.eqb_refl. reflexivity.
  - destruct (bool_decide (is_Some conn1) || bool_decide (is_Some conn2));
      [reflexivity|].
    unfold mbind, mret, Interp_bind, Interp_ret, lift. cbv beta iota.
    destruct H as (Ha & Hb & Hc). rewrite Ha, Hb, !String.eqb_refl.
    assert (Copula.eqb c1 Inheritance && Copula.eqb c2 Inheritance = false)
      as ->.
    { apply andb_false_iff.
      destruct Hc as [Hc|Hc]; [left|right];
        (destruct (Copula.eqb _ Inheritance) eqn:E; [|reflexivity]);
        apply Copula_eqb_eq in E; contradiction. }
    cbn [andb negb]. rewrite orb_true_r. reflexivity.
  - destruct (bool_decide (is_Some conn1) || bool_decide (is_Some conn2));
      [reflexivity|].
    unfold mbind, mret, Interp_bind, Interp_ret, lift. cbv beta iota.
    match goal with |- (if ?b then _ else _) _ = _ => destruct b end;
      [reflexivity|].
    destruct H as [Hst Hq]. rewrite Hst, String.eqb_refl.
    assert (SentenceType_eqb (type_ j1) Question
            || SentenceType_eqb (type_ j2) Question = true) as ->.
    { destruct Hq as [-> | ->]; [reflexivity|]. apply orb_true_r. }
    reflexivity.
Qed.

Hypothesis k_pos : 0 < k.

(** What [F_Revision] returns on evidence is a truth value in range, its
    confidence below 1. *)
Lemma F_Revision_bounds (wp1 w1 wp2 w2 : Q) (t : TruthValue) :
  0 <= wp1 <= w1 -> 0 <= wp2 <= w2 ->
  F_Revision k wp1 (w1 - wp1) wp2 (w2 - wp2) = Py.Ok t ->
  0 <= frequency t <= 1 /\ 0 <= confidence t < 1.
Proof.
  intros H1 H2. unfold F_Revision, get_truthvalue_from_evidence,
    get_confidence_from_evidence.
  set (wp := wp1 + wp2). set (w := wp + (w1 - wp1 + (w2 - wp2))).
  assert (w == w1 + w2) as Hw by (unfold w, wp; ring).
  assert (0 <= wp <= w) as Hp by (unfold wp; lra).
  rewrite (div_ok w (w + k)) by lra.
  assert (0 <= w / (w + k) < 1) as Hc.
  { split; [apply Qle_shift_div_l | apply Qlt_shift_div_r]; lra. }
  destruct (Qeq_bool wp w) eqn:E; simpl.
  - intros [= <-]. simpl. split; [lra | exact Hc].
  - apply Qeq_bool_false_iff in E.
    rewrite div_ok by (intros Z; apply E; lra). simpl.
    intros [= <-]. simpl. split; [|exact Hc].
    split; [apply Qle_shift_div_l | apply Qle_shift_div_r]; lra.
Qed.

Lemma Revision_judgment_run (j1 j2 : Sentence) (a1 : nat) (st1 : string)
    (s1 p1 : Term) (c1 : Copula) (conn1 : option TermConnector)
    (tv1 tv2 : TruthValue) (w : World) :
  statement j1 = StatementTerm a1 st1 [s1; p1] (Some c1) conn1 ->
  str (statement j1) = str (statement j2) ->
  value j1 = Some tv1 -> value j2 = Some tv2 ->
  0 <= frequency tv1 <= 1 -> 0 <= confidence tv1 < 1 ->
  0 <= frequency tv2 <= 1 -> 0 <= confidence tv2 < 1 ->
  exists r w' t,
    Rules.Revision k j1 j2 w = (Py.Ok r, w')
    /\ type_ r = Judgment /\ value r = Some t
    /\ 0 <= frequency t <= 1 /\ 0 <= confidence t < 1
    /\ statement r = built_statement (next_addr w) c1 s1 p1 None
    /\ stdout w' = stdout w.
Proof.
  intros Hs Heq Hv1 Hv2 Hf1 Hc1 Hf2 Hc2.
  unfold Rules.Revision, Rules.getevidence_from2sentences,
    getevidentialvalues_from2sentences, getevidentialvalues_fromsentence,
    subject_term, predicate_term, get_copula.
  rewrite Heq, String.eqb_refl, Hv1, Hv2, Hs. interp.
  rewrite !get_evidence_ok by lra. simpl.
  destruct (F_Revision_ok k k_pos _ _ _ _
              (evidence_bounds k k_pos _ _ Hf1 Hc1)
              (evidence_bounds k k_pos _ _ Hf2 Hc2)) as [t Ht].
  pose proof (F_Revision_bounds _ _ _ _ _
                (evidence_bounds k k_pos _ _ Hf1 Hc1)
                (evidence_bounds k k_pos _ _ Hf2 Hc2) Ht) as [Hb1 Hb2].
  rewrite Ht. simpl.
  rewrite Statement_run by (left; reflexivity).
  unfold new_Judgment, new_Stamp. interp.
  eexists _, _, t. repeat split; reflexivity || tauto.
Qed.

(** X15. Two inheritance judgments with the same statement are revised,
    and the revision goes through the immediate rules at once: the
    dispatcher returns the conclusion of [Revision] followed by exactly what
    the one-premise step derives from that conclusion, run from the state
    in which Revision was printed; the two premises are then marked as
    having interacted.  It prints Revision and then the immediate rules
    that applied (so the list holds two or three sentences). *)
Theorem revision_then_immediate_inference (j1 j2 : Sentence) (a1 a2 : nat)
    (st : string) (s1 p1 s2 p2 : Term) (tv1 tv2 : TruthValue) (w : World) :
  type_ j1 = Judgment -> type_ j2 = Judgment ->
  statement j1 = StatementTerm a1 st [s1; p1] (Some Inheritance) None ->
  statement j2 = StatementTerm a2 st [s2; p2] (Some Inheritance) None ->
  str s1 <> str p2 \/ str p1 <> str s2 ->
  value j1 = Some tv1 -> value j2 = Some tv2 ->
  0 <= frequency tv1 <= 1 -> 0 <= confidence tv1 < 1 ->
  0 <= frequency tv2 <= 1 -> 0 <= confidence tv2 < 1 ->
  exists rev w1 t immediate w2 w',
    Rules.Revision k j1 j2 w = (Py.Ok rev, w1) /\ value rev = Some t
    /\ InferenceEngine.do_inference_one_premise k rev (printed "Revision" w1)
       = (Py.Ok immediate, w2)
    /\ mutually_add_to_interacted_sentences j1 j2 w2 = (Py.Ok tt, w')
    /\ InferenceEngine.do_inference_two_premise k II EI D j1 j2 w
       = (Py.Ok (rev :: immediate), w')
    /\ stdout w' = stdout w ++ "Revision"
                     :: one_premise_rules Inheritance (frequency t)
    /\ length (rev :: immediate)
       = S (length (one_premise_rules Inheritance (frequency t))).
Proof.
  intros Ht1 Ht2 H1 H2 Hne Hv1 Hv2 Hf1 Hc1 Hf2 Hc2.
  assert (str (statement j1) = str (statement j2)) as Heq
    by (rewrite H1, H2; reflexivity).
  destruct (Revision_judgment_run j1 j2 _ _ _ _ _ _ _ _ w H1 Heq Hv1 Hv2
              Hf1 Hc1 Hf2 Hc2)
    as (rev & w1 & t & Erev & Tr & Vr & Fr & Cr & Sr & Or).
  exists rev, w1, t.
  unfold InferenceEngine.do_inference_two_premise, subject_term,
    predicate_term, get_copula.
  rewrite Ht1, Ht2, H1, H2.
  unfold connector, copula, get_subject_term, get_predicate_term, subterms,
    InferenceEngine.option_Copula_eqb, InferenceEngine.is_symmetric,
    Terms.eqb.
  cbn [str Copula.eqb SentenceType_eqb Copula.is_symmetric].
  rewrite String.eqb_refl.
  assert (String.eqb (str s1) (str p2) && String.eqb (str p1) (str s2)
          = false) as Etaut.
  { apply andb_false_iff.
    destruct Hne as [H|H]; [left|right]; now apply String.eqb_neq. }
  unfold mbind, mret, Interp_bind, Interp_ret, lift. cbv beta iota.
  rewrite Etaut.
  change (Copula.eqb Inheritance Inheritance) with true.
  change (bool_decide (is_Some (@None TermConnector))) with false.
  cbn [andb orb negb]. rewrite andb_false_r. cbn [orb].
  unfold InferenceEngine.derive, InferenceEngine.print_inference_rule,
    mbind, mret, Interp_bind, Interp_ret.
  rewrite Erev. unfold printed. cbn [print app mapM snd].
  unfold mbind, mret, Interp_bind, Interp_ret.
  match goal with
  | |- context [InferenceEngine.do_inference_one_premise k rev ?w0] =>
      destruct (do_inference_one_premise_run k k_pos rev (next_addr w)
                  (statement_string Inheritance s1 p1) s1 p1 Inheritance
                  None t w0 Tr Sr Vr Fr (proj1 Cr))
        as (neg & wn & d1 & w2 & En & Ed & Hhd & Hout & Hlen)
  end.
  rewrite Ed. cbv beta iota.
  exists d1, w2.
  unfold mutually_add_to_interacted_sentences, add_to_interacted_sentences,
    mbind, mret, Interp_bind, Interp_ret. cbv beta iota.
  eexists. split; [reflexivity|]. split; [exact Vr|].
  split; [reflexivity|]. split; [reflexivity|].
  cbn [concat]. rewrite app_nil_r.
  split; [reflexivity|]. split.
  - cbn [stdout]. rewrite Hout. cbn [stdout]. rewrite Or.
    rewrite <- app_assoc. reflexivity.
  - simpl. now rewrite Hlen.
Qed.

End DispatcherGuards.

Lemma dispatcher_guards_witness :
  dispatch 1 (input_judgment 7 A_inh_B 1 (9 # 10) None)
    (input_judgment 8 B_inh_A 1 (9 # 10) None) (world_at 10 0)
  = (Py.Ok [], world_at 10 0).
Proof.
  unfold dispatch.
  apply (dispatcher_guards 1 Rules.IntensionalIntersectionOrDisjunction
           Rules.ExtensionalIntersectionOrConjunction
           Rules.ExtensionalDifference
           (input_judgment 7 A_inh_B 1 (9 # 10) None)
           (input_judgment 8 B_inh_A 1 (9 # 10) None)
           2 5 (statement_string Inheritance (atom 0 "A") (atom 1 "B"))
           (statement_string Inheritance (atom 1 "B") (atom 0 "A"))
           (atom 0 "A") (atom 1 "B") (atom 1 "B") (atom 0 "A")
           Inheritance Inheritance None None).
  - reflexivity.
  - reflexivity.
  - right. left. split; reflexivity.
Defined.

Lemma revision_then_immediate_inference_witness :
  exists rev w1 immediate w2 w',
    Rules.Revision 1 (input_judgment 7 A_inh_B 1 (9 # 10) None)
      (input_judgment 8 A_inh_B 0 (9 # 10) None) (world_at 10 0)
    = (Py.Ok rev, w1)
    /\ InferenceEngine.do_inference_one_premise 1 rev
         (printed "Revision" w1)
       = (Py.Ok immediate, w2)
    /\ dispatch 1 (input_judgment 7 A_inh_B 1 (9 # 10) None)
         (input_judgment 8 A_inh_B 0 (9 # 10) None) (world_at 10 0)
       = (Py.Ok (rev :: immediate), w')
    /\ stdout w' = ["Revision"; "Negation"; "Conversion"].
Proof.
  unfold dispatch.
  destruct (revision_then_immediate_inference 1
              Rules.IntensionalIntersectionOrDisjunction
              Rules.ExtensionalIntersectionOrConjunction
              Rules.ExtensionalDifference eq_refl
              (input_judgment 7 A_inh_B 1 (9 # 10) None)
              (input_judgment 8 A_inh_B 0 (9 # 10) None)
              2 2 (statement_string Inheritance (atom 0 "A") (atom 1 "B"))
              (atom 0 "A") (atom 1 "B") (atom 0 "A") (atom 1 "B")
              (mkTruthValue 1 (9 # 10)) (mkTruthValue 0 (9 # 10))
              (world_at 10 0))
    as (rev & w1 & t & imm & w2 & w' & Er & Vr & Ei & Em & Ed & Ho & _).
  - reflexivity.
  - reflexivity.
  - reflexivity.
  - reflexivity.
  - left. discriminate.
  - reflexivity.
  - reflexivity.
  - split; discriminate.
  - split; [discriminate | reflexivity].
  - split; discriminate.
  - split; [discriminate | reflexivity].
  - exists rev, w1, imm, w2, w'.
    split; [exact Er|]. split; [exact Ei|]. split; [exact Ed|].
    revert Ed. vm_compute. intros Ed. now inversion Ed.
Defined.

(** ** The helper functions *)

(** X16. The conclusion [create_resultant_sentence_one_premise] builds
    from a judgment or a goal: it has the type and the occurrence time of
    the premise, whatever the statement is, and is marked as a one-premise
    derivation; it is labelled with the name of the truth function and the
    premise as its parent, or, without a truth function, as a structural
    transformation with the premise's own parents; its value is the one
    passed in, else the truth function's value, else the premise's. *)
Theorem one_premise_conclusion (j : Sentence) (result_statement : Term)
    (truth_value_function :
       option (string * (Q -> Q -> Py.Result TruthValue)))
    (result_truth : option TruthValue) (tv : TruthValue) (w : World) :
  type_ j <> Question -> value j = Some tv ->
  (forall name F,
     truth_value_function = Some (name, F) ->
     exists t, F (frequency tv) (confidence tv) = Py.Ok t) ->
  exists r w',
    HelperFunctions.create_resultant_sentence_one_premise j result_statement
      truth_value_function result_truth w = (Py.Ok r, w')
    /\ type_ r = type_ j /\ statement r = result_statement
    /\ occurrence_time (stamp r) = occurrence_time (stamp j)
    /\ from_one_premise_inference (stamp r) = true
    /\ derived_by (stamp r)
       = Some (match truth_value_function with
               | Some (name, _) => name
               | None => "Structural Transformation"
               end)
    /\ parent_premises (stamp r)
       = match truth_value_function with
         | Some _ => [id (stamp j)]
         | None => parent_premises (stamp j)
         end
    /\ match result_truth, truth_value_function with
       | Some t, _ => value r = Some t
       | None, None =>
           value r = Some (mkTruthValue (frequency tv) (confidence tv))
       | None, Some (_, F) =>
           exists t, F (frequency tv) (confidence tv) = Py.Ok t
                     /\ value r = Some t
       end.
Proof.
  intros Ht Hv HF.
  unfold HelperFunctions.create_resultant_sentence_one_premise,
    getevidentialvalues_fromsentence.
  rewrite Hv.
  destruct truth_value_function as [[name F]|];
    [destruct (HF name F eq_refl) as [t0 E0]|];
    destruct result_truth as [t|];
    destruct (type_ j) eqn:Ety; try contradiction;
    unfold new_Judgment, new_Goal, new_Stamp; interp; rewrite ?E0;
    eexists _, _; (split; [reflexivity|]); simpl;
    repeat split; try reflexivity; eauto.
Qed.

Lemma one_premise_conclusion_witness :
  exists r w',
    HelperFunctions.create_resultant_sentence_one_premise
      (input_judgment 7 A_inh_B 1 (9 # 10) (Some 3%Z)) B_inh_A None None
      (world_at 10 5) = (Py.Ok r, w')
    /\ occurrence_time (stamp r) = Some 3%Z
    /\ derived_by (stamp r) = Some "Structural Transformation"
    /\ value r = Some (mkTruthValue 1 (9 # 10)).
Proof.
  destruct (one_premise_conclusion
              (input_judgment 7 A_inh_B 1 (9 # 10) (Some 3%Z)) B_inh_A
              None None (mkTruthValue 1 (9 # 10)) (world_at 10 5))
    as (r & w' & E & _ & _ & T & _ & L & _ & V).
  - discriminate.
  - reflexivity.
  - intros name F H. discriminate H.
  - exists r, w'. split; [exact E|]. split; [exact T|].
    split; [exact L | exact V].
Defined.

(** ** Terms *)

Lemma ltb_asym (a b : string) :
  String.ltb a b = true -> String.ltb b a = false.
Proof.
  unfold String.ltb. rewrite (String.compare_antisym b a).
  destruct (String.compare a b); simpl; congruence.
Qed.

Lemma ltb_total (a b : string) :
  String.ltb a b = false -> String.ltb b a = false -> a = b.
Proof.
  unfold String.ltb. rewrite (String.compare_antisym b a).
  destruct (String.compare a b) eqn:E; simpl; try congruence.
  intros _ _. now apply String.compare_eq_iff.
Qed.

(** X22. Under a symmetric copula the order of the two arguments of the
    statement constructor does not matter: the statements built from
    (s, p) and from (p, s) have the same string, so they are equal terms,
    and their subterms are stored in the same order of strings. *)
Theorem symmetric_statement_order_irrelevant (s p : Term) (c : Copula)
    (w w' : World) :
  Copula.is_symmetric c = true ->
  exists x y w1 w2,
    Rules.Statement s p (Some c) None w = (Py.Ok x, w1)
    /\ Rules.Statement p s (Some c) None w' = (Py.Ok y, w2)
    /\ Terms.eqb x y = true
    /\ map str (subterms x) = map str (subterms y).
Proof.
  intros Hc. rewrite !Statement_run by (left; reflexivity).
  eexists _, _, _, _. split; [reflexivity|]. split; [reflexivity|].
  unfold built_statement, stored_pair, Terms.eqb, statement_string.
  rewrite Hc. simpl.
  destruct (String.ltb (str p) (str s)) eqn:E1;
    destruct (String.ltb (str s) (str p)) eqn:E2; simpl;
    try (split; [apply String.eqb_refl | reflexivity]).
  - apply ltb_asym in E1. congruence.
  - rewrite (ltb_total _ _ E1 E2).
    split; [apply String.eqb_refl | reflexivity].
Qed.

Lemma symmetric_statement_order_irrelevant_witness :
  exists x y w1 w2,
    Rules.Statement (atom 1 "B") (atom 0 "A") (Some Similarity) None
      (world_at 10 0) = (Py.Ok x, w1)
    /\ Rules.Statement (atom 0 "A") (atom 1 "B") (Some Similarity) None
         (world_at 11 0) = (Py.Ok y, w2)
    /\ Terms.eqb x y = true
    /\ map str (subterms x) = map str (subterms y).
Proof.
  apply (symmetric_statement_order_irrelevant (atom 1 "B") (atom 0 "A")
           Similarity (world_at 10 0) (world_at 11 0)).
  reflexivity.
Defined.

Lemma Term_from_string_S (n : nat) (s : string) :
  Term_from_string (S n) s
  = Term_from_string_body (Term_from_string n) (CompoundTerm_from_string n) s.
Proof. reflexivity. Qed.

Lemma Term_from_string_empty (n : nat) (w : World) :
  n <> O -> term_dict w !! "" = None ->
  Term_from_string n "" w = (Py.Raise Py.IndexError, w).
Proof.
  intros Hn H. destruct n as [|n]; [contradiction|].
  rewrite Term_from_string_S.
  unfold Term_from_string_body, term_dict_lookup.
  unfold mbind, mret, Interp_bind, Interp_ret. cbv beta iota.
  rewrite H. reflexivity.
Qed.

(** X19. The empty string is no term: unless the table happens to hold an
    entry for it, [Term.from_string] reads the first character of the
    empty string, raises an index error and leaves the table as it was. *)
Theorem from_string_empty (w : World) :
  term_dict w !! "" = None ->
  Term.from_string "" w = (Py.Raise Py.IndexError, w).
Proof.
  intros H. unfold Term.from_string.
  apply Term_from_string_empty; [apply recursion_limit_positive | exact H].
Qed.

Lemma from_string_empty_witness :
  Term.from_string "" initial_world = (Py.Raise Py.IndexError, initial_world).
Proof. apply (from_string_empty initial_world). reflexivity. Defined.

(** X18. Interning by string: after [Term.from_string] returned a term for
    a string, the table holds that term under that string, and a second
    call with the same string returns the identical object and changes
    nothing. *)
Theorem from_string_twice_same_object (s : string) (t : Term)
    (w w1 : World) :
  Term.from_string s w = (Py.Ok t, w1) ->
  Term.from_string s w1 = (Py.Ok t, w1)
  /\ term_dict w1 !! s = Some t.
Proof.
  unfold Term.from_string. intros H.
  apply Term_from_string_stores in H.
  split; [|exact H].
  apply Term_from_string_cached; [apply recursion_limit_positive | exact H].
Qed.

Lemma from_string_twice_same_object_witness :
  Term.from_string "A" world_with_A = (Py.Ok (AtomicTerm 0 "A"), world_with_A)
  /\ term_dict world_with_A !! "A" = Some (AtomicTerm 0 "A").
Proof.
  apply (from_string_twice_same_object "A" (AtomicTerm 0 "A") initial_world
           world_with_A).
  vm_compute. reflexivity.
Defined.

(** A character of a name is none of the characters that open a compound,
    a set, an array or a variable. *)
Lemma valid_char_is_plain (c : ascii) :
  is_valid_term_char c = true ->
  Ascii.eqb c StatementSyntax.Start = false
  /\ TermConnector.is_set_bracket_start c = false
  /\ String.eqb (string_of_char c) (TermConnector.value Array) = false
  /\ Ascii.eqb c VARIABLE_SYM = false /\ Ascii.eqb c QUERY_SYM = false.
Proof.
  destruct c as [[] [] [] [] [] [] [] []]; vm_compute; intros H;
    try discriminate H; repeat split; reflexivity.
Qed.

Lemma Term_from_string_atomic (n : nat) (c0 : ascii) (rest : string)
    (w : World) :
  n <> O -> is_valid_term (String c0 rest) = true ->
  term_dict w !! String c0 rest = None ->
  Term_from_string n (String c0 rest) w
  = (Py.Ok (AtomicTerm (next_addr w) (String c0 rest)),
     mkWorld (<[String c0 rest := AtomicTerm (next_addr w) (String c0 rest)]>
                (term_dict w))
       (S (next_addr w)) (next_stamp_id w) (current_cycle_number w)
       (stdout w) (interacted_sentences w)).
Proof.
  intros Hn Hv Hd. destruct n as [|n]; [contradiction|].
  rewrite Term_from_string_S.
  unfold Term_from_string_body, term_dict_lookup, term_dict_store,
    new_AtomicTerm.
  unfold mbind, mret, Interp_bind, Interp_ret, lift, alloc. cbv beta iota.
  rewrite Hd. cbn [Py.index String.get].
  assert (is_valid_term_char c0 = true) as Hc0.
  { unfold is_valid_term in Hv. simpl in Hv.
    now apply andb_true_iff in Hv as [? _]. }
  destruct (valid_char_is_plain c0 Hc0) as (E1 & E2 & E3 & E4 & E5).
  rewrite E1, E2, E3, E4, E5. cbn [orb]. rewrite Hv. reflexivity.
Qed.

(** X20. A name parses to itself: for a non-empty string of name
    characters that is not yet in the table, [Term.from_string] returns a
    fresh atomic term whose string is the string passed in, of syntactic
    complexity 1, and files it in the table under that string. *)
Theorem from_string_atomic (s : string) (w : World) :
  s <> "" -> is_valid_term s = true -> term_dict w !! s = None ->
  exists t w',
    Term.from_string s w = (Py.Ok t, w')
    /\ t = AtomicTerm (next_addr w) s
    /\ str t = s /\ syntactic_complexity t = 1%nat
    /\ term_dict w' = <[s := t]> (term_dict w).
Proof.
  intros Hs Hv Hd. destruct s as [|c0 rest]; [contradiction|].
  unfold Term.from_string.
  rewrite (Term_from_string_atomic _ _ _ _ recursion_limit_positive Hv Hd).
  eexists _, _. repeat split; reflexivity.
Qed.

Lemma from_string_atomic_witness :
  exists t w',
    Term.from_string "bird" initial_world = (Py.Ok t, w')
    /\ t = AtomicTerm (next_addr initial_world) "bird"
    /\ str t = "bird" /\ syntactic_complexity t = 1%nat
    /\ term_dict w' = <["bird" := t]> (term_dict initial_world).
Proof.
  apply (from_string_atomic "bird" initial_world).
  - discriminate.
  - reflexivity.
  - reflexivity.
Defined.

(** X21. The dependency list of a variable is never parsed: whatever
    non-empty dependency string is passed, [VariableTerm.from_string]
    builds a variable with the empty dependency list, dependent for the
    symbol # and a query for the symbol ?, whose string is the symbol, the
    name and a lone closing parenthesis. *)
Theorem VariableTerm_from_string_drops_dependencies (name deps : string)
    (w : World) :
  deps <> "" ->
  VariableTerm_from_string name VARIABLE_SYM deps w
  = (Py.Ok (VariableTerm (next_addr w) ("#" +:+ name +:+ ")") name Dependent
              (Some [])),
     bump_addr w)
  /\ VariableTerm_from_string name QUERY_SYM deps w
     = (Py.Ok (VariableTerm (next_addr w) ("?" +:+ name +:+ ")") name Query
                 (Some [])),
        bump_addr w).
Proof.
  intros Hd. destruct deps as [|d ds]; [contradiction|].
  split; reflexivity.
Qed.

Lemma VariableTerm_from_string_drops_dependencies_witness :
  VariableTerm_from_string "x" VARIABLE_SYM "y,z" (world_at 10 0)
  = (Py.Ok (VariableTerm 10 "#x)" "x" Dependent (Some [])),
     bump_addr (world_at 10 0))
  /\ VariableTerm_from_string "x" QUERY_SYM "y,z" (world_at 10 0)
     = (Py.Ok (VariableTerm 10 "?x)" "x" Query (Some [])),
        bump_addr (world_at 10 0)).
Proof.
  apply (VariableTerm_from_string_drops_dependencies "x" "y,z"
           (world_at 10 0)).
  discriminate.
Defined.

(** X23. What the scan for the top-level copula returns, for every string:
    either nothing and no index, or a copula and an index at which three
    characters still fit into the string and spell that copula. *)
Theorem get_top_level_copula_spec (s : string) :
  match get_top_level_copula s with
  | (None, None) => True
  | (Some c, Some i) =>
      (i + 3 <= String.length s)%nat
      /\ Copula.get_copula_from_string (slice s i (i + 3)) = Some c
  | _ => False
  end.
Proof.
  unfold get_top_level_copula.
  set (P := fun acc : option Copula * option nat * Z =>
              match fst acc with
              | (None, None) => True
              | (Some c, Some i) =>
                  (i + 3 <= String.length s)%nat
                  /\ Copula.get_copula_from_string (slice s i (i + 3))
                     = Some c
              | _ => False
              end).
  match goal with |- match fst (fold_left ?f ?l ?a) with _ => _ end =>
    assert (forall l0 a0, P a0 -> P (fold_left f l0 a0)) as H
  end.
  { induction l0 as [|i l0 IH]; intros a0 Ha; [exact Ha|]. simpl.
    apply IH. destruct a0 as [[c ci] d].
    destruct (String.get i s) as [v|]; [|exact Ha].
    destruct (Ascii.eqb v StatementSyntax.Start); [exact Ha|].
    destruct (Ascii.eqb v StatementSyntax.End_); [exact Ha|].
    destruct ((d =? 1)%Z && (i + 3 <=? String.length s)%nat
              && Copula.is_string_a_copula (slice s i (i + 3))) eqn:E;
      [|exact Ha].
    apply andb_true_iff in E as [E E3]. apply andb_true_iff in E as [_ E2].
    apply Nat.leb_le in E2. unfold Copula.is_string_a_copula in E3.
    unfold P. simpl.
    destruct (Copula.get_copula_from_string (slice s i (i + 3)));
      [split; [assumption | reflexivity] | discriminate]. }
  apply (H _ (None, None, 0%Z)). exact I.
Qed.

(** ** The bag, further *)

Lemma without_app_fresh {A} (x : string) (keys : list string) (l : list A)
    (v : A) :
  x ∉ keys -> length keys = length l ->
  without x (keys ++ [x]) (l ++ [v]) = l.
Proof.
  revert l. induction keys as [|k ks IH]; intros [|y r] Hx Hl;
    simpl in *; try discriminate.
  - now rewrite String.eqb_refl.
  - injection Hl as Hl. apply not_elem_of_cons in Hx as [Hk Hx].
    destruct (String.eqb_spec k x) as [->|_]; [contradiction|].
    f_equal. now apply IH.
Qed.

Section BagFurther.

Variable priority_weight : Q -> Q.
Variable float : Py.FloatOps.
Variable GUI_USE_INTERFACE : bool.
Variable random_choice : list string -> list Q -> Py.Result string.

Ltac bagm :=
  unfold mbind, mret, BagM_bind, BagM_ret, get, modify, fail, deref,
    of_result in *;
  cbv beta iota.

(** X24. Calls the bag rejects leave it as it was: for a key that is not
    in the bag, [take_using_key] raises an assertion error and
    [change_priority] an attribute error, and [put] of an item whose
    object is not of the bag's item type raises an assertion error; in all
    three cases the state does not change. *)
Theorem rejected_calls_leave_bag_unchanged (key : string) (new_priority : Q)
    (st : State) :
  item_lookup_dict st !! key = None ->
  take_using_key priority_weight float key st = (Py.Raise Py.AssertionError, st)
  /\ change_priority priority_weight float GUI_USE_INTERFACE key new_priority st
     = (Py.Raise Py.AttributeError, st)
  /\ (forall item it,
        heap st !! item = Some it -> object_type it <> item_type st ->
        put priority_weight float item st = (Py.Raise Py.AssertionError, st)).
Proof.
  intros H. split; [|split].
  - now apply take_using_key_absent.
  - now apply change_priority_absent.
  - intros item it Hh Ht. rewrite put_run, Hh.
    apply String.eqb_neq in Ht. now rewrite Ht.
Qed.

(** X25. Neither [take_using_key] nor [change_priority] touches the
    ordered queue, whether the call returns or raises: the entry of an item
    that was taken stays in the queue, and an entry keeps the priority the
    item had when it was put. *)
Theorem ordered_queue_untouched (key : string) (new_priority : Q)
    (st : State) :
  ordered_items (snd (take_using_key priority_weight float key st))
  = ordered_items st
  /\ ordered_items
       (snd (change_priority priority_weight float GUI_USE_INTERFACE key
               new_priority st))
     = ordered_items st.
Proof.
  split.
  - unfold take_using_key, _take_from_lookup_dict. bagm.
    destruct (item_lookup_dict st !! key) as [a|] eqn:Hd; simpl;
      [|reflexivity].
    rewrite Hd. simpl. destruct (heap st !! a); reflexivity.
  - unfold change_priority, peek_using_key, _take_from_lookup_dict,
      _put_into_lookup_dict. bagm.
    destruct (item_lookup_dict st !! key) as [a|] eqn:Hd; [|reflexivity].
    simpl. destruct (heap st !! a) as [it|] eqn:Hh; [|reflexivity]. simpl.
    destruct GUI_USE_INTERFACE; simpl; [|reflexivity].
    rewrite Hd. simpl. rewrite lookup_insert_eq. simpl.
    destruct (delete key (item_lookup_dict st) !! Bag.key it); reflexivity.
Qed.

(** X26. A stale queue entry breaks the capacity bound.  When the bag is
    full and the entry of least priority in the ordered queue belongs to an
    item that is no longer in the bag, [put] of a new item inserts it, then
    fails to evict: it raises an assertion error and leaves the bag with
    more keys than its capacity. *)
Theorem put_after_take_can_overflow (item : nat) (it : Item) (x : nat)
    (it_x : Item) (rest : list (Q * nat)) (st : State) :
  heap st !! item = Some it -> object_type it = item_type st ->
  item_lookup_dict st !! key it = None ->
  (capacity st <= length (item_keys st))%nat ->
  extract_min (ordered_items st ++ [(priority (budget it), item)])
  = Some (x, rest) ->
  heap st !! x = Some it_x ->
  item_lookup_dict st !! key it_x = None -> key it_x <> key it ->
  exists st',
    put priority_weight float item st = (Py.Raise Py.AssertionError, st')
    /\ item_keys st' = item_keys st ++ [key it]
    /\ (capacity st' < length (item_keys st'))%nat.
Proof.
  intros Hh Ht Hd Hcap Hex Hx Hdx Hne.
  rewrite put_run, Hh, Ht, String.eqb_refl, Hd. simpl.
  assert ((capacity st <? length (item_keys st ++ [key it]))%nat = true)
    as ->.
  { apply Nat.ltb_lt. rewrite length_app. simpl. lia. }
  unfold _take_min. bagm.
  unfold inserted at 1. cbn [ordered_items]. unfold insert_object.
  rewrite Hex. simpl. rewrite Hx. simpl.
  rewrite take_using_key_absent.
  - eexists. split; [reflexivity|]. simpl. split; [reflexivity|].
    rewrite length_app. simpl. lia.
  - simpl. now rewrite lookup_insert_ne by congruence.
Qed.

(** X27. A [put] that returns keeps the bag within its capacity: if the
    bag holds at most [capacity] keys before, it does so afterwards, and
    the capacity is unchanged. *)
Theorem put_respects_capacity (item : nat) (st : State) (r : nat)
    (st' : State) :
  Inv priority_weight st ->
  (length (item_keys st) <= capacity st)%nat ->
  put priority_weight float item st = (Py.Ok r, st') ->
  (length (item_keys st') <= capacity st')%nat
  /\ capacity st' = capacity st.
Proof.
  intros HI Hle. rewrite put_run.
  destruct (heap st !! item) as [it|] eqn:Hh; [|discriminate].
  destruct (negb _); [discriminate|].
  destruct (item_lookup_dict st !! key it) eqn:Hd; [discriminate|].
  pose proof (Inv_inserted _ float _ _ _ HI Hh Hd) as HI'.
  destruct (capacity st <? length (item_keys st ++ [key it]))%nat eqn:Hcap.
  - destruct (_take_min priority_weight float (inserted priority_weight float item it st))
      as [[y|e] s0] eqn:Hmin; [|discriminate].
    intros [= <- <-].
    destruct (_take_min_run _ _ _ _ _ Hmin)
      as (rest & it_e & a & ia & Hex & Hhe & Hda & Hha & ->).
    simpl. split; [|reflexivity].
    unfold np_delete, np_where. rewrite delete_where_from by reflexivity.
    rewrite without_keys.
    assert (key it_e ∈ item_keys st ++ [key it]) as Hmem.
    { apply (inv_dom _ _ HI'). simpl. eauto. }
    pose proof (length_filter_ne _ _ (inv_nodup _ _ HI') Hmem) as Hf.
    simpl in Hf. rewrite length_app in Hf. simpl in Hf. lia.
  - intros [= <- <-]. simpl. split; [|reflexivity].
    apply Nat.ltb_ge in Hcap. exact Hcap.
Qed.

(** X28. Putting an item into a bag with room and taking it out by its key
    gives the item and the bag back: the keys, the weights and the lookup
    dictionary are as before; the weight sum is the one before with the
    weight of the item added and then subtracted, in the arithmetic of the
    floats; only the ordered queue keeps the entry of the item. *)
Theorem put_then_take_round_trip (item : nat) (it : Item) (st : State) :
  Inv priority_weight st ->
  heap st !! item = Some it -> object_type it = item_type st ->
  item_lookup_dict st !! key it = None ->
  (length (item_keys st) < capacity st)%nat ->
  exists st1 st2,
    put priority_weight float item st = (Py.Ok item, st1)
    /\ take_using_key priority_weight float (key it) st1 = (Py.Ok item, st2)
    /\ item_keys st2 = item_keys st /\ weights st2 = weights st
    /\ item_lookup_dict st2 = item_lookup_dict st
    /\ weights_sum st2
       = Py.fsub float
           (Py.fadd float (weights_sum st)
              (get_priority_weight priority_weight (budget it)))
           (get_priority_weight priority_weight (budget it))
    /\ ordered_items st2
       = ordered_items st ++ [(priority (budget it), item)].
Proof.
  intros HI Hh Ht Hd Hlt.
  rewrite put_run, Hh, Ht, String.eqb_refl, Hd. simpl.
  assert ((capacity st <? length (item_keys st ++ [key it]))%nat = false)
    as ->.
  { apply Nat.ltb_ge. rewrite length_app. simpl. lia. }
  assert (key it ∉ item_keys st) as Hnin.
  { intros Hin. apply (inv_dom _ _ HI) in Hin as [? ?]. congruence. }
  pose proof (Forall2_length _ _ _ (inv_weights _ _ HI)) as Hl.
  eexists _, _. split; [reflexivity|]. split.
  - apply take_using_key_run; simpl; [apply lookup_insert_eq | exact Hh].
  - simpl. unfold np_delete, np_where.
    rewrite !delete_where_from
      by (rewrite ?length_app; simpl; rewrite ?Hl; reflexivity).
    rewrite !without_app_fresh by (assumption || reflexivity).
    repeat split. now apply delete_insert_id.
Qed.

(** *** Peeking *)

(** In a bag that is not empty the vector for the sampler is computed
    without error, one entry per key. *)
Lemma normalized_weights_run (st : State) :
  Inv priority_weight st -> item_keys st <> [] ->
  exists p,
    normalized_weights float st = Py.Ok p
    /\ length p = length (item_keys st).
Proof.
  intros HI Hne.
  pose proof (Forall2_length _ _ _ (inv_weights _ _ HI)) as Hl.
  unfold normalized_weights.
  destruct (Py.lt 0 (weights_sum st)).
  - eexists. split; [reflexivity|]. now rewrite length_map.
  - assert (Qeq_bool (inject_Z (Z.of_nat (length (weights st)))) 0 = false)
      as ->.
    { apply Qeq_bool_false_iff. intros C.
      assert (0 < inject_Z (Z.of_nat (length (weights st)))) as Hpos.
      { change 0 with (inject_Z 0). rewrite <- Zlt_Qlt.
        destruct (item_keys st); [contradiction|].
        rewrite <- Hl. simpl length. lia. }
      lra. }
    eexists. split; [reflexivity|]. now rewrite length_replicate.
Qed.

(** X30. Peeking without a key.  On the empty bag [peek] returns [None]
    without sampling.  Otherwise the normalised weights are computed
    without error, one per key, and handed to the sampler with the keys:
    when the sampler returns one of the keys, [peek] returns the item filed
    under that key, which is in the bag, and when the sampler raises,
    [peek] raises the same error; in each case the bag is left as it
    was. *)
Theorem peek_returns_an_item (st : State) :
  Inv priority_weight st ->
  match item_keys st with
  | [] => peek float random_choice None st = (Py.Ok PeekedNone, st)
  | _ =>
      exists p,
        normalized_weights float st = Py.Ok p
        /\ length p = length (item_keys st)
        /\ (forall k,
              random_choice (item_keys st) p = Py.Ok k ->
              k ∈ item_keys st ->
              exists a it,
                peek float random_choice None st
                = (Py.Ok (PeekedItem a), st)
                /\ item_lookup_dict st !! k = Some a
                /\ heap st !! a = Some it /\ key it = k)
        /\ (forall e,
              random_choice (item_keys st) p = Py.Raise e ->
              peek float random_choice None st = (Py.Raise e, st))
  end.
Proof.
  intros HI.
  destruct (item_keys st) as [|k0 ks] eqn:Hk.
  - unfold peek, len. bagm. rewrite Hk. reflexivity.
  - assert (item_keys st <> []) as Hne by (rewrite Hk; discriminate).
    destruct (normalized_weights_run st HI Hne) as (p & Ep & Hl).
    assert ((length (item_keys st) =? 0)%nat = false) as Hlen
      by (rewrite Hk; reflexivity).
    exists p. rewrite <- Hk.
    split; [exact Ep|]. split; [exact Hl|]. split.
    + intros k Ek Hin.
      destruct (proj1 (inv_dom _ _ HI k) Hin) as [a Ha].
      destruct (inv_key _ _ HI _ _ Ha) as (it & Hit & Hkey).
      exists a, it.
      unfold peek, _peek_probabilistically, len. bagm.
      rewrite Hlen, Ep, Ek, Ha. repeat split; try assumption.
      now rewrite Hlen.
    + intros e Ee.
      unfold peek, _peek_probabilistically, len. bagm.
      rewrite Hlen, Ep, Ee. now rewrite Hlen.
Qed.

End BagFurther.

Lemma rejected_calls_leave_bag_unchanged_witness :
  take_using_key (fun p => p) Py.binary64 "a" (new_Bag two_items "Task" 1)
  = (Py.Raise Py.AssertionError, new_Bag two_items "Task" 1)
  /\ change_priority (fun p => p) Py.binary64 false "a" (1 # 2)
       (new_Bag two_items "Task" 1)
     = (Py.Raise Py.AttributeError, new_Bag two_items "Task" 1)
  /\ (forall item it,
        heap (new_Bag two_items "Task" 1) !! item = Some it ->
        object_type it <> item_type (new_Bag two_items "Task" 1) ->
        put (fun p => p) Py.binary64 item (new_Bag two_items "Task" 1)
        = (Py.Raise Py.AssertionError, new_Bag two_items "Task" 1)).
Proof.
  apply (rejected_calls_leave_bag_unchanged (fun p => p) Py.binary64 false
           "a" (1 # 2)
           (new_Bag two_items "Task" 1)).
  reflexivity.
Defined.

Lemma put_after_take_can_overflow_witness :
  exists st',
    put (fun p => p) Py.binary64 2 bag_after_take
    = (Py.Raise Py.AssertionError, st')
    /\ item_keys st' = item_keys bag_after_take ++ ["c"]
    /\ (capacity st' < length (item_keys st'))%nat.
Proof.
  apply (put_after_take_can_overflow (fun p => p) Py.binary64 2
           (mkItem "c" "Task" (mkBudget (1 # 2) (1 # 2) (1 # 2))) 0
           (mkItem "a" "Task" (mkBudget (1 # 5) (1 # 2) (1 # 2)))
           [(9 # 10, 1%nat); (1 # 2, 2%nat)] bag_after_take).
  - vm_compute. reflexivity.
  - vm_compute. reflexivity.
  - vm_compute. reflexivity.
  - vm_compute. lia.
  - vm_compute. reflexivity.
  - vm_compute. reflexivity.
  - vm_compute. reflexivity.
  - discriminate.
Defined.

Lemma put_respects_capacity_witness :
  (length (item_keys (snd (put (fun p => p) Py.binary64 1 bag_holding_a)))
   <= capacity (snd (put (fun p => p) Py.binary64 1 bag_holding_a)))%nat
  /\ capacity (snd (put (fun p => p) Py.binary64 1 bag_holding_a))
     = capacity bag_holding_a.
Proof.
  apply (put_respects_capacity (fun p => p) Py.binary64 1 bag_holding_a 1
           (snd (put (fun p => p) Py.binary64 1 bag_holding_a))).
  - unfold bag_holding_a. apply put_Inv, Inv_new_Bag.
  - vm_compute. lia.
  - vm_compute. reflexivity.
Defined.

Lemma put_then_take_round_trip_witness :
  exists st1 st2,
    put (fun p => p) Py.binary64 0 (new_Bag two_items "Task" 1)
    = (Py.Ok 0%nat, st1)
    /\ take_using_key (fun p => p) Py.binary64 "a" st1 = (Py.Ok 0%nat, st2)
    /\ item_keys st2 = [] /\ weights st2 = []
    /\ item_lookup_dict st2 = ∅
    /\ weights_sum st2
       = Py.fsub Py.binary64 (Py.fadd Py.binary64 0 (1 # 5)) (1 # 5)
    /\ ordered_items st2 = [(1 # 5, 0%nat)].
Proof.
  apply (put_then_take_round_trip (fun p => p) Py.binary64 0
           (mkItem "a" "Task" (mkBudget (1 # 5) (1 # 2) (1 # 2)))
           (new_Bag two_items "Task" 1)).
  - apply Inv_new_Bag.
  - vm_compute. reflexivity.
  - reflexivity.
  - reflexivity.
  - simpl. lia.
Defined.

Lemma peek_returns_an_item_witness :
  exists a it,
    peek Py.binary64 first_key None bag_holding_a_b
    = (Py.Ok (PeekedItem a), bag_holding_a_b)
    /\ item_lookup_dict bag_holding_a_b !! "a" = Some a
    /\ heap bag_holding_a_b !! a = Some it /\ key it = "a".
Proof.
  pose proof (peek_returns_an_item (fun p => p * p) Py.binary64 first_key
                bag_holding_a_b) as H.
  assert (Inv (fun p => p * p) bag_holding_a_b) as HI
    by (unfold bag_holding_a_b; apply put_Inv, put_Inv, Inv_new_Bag).
  specialize (H HI).
  assert (item_keys bag_holding_a_b = ["a"; "b"]) as Hk by reflexivity.
  rewrite Hk in H. destruct H as (p & _ & _ & H & _).
  apply (H "a").
  - reflexivity.
  - apply elem_of_cons. left. reflexivity.
Defined.
